(** * pushgo / simplepush: the worker protocol, error table and id codec

    A shallow embedding of the Go sources of the SimplePush server:

    - [errors.go]    : the sentinel errors, [ErrToStatus], [GetAWSPublicHostname];
    - [no_store.go]  : the endpoint-key codec of the no-op storage backend;
    - the [id] package (its test file only is at hand);
    - [worker.go]    : the per-connection command handlers, the read loop
                       [sniffer], [Run] and its hello timer;
    - of Go's library, what [strings.ToLower] rests on: the decoder and the
      encoder of [unicode/utf8], [unicode.ToLower] with its case table, and
      [strings.Map].

    The definitions come first, one module per source file; the properties
    follow, first those of the specification's statements, then further
    properties of the handlers, the loop and the codecs.

    Go strings are byte strings: they are modelled by [string] (a list of
    8-bit [ascii]), [len] by [String.length].  Go [int] and [int64] values are
    modelled by [Z]; no arithmetic in the modelled code can overflow. *)

From Stdlib Require Import ZArith String Ascii List Bool Lia Strings.Byte.
From stdpp Require Import base strings gmap list pretty.

Set Warnings "-register-all".

Open Scope string_scope.
Open Scope list_scope.
Open Scope Z_scope.

(* ===================================================================== *)
(** * Byte-string helpers shared by the packages *)
(* ===================================================================== *)

Module bytes.

(** A one-character string holding the double quote (byte 34). *)
Definition dquote : string := String (ascii_of_nat 34) EmptyString.

Definition byte_in (lo hi c : ascii) : bool :=
  (nat_of_ascii lo <=? nat_of_ascii c)%nat && (nat_of_ascii c <=? nat_of_ascii hi)%nat.

(** [forall_bytes p s]: every byte of [s] satisfies [p]. *)
Fixpoint forall_bytes (p : ascii -> bool) (s : string) : bool :=
  match s with
  | EmptyString => true
  | String c rest => p c && forall_bytes p rest
  end.

(** [exists_byte p s]: some byte of [s] satisfies [p]. *)
Fixpoint exists_byte (p : ascii -> bool) (s : string) : bool :=
  match s with
  | EmptyString => false
  | String c rest => p c || exists_byte p rest
  end.

Fixpoint map_bytes (f : ascii -> ascii) (s : string) : string :=
  match s with
  | EmptyString => EmptyString
  | String c rest => String (f c) (map_bytes f rest)
  end.

(** [strings.IndexByte(s, c)], [None] for -1. *)
Fixpoint IndexByte (s : string) (c : ascii) : option nat :=
  match s with
  | EmptyString => None
  | String d rest =>
      if Ascii.eqb d c then Some O
      else match IndexByte rest c with
           | Some i => Some (S i)
           | None => None
           end
  end.

(** The slices [s[:n]] and [s[n:]]. *)
Fixpoint take_bytes (n : nat) (s : string) : string :=
  match n, s with
  | S n', String c rest => String c (take_bytes n' rest)
  | _, _ => EmptyString
  end.

Fixpoint drop_bytes (n : nat) (s : string) : string :=
  match n, s with
  | S n', String _ rest => drop_bytes n' rest
  | _, _ => s
  end.

(** The lower-case form of a byte of the ASCII range: what
    [strings.ToLower] makes of a byte below 128. *)
Definition lower_byte (c : ascii) : ascii :=
  if byte_in "A" "Z" c then ascii_of_nat (nat_of_ascii c + 32) else c.

End bytes.

(* ===================================================================== *)
(** * The Go library under [strings.ToLower] *)
(* ===================================================================== *)

(** ** unicode/utf8 *)

Module utf8.

Definition RuneError : Z := 0xFFFD.
Definition RuneSelf : Z := 0x80.
Definition MaxRune : Z := 0x10FFFF.

Definition surrogateMin : Z := 0xD800.
Definition surrogateMax : Z := 0xDFFF.

Definition tx : Z := 0x80.
Definition t2 : Z := 0xC0.
Definition t3 : Z := 0xE0.
Definition t4 : Z := 0xF0.

Definition maskx : Z := 0x3F.
Definition mask2 : Z := 0x1F.
Definition mask3 : Z := 0x0F.
Definition mask4 : Z := 0x07.

Definition rune1Max : Z := 0x7F.
Definition rune2Max : Z := 0x7FF.
Definition rune3Max : Z := 0xFFFF.

Definition locb : Z := 0x80.
Definition hicb : Z := 0xBF.

(** The value of a byte, and the conversion [byte(x)], which keeps the low
    eight bits. *)
Definition byte_val (c : ascii) : Z := Z.of_N (N_of_ascii c).

Definition to_byte (x : Z) : ascii := ascii_of_N (Z.to_N x).

(** [s[i]] as a number (0 past the end, where the code does not read). *)
Definition at_ (s : string) (i : nat) : Z :=
  match String.get i s with
  | Some c => byte_val c
  | None => 0
  end.

(** What the table [first] says of a leading byte: a rune of its own, an
    invalid byte, or the start of a sequence of [size] bytes whose second
    byte lies in the range [lo..hi]. *)
Inductive lead : Type :=
| as_
| xx
| seq_ (size : nat) (lo hi : Z).

Definition first (b : Z) : lead :=
  if b <? 0x80 then as_
  else if b <? 0xC2 then xx
  else if b <? 0xE0 then seq_ 2 locb hicb
  else if b =? 0xE0 then seq_ 3 0xA0 hicb
  else if b <? 0xED then seq_ 3 locb hicb
  else if b =? 0xED then seq_ 3 locb 0x9F
  else if b <? 0xF0 then seq_ 3 locb hicb
  else if b =? 0xF0 then seq_ 4 0x90 hicb
  else if b <? 0xF4 then seq_ 4 locb hicb
  else if b =? 0xF4 then seq_ 4 locb 0x8F
  else xx.

(** [utf8.DecodeRuneInString]: the first rune of [s] and its width in
    bytes; [(RuneError, 1)] for a byte that starts no valid encoding. *)
Definition DecodeRuneInString (s : string) : Z * nat :=
  match s with
  | EmptyString => (RuneError, 0%nat)
  | String c0 _ =>
      let s0 := byte_val c0 in
      match first s0 with
      | as_ => (s0, 1%nat)
      | xx => (RuneError, 1%nat)
      | seq_ sz lo hi =>
          if (String.length s <? sz)%nat then (RuneError, 1%nat)
          else
            let s1 := at_ s 1 in
            if (s1 <? lo) || (hi <? s1) then (RuneError, 1%nat)
            else if (sz <=? 2)%nat then
              (Z.lor (Z.shiftl (Z.land s0 mask2) 6) (Z.land s1 maskx), 2%nat)
            else
              let s2 := at_ s 2 in
              if (s2 <? locb) || (hicb <? s2) then (RuneError, 1%nat)
              else if (sz <=? 3)%nat then
                (Z.lor (Z.lor (Z.shiftl (Z.land s0 mask3) 12)
                              (Z.shiftl (Z.land s1 maskx) 6))
                       (Z.land s2 maskx), 3%nat)
              else
                let s3 := at_ s 3 in
                if (s3 <? locb) || (hicb <? s3) then (RuneError, 1%nat)
                else
                  (Z.lor (Z.lor (Z.lor (Z.shiftl (Z.land s0 mask4) 18)
                                       (Z.shiftl (Z.land s1 maskx) 12))
                                (Z.shiftl (Z.land s2 maskx) 6))
                         (Z.land s3 maskx), 4%nat)
      end
  end.

(** [utf8.ValidRune]: a Unicode scalar value. *)
Definition ValidRune (r : Z) : bool :=
  ((0 <=? r) && (r <? surrogateMin)) || ((surrogateMax <? r) && (r <=? MaxRune)).

(** The three bytes of a rune between U+0800 and U+FFFF. *)
Definition encode3 (r : Z) : string :=
  String (to_byte (Z.lor t3 (Z.shiftr r 12)))
    (String (to_byte (Z.lor tx (Z.land (Z.shiftr r 6) maskx)))
       (String (to_byte (Z.lor tx (Z.land r maskx))) EmptyString)).

(** [utf8.EncodeRune]: the bytes of [r]; those of [RuneError] for a value
    that is no Unicode scalar (out of range, or a surrogate half). *)
Definition EncodeRune (r : Z) : string :=
  if (0 <=? r) && (r <=? rune1Max) then String (to_byte r) EmptyString
  else if (0 <=? r) && (r <=? rune2Max) then
    String (to_byte (Z.lor t2 (Z.shiftr r 6)))
      (String (to_byte (Z.lor tx (Z.land r maskx))) EmptyString)
  else if (r <? 0) || (MaxRune <? r) || ((surrogateMin <=? r) && (r <=? surrogateMax)) then
    encode3 RuneError
  else if r <=? rune3Max then encode3 r
  else
    String (to_byte (Z.lor t4 (Z.shiftr r 18)))
      (String (to_byte (Z.lor tx (Z.land (Z.shiftr r 12) maskx)))
         (String (to_byte (Z.lor tx (Z.land (Z.shiftr r 6) maskx)))
            (String (to_byte (Z.lor tx (Z.land r maskx))) EmptyString))).

End utf8.

(** ** unicode *)

Module unicode.

Definition MaxASCII : Z := 0x7F.

(** The lower-case column of a [CaseRange]: a difference to add, or the
    mark [UpperLower] of a run in which upper- and lower-case letters
    alternate, starting with an upper-case one. *)
Inductive delta : Type :=
| UpperLower
| Delta (d : Z).

Record CaseRange := { Lo : Z; Hi : Z; Lower : delta }.

Definition D (lo hi d : Z) : CaseRange := {| Lo := lo; Hi := hi; Lower := Delta d |}.
Definition UL (lo hi : Z) : CaseRange := {| Lo := lo; Hi := hi; Lower := UpperLower |}.

(** [unicode.CaseRanges] above the ASCII range, without the ranges whose
    lower-case difference is zero: for a rune of such a range [to] returns
    the rune itself, as for a rune of no range.  The table is that of
    Unicode 14.0; the two mappings that lead into the ASCII range, U+0130 to
    i and U+212A to k, are in every version of it. *)
Definition CaseRanges : list CaseRange :=
  [D 0x00C0 0x00D6 32; D 0x00D8 0x00DE 32; UL 0x0100 0x012F; D 0x0130 0x0130 (-199);
   UL 0x0132 0x0137; UL 0x0139 0x0148; UL 0x014A 0x0177; D 0x0178 0x0178 (-121);
   UL 0x0179 0x017E; D 0x0181 0x0181 210; UL 0x0182 0x0185; D 0x0186 0x0186 206;
   D 0x0187 0x0187 1; D 0x0189 0x018A 205; D 0x018B 0x018B 1; D 0x018E 0x018E 79;
   D 0x018F 0x018F 202; D 0x0190 0x0190 203; D 0x0191 0x0191 1; D 0x0193 0x0193 205;
   D 0x0194 0x0194 207; D 0x0196 0x0196 211; D 0x0197 0x0197 209; D 0x0198 0x0198 1;
   D 0x019C 0x019C 211; D 0x019D 0x019D 213; D 0x019F 0x019F 214; UL 0x01A0 0x01A5;
   D 0x01A6 0x01A6 218; D 0x01A7 0x01A7 1; D 0x01A9 0x01A9 218; D 0x01AC 0x01AC 1;
   D 0x01AE 0x01AE 218; D 0x01AF 0x01AF 1; D 0x01B1 0x01B2 217; UL 0x01B3 0x01B6;
   D 0x01B7 0x01B7 219; D 0x01B8 0x01B8 1; D 0x01BC 0x01BC 1; D 0x01C4 0x01C4 2;
   D 0x01C5 0x01C5 1; D 0x01C7 0x01C7 2; D 0x01C8 0x01C8 1; D 0x01CA 0x01CA 2;
   UL 0x01CB 0x01DC; UL 0x01DE 0x01EF; D 0x01F1 0x01F1 2; UL 0x01F2 0x01F5;
   D 0x01F6 0x01F6 (-97); D 0x01F7 0x01F7 (-56); UL 0x01F8 0x021F;
   D 0x0220 0x0220 (-130); UL 0x0222 0x0233; D 0x023A 0x023A 10795; D 0x023B 0x023B 1;
   D 0x023D 0x023D (-163); D 0x023E 0x023E 10792; D 0x0241 0x0241 1;
   D 0x0243 0x0243 (-195); D 0x0244 0x0244 69; D 0x0245 0x0245 71; UL 0x0246 0x024F;
   UL 0x0370 0x0373; D 0x0376 0x0376 1; D 0x037F 0x037F 116; D 0x0386 0x0386 38;
   D 0x0388 0x038A 37; D 0x038C 0x038C 64; D 0x038E 0x038F 63; D 0x0391 0x03A1 32;
   D 0x03A3 0x03AB 32; D 0x03CF 0x03CF 8; UL 0x03D8 0x03EF; D 0x03F4 0x03F4 (-60);
   D 0x03F7 0x03F7 1; D 0x03F9 0x03F9 (-7); D 0x03FA 0x03FA 1; D 0x03FD 0x03FF (-130);
   D 0x0400 0x040F 80; D 0x0410 0x042F 32; UL 0x0460 0x0481; UL 0x048A 0x04BF;
   D 0x04C0 0x04C0 15; UL 0x04C1 0x04CE; UL 0x04D0 0x052F; D 0x0531 0x0556 48;
   D 0x10A0 0x10C5 7264; D 0x10C7 0x10C7 7264; D 0x10CD 0x10CD 7264;
   D 0x13A0 0x13EF 38864; D 0x13F0 0x13F5 8; D 0x1C90 0x1CBA (-3008);
   D 0x1CBD 0x1CBF (-3008); UL 0x1E00 0x1E95; D 0x1E9E 0x1E9E (-7615);
   UL 0x1EA0 0x1EFF; D 0x1F08 0x1F0F (-8); D 0x1F18 0x1F1D (-8); D 0x1F28 0x1F2F (-8);
   D 0x1F38 0x1F3F (-8); D 0x1F48 0x1F4D (-8); D 0x1F59 0x1F59 (-8);
   D 0x1F5B 0x1F5B (-8); D 0x1F5D 0x1F5D (-8); D 0x1F5F 0x1F5F (-8);
   D 0x1F68 0x1F6F (-8); D 0x1F88 0x1F8F (-8); D 0x1F98 0x1F9F (-8);
   D 0x1FA8 0x1FAF (-8); D 0x1FB8 0x1FB9 (-8); D 0x1FBA 0x1FBB (-74);
   D 0x1FBC 0x1FBC (-9); D 0x1FC8 0x1FCB (-86); D 0x1FCC 0x1FCC (-9);
   D 0x1FD8 0x1FD9 (-8); D 0x1FDA 0x1FDB (-100); D 0x1FE8 0x1FE9 (-8);
   D 0x1FEA 0x1FEB (-112); D 0x1FEC 0x1FEC (-7); D 0x1FF8 0x1FF9 (-128);
   D 0x1FFA 0x1FFB (-126); D 0x1FFC 0x1FFC (-9); D 0x2126 0x2126 (-7517);
   D 0x212A 0x212A (-8383); D 0x212B 0x212B (-8262); D 0x2132 0x2132 28;
   D 0x2160 0x216F 16; D 0x2183 0x2183 1; D 0x24B6 0x24CF 26; D 0x2C00 0x2C2F 48;
   D 0x2C60 0x2C60 1; D 0x2C62 0x2C62 (-10743); D 0x2C63 0x2C63 (-3814);
   D 0x2C64 0x2C64 (-10727); UL 0x2C67 0x2C6C; D 0x2C6D 0x2C6D (-10780);
   D 0x2C6E 0x2C6E (-10749); D 0x2C6F 0x2C6F (-10783); D 0x2C70 0x2C70 (-10782);
   D 0x2C72 0x2C72 1; D 0x2C75 0x2C75 1; D 0x2C7E 0x2C7F (-10815); UL 0x2C80 0x2CE3;
   UL 0x2CEB 0x2CEE; D 0x2CF2 0x2CF2 1; UL 0xA640 0xA66D; UL 0xA680 0xA69B;
   UL 0xA722 0xA72F; UL 0xA732 0xA76F; UL 0xA779 0xA77C; D 0xA77D 0xA77D (-35332);
   UL 0xA77E 0xA787; D 0xA78B 0xA78B 1; D 0xA78D 0xA78D (-42280); UL 0xA790 0xA793;
   UL 0xA796 0xA7A9; D 0xA7AA 0xA7AA (-42308); D 0xA7AB 0xA7AB (-42319);
   D 0xA7AC 0xA7AC (-42315); D 0xA7AD 0xA7AD (-42305); D 0xA7AE 0xA7AE (-42308);
   D 0xA7B0 0xA7B0 (-42258); D 0xA7B1 0xA7B1 (-42282); D 0xA7B2 0xA7B2 (-42261);
   D 0xA7B3 0xA7B3 928; UL 0xA7B4 0xA7C3; D 0xA7C4 0xA7C4 (-48);
   D 0xA7C5 0xA7C5 (-42307); D 0xA7C6 0xA7C6 (-35384); UL 0xA7C7 0xA7CA;
   D 0xA7D0 0xA7D0 1; UL 0xA7D6 0xA7D9; D 0xA7F5 0xA7F5 1; D 0xFF21 0xFF3A 32;
   D 0x10400 0x10427 40; D 0x104B0 0x104D3 40; D 0x10570 0x1057A 39;
   D 0x1057C 0x1058A 39; D 0x1058C 0x10592 39; D 0x10594 0x10595 39;
   D 0x10C80 0x10CB2 64; D 0x118A0 0x118BF 32; D 0x16E40 0x16E5F 32;
   D 0x1E900 0x1E921 34].

(** [to(LowerCase, r, caseRange)].  The ranges of the table are in
    ascending order and do not overlap: going through them in order finds the
    range that the binary search of the code finds. *)
Fixpoint to_lower (r : Z) (caseRange : list CaseRange) : Z :=
  match caseRange with
  | [] => r
  | cr :: rest =>
      if (Lo cr <=? r) && (r <=? Hi cr) then
        match Lower cr with
        | UpperLower => Lo cr + Z.lor (Z.ldiff (r - Lo cr) 1) 1
        | Delta d => r + d
        end
      else to_lower r rest
  end.

(** [unicode.ToLower] *)
Definition ToLower (r : Z) : Z :=
  if r <=? MaxASCII then
    if (0x41 <=? r) && (r <=? 0x5A) then r + (0x61 - 0x41) else r
  else to_lower r CaseRanges.

(** The runes [lo], [lo + 1], ... ([n] of them), and the runes the ranges
    of a table cover. *)
Fixpoint zseq (lo : Z) (n : nat) : list Z :=
  match n with
  | O => []
  | S k => lo :: zseq (lo + 1) k
  end.

Definition points (caseRange : list CaseRange) : list Z :=
  flat_map (fun cr => zseq (Lo cr) (Z.to_nat (Hi cr - Lo cr + 1))) caseRange.

(** What is checked of the lower-case form [l] of a rune above the ASCII
    range: [l] is its own lower-case form, and it lies above the ASCII range
    too unless it is the letter i (of U+0130) or k (of U+212A). *)
Definition lowered (r : Z) : bool :=
  let l := ToLower r in
  (ToLower l =? l) && ((0x80 <=? l) || (l =? 0x69) || (l =? 0x6B)).

End unicode.

(** ** strings *)

Module strings.
Import utf8.

(** The runes [for _, c := range s] goes through: each byte that starts no
    valid encoding counts as one [RuneError]. *)
Fixpoint range_from (skip : nat) (s : string) : list Z :=
  match s with
  | EmptyString => []
  | String _ rest =>
      match skip with
      | S k => range_from k rest
      | O => let '(c, width) := DecodeRuneInString s in
             c :: range_from (width - 1) rest
      end
  end.

Definition range (s : string) : list Z := range_from 0 s.

(** [strings.Map]: the loop
    [for _, c := range s { r := mapping(c); if r >= 0 { b.WriteRune(r) } }];
    a negative result drops the rune. *)
Fixpoint map_runes (mapping : Z -> Z) (runes : list Z) : string :=
  match runes with
  | [] => EmptyString
  | c :: rest =>
      let r := mapping c in
      if 0 <=? r then (EncodeRune r ++ map_runes mapping rest)%string
      else map_runes mapping rest
  end.

Definition Map (mapping : Z -> Z) (s : string) : string := map_runes mapping (range s).

(** [strings.ToLower]: [Map(unicode.ToLower, s)].  (The releases of Go that
    first test whether [s] is all ASCII return the same string.  A byte that
    is not part of valid UTF-8 comes out as U+FFFD; [json.Unmarshal] hands
    the worker valid UTF-8 only.) *)
Definition ToLower (s : string) : string := Map unicode.ToLower s.

End strings.

(* ===================================================================== *)
(** * errors.go *)
(* ===================================================================== *)

Module errors.

(** The package's sentinel errors.  Go compares [error] values by identity:
    each [errors.New] is a distinct value, and every error that is none of
    them (a storage, socket or [fmt.Errorf] error) is [OtherError]. *)
Inductive error : Type :=
| ChannelExistsError
| InvalidChannelError
| InvalidCommandError
| InvalidDataError
| InvalidPrimaryKeyError
| MissingDataError
| NoChannelError
| NoDataToStoreError
| NoRecordWarning
| ServerError
| UnknownCommandError
| TooManyPingsError
| OtherError (msg : string).

(** [err.Error()]. *)
Definition Error (e : error) : string :=
  match e with
  | ChannelExistsError => "Channel Already Exists"
  | InvalidChannelError => "Invalid Channel ID Specified"
  | InvalidCommandError => "Invalid Command"
  | InvalidDataError => "An Invalid value was specified"
  | InvalidPrimaryKeyError => "Invalid Primary Key Value"
  | MissingDataError => "Missing required fields for command"
  | NoChannelError => "No Channel ID Specified"
  | NoDataToStoreError => "No Data to Store"
  | NoRecordWarning => "No record found"
  | ServerError => "An unknown Error occured"
  | UnknownCommandError => "Unknown command"
  | TooManyPingsError => "Client sent too many pings"
  | OtherError msg => msg
  end.

Definition StatusServiceUnavailable : Z := 503.

(** [ErrToStatus(err)]; [None] is the nil error.  The zero values of the
    named results are [200] (assigned first) and the empty message. *)
Definition ErrToStatus (err : option error) : Z * string :=
  match err with
  | None => (200, EmptyString)
  | Some e =>
      match e with
      | ChannelExistsError
      | NoDataToStoreError
      | InvalidChannelError
      | NoRecordWarning => (StatusServiceUnavailable, "Service Unavailable")
      | MissingDataError
      | NoChannelError
      | InvalidCommandError
      | InvalidDataError
      | UnknownCommandError
      | TooManyPingsError => (401, "Invalid Command")
      | _ => (500, "An unexpected error occurred")
      end
  end.

(** The two rows of the status table, as lists of sentinels. *)
Definition unavailable_errors : list error :=
  [ChannelExistsError; NoDataToStoreError; InvalidChannelError; NoRecordWarning].

Definition invalid_command_errors : list error :=
  [MissingDataError; NoChannelError; InvalidCommandError; InvalidDataError;
   UnknownCommandError; TooManyPingsError].

(** ** GetAWSPublicHostname *)

Record URL := { Scheme : string; Host : string; Path : string }.

Record Request := { Method : string; Url : URL }.

(** [u.String()] for a URL with a scheme, a host and a path. *)
Definition URL_String (u : URL) : string :=
  (Scheme u ++ "://" ++ Host u ++ Path u)%string.

(** What [ioutil.ReadAll(resp.Body)] returns. *)
Inductive ReadAll : Type :=
| ReadOk (hostBytes : string)
| ReadFailed (err : error).

Record Response := { StatusCode : Z; Body : ReadAll }.

(** The HTTP client is the environment of [GetAWSPublicHostname]:
    [client.Do(req)] yields a response or a transport error. *)
Definition Client : Type := Request -> Response + error.

Definition aws_request : Request :=
  {| Method := "GET";
     Url := {| Scheme := "http";
               Host := "169.254.169.254";
               Path := "/latest/meta-data/public-hostname" |} |}.

Definition GetAWSPublicHostname (client_Do : Client) : string * option error :=
  match client_Do aws_request with
  | inr err => (EmptyString, Some err)
  | inl resp =>
      if (StatusCode resp <? 200) || (StatusCode resp >=? 300) then
        (EmptyString,
         Some (OtherError ("Bad response from AWS hostname call: "
                           ++ pretty (StatusCode resp))%string))
      else
        match Body resp with
        | ReadFailed err => (EmptyString, Some err)
        | ReadOk hostBytes => (hostBytes, None)
        end
  end.

(** A status in the 2xx range. *)
Definition is_2xx (status : Z) : Prop := 200 <= status < 300.

End errors.

(* ===================================================================== *)
(** * no_store.go *)
(* ===================================================================== *)

Module NoStore.
Import bytes.

(** [strings.SplitN(s, sep, n)] for a one-byte separator and [n >= 0]:
    at most [n] pieces, the last one holding the unsplit rest. *)
Fixpoint SplitN (s : string) (sep : ascii) (n : nat) : list string :=
  match n with
  | O => []
  | S O => [s]
  | S n' =>
      match IndexByte s sep with
      | None => [s]
      | Some m => take_bytes m s :: SplitN (drop_bytes (S m) s) sep n'
      end
  end.

Definition KeyToIDs (key : string) : string * string * bool :=
  let items := SplitN key "." 2 in
  match items with
  | suaid :: schid :: _ => (suaid, schid, true)
  | _ => (EmptyString, EmptyString, false)
  end.

(** [fmt.Sprintf("%s.%s", suaid, schid)] is the concatenation around a dot. *)
Definition IDsToKey (suaid schid : string) : string * bool :=
  if (String.length suaid =? 0)%nat || (String.length schid =? 0)%nat then
    (EmptyString, false)
  else ((suaid ++ "." ++ schid)%string, true).

(** [NoStore.Exists]: the no-op backend knows no UAID. *)
Definition Exists (_ : string) : bool := false.

End NoStore.

(* ===================================================================== *)
(** * The id package *)
(* ===================================================================== *)

Module id.
Import bytes.

Definition is_hex (c : ascii) : bool :=
  byte_in "0" "9" c || byte_in "a" "f" c || byte_in "A" "F" c.

Definition is_hyphen (c : ascii) : bool := Ascii.eqb c "-".

(** The offsets of the hyphens in the 8-4-4-4-12 form. *)
Definition hyphen_position (i : nat) : bool :=
  (i =? 8)%nat || (i =? 13)%nat || (i =? 18)%nat || (i =? 23)%nat.

Fixpoint hyphenated_from (i : nat) (s : string) : bool :=
  match s with
  | EmptyString => true
  | String c rest =>
      (if hyphen_position i then is_hyphen c else is_hex c)
      && hyphenated_from (S i) rest
  end.

(** Modelled from the spec: the implementation of the id package (its
    [Valid], [Generate] and [Decode]) is not among the sources, only its
    test file is.  [Valid(s)] accepts the 32 hexadecimal characters and the
    hyphenated 8-4-4-4-12 form of 36 characters, and nothing else. *)
Definition Valid (s : string) : bool :=
  match String.length s with
  | 32%nat => forall_bytes is_hex s
  | 36%nat => hyphenated_from 0 s
  | _ => false
  end.

Definition hex_digit (n : N) : ascii :=
  match String.get (N.to_nat n) "0123456789abcdef" with
  | Some c => c
  | None => "0"%char
  end.

(** [hex.EncodeToString]: two lower-case digits per byte, high nibble first. *)
Fixpoint Encode (src : list byte) : string :=
  match src with
  | [] => EmptyString
  | b :: rest =>
      String (hex_digit (N.div (Byte.to_N b) 16))
        (String (hex_digit (N.modulo (Byte.to_N b) 16)) (Encode rest))
  end.

(** Modelled from the spec: [Generate()] returns 32 lower-case hexadecimal
    characters, the encoding of 16 bytes read from the random source.
    [entropy] is what the source delivered; a short read is the error
    result ([None]). *)
Definition Generate (entropy : list byte) : option string :=
  if (List.length entropy =? 16)%nat then Some (Encode entropy) else None.

(** The words of the specification: [n] hexadecimal characters, and the
    two accepted shapes. *)
Definition hex_string (n : nat) (s : string) : Prop :=
  String.length s = n /\ forall_bytes is_hex s = true.

Definition plain_form (s : string) : Prop := hex_string 32 s.

Definition hyphenated_form (s : string) : Prop :=
  exists a b c d e : string,
    s = (a ++ "-" ++ b ++ "-" ++ c ++ "-" ++ d ++ "-" ++ e)%string
    /\ hex_string 8 a /\ hex_string 4 b /\ hex_string 4 c
    /\ hex_string 4 d /\ hex_string 12 e.

(** The fixtures of the package's test file. *)
Definition encodedId : string := "e281b9498a924443b0c85465ba439a76".
Definition hyphenatedId : string := "e281b949-8a92-4443-b0c8-5465ba439a76".
Definition decodedId : list byte :=
  [xe2; x81; xb9; x49; x8a; x92; x44; x43; xb0; xc8; x54; x65; xba; x43; x9a; x76].
Definition encodedShortId : string := "e281b949".
Definition encodedLongId : string := "e281b9498a924443b0c85465ba439a7601".

Definition validTests : list (string * bool) :=
  [ (encodedId, true);
    (hyphenatedId, true);
    (encodedShortId, false);
    (encodedLongId, false);
    ("--e281b9498a924443b0c85465ba439a76--", false);
    ("e281b9498a92-4443-b0c85465ba439a76", false) ].

End id.

(* ===================================================================== *)
(** * worker.go *)
(* ===================================================================== *)

Module simplepush.
Import bytes strings errors.

(** ** Dynamic values

    [interface{}] values as the worker meets them: what [json.Unmarshal]
    puts in a map (nil, bool, float64, string, []interface{}, nested maps)
    and what the server code itself stores (ints, the pending-update slice
    [[]map[string]interface{}], a reference to the worker). *)
Inductive JsVal : Type :=
| JNil
| JBool (b : bool)
| JFloat64 (n : Z)
| JInt (n : Z)
| JString (s : string)
| JArray (l : list JsVal)
| JObject (m : gmap string JsVal)
| JMaps (l : list (option (gmap string JsVal)))
| JWorkerRef.

(** [type JsMap map[string]interface{}] *)
Abbreviation JsMap := (gmap string JsVal).

(** [m[k]]: the nil interface when the key is absent. *)
Definition index (m : JsMap) (k : string) : JsVal :=
  match m !! k with
  | Some v => v
  | None => JNil
  end.

Definition is_nil (v : JsVal) : bool :=
  match v with JNil => true | _ => false end.

(** [v == s] for an interface value and a string constant. *)
Definition is_string (v : JsVal) (s : string) : bool :=
  match v with JString t => String.eqb t s | _ => false end.

(** ** Constants *)

Definition INACTIVE : Z := 0.
Definition ACTIVE : Z := 1.

Definition UAID_MAX_LEN : nat := 100.
Definition CHID_MAX_LEN : nat := 100.
Definition CHID_DEFAULT_MAX_NUM : Z := 200.

(** ** The character filter [[^a-fA-F0-9\-]] *)

Definition filter_class (c : ascii) : bool :=
  byte_in "a" "f" c || byte_in "A" "F" c || byte_in "0" "9" c || Ascii.eqb c "-".

(** [workerFilter.Find(b)]: the leftmost match, a single character outside
    the class, or [None] for the nil slice.  (Of a character of several
    bytes the first byte stands for the match: the code only compares the
    result with nil.) *)
Fixpoint workerFilter_Find (b : string) : option string :=
  match b with
  | EmptyString => None
  | String c rest =>
      if filter_class c then workerFilter_Find rest
      else Some (String c EmptyString)
  end.

(** [b != nil] for the slice [Find] returns. *)
Definition not_nil (b : option string) : bool :=
  match b with Some _ => true | None => false end.

(** ** Time *)

(** [time.Time] and [time.Duration] in nanoseconds; [t.Sub(u)] is the
    difference (the saturation at the ends of the [Duration] range is out of
    reach for wall-clock instants). *)
Definition Time_Sub (t u : Z) : Z := t - u.

Definition Second : Z := 1000000000.

(** [int(d.Seconds())]: the conversion to [int] truncates toward zero. *)
Definition Seconds_int (d : Z) : Z := Z.quot d Second.

(** ** Records *)

(** The fields of [Application] the worker reads. *)
Record Application := {
  clientMinPing : Z;
  clientHelloTimeout : Z;
  pushLongPongs : bool;
  storage_maxChannels : Z
}.

Record Worker := {
  app : Application;
  state : Z;
  stopped : bool;
  maxChannels : Z;
  lastPing : Z;
  pingInt : Z;
  helloTimeout : Z
}.

Record PushCommand := {
  Command : Z;
  Arguments : JsMap
}.

(** Everything the worker does to the world outside its own fields, in the
    order it happens: frames written to the socket, calls that change the
    storage, the server or the metrics, the draw of a new UAID. *)
Inductive Effect : Type :=
| JSON_Send (v : JsMap)
| Message_Send (text : string)
| Socket_Write (msg : string)
| Socket_Close
| Storage_PurgeUAID (uaid : string)
| Storage_Ack (uaid : string) (data : JsMap)
| Storage_RegisterAppID (uaid appid : string) (version : Z)
| Storage_DeleteAppID (uaid appid : string) (clearOnly : bool)
| Storage_GetUpdates (uaid : string) (lastAccessed : Z)
| Server_HandleCommand (cmd : PushCommand)
| GenUUID4_call
| metrics_Increment (name : string)
| metrics_Timer (name : string).

(** [PushWS]: the socket and the storage handle are seen through their
    effects; [Uaid] is the field the handlers read and write. *)
Record PushWS := {
  Uaid : string;
  Born : Z
}.

(** The three objects a handler holds by reference ([self], [sock] and the
    frame's map [buffer]) and the trace of effects so far, latest last. *)
Record State := {
  self : Worker;
  sock : PushWS;
  buffer : JsMap;
  trace : list Effect
}.

(** What the rest of the process answers during one handler call.  The
    command codes [HELLO] and [REGIS] are constants declared in another file
    of the package. *)
Record Env := {
  HELLO : Z;
  REGIS : Z;
  time_Now : Z;
  ClientExists : string -> bool;
  IsKnownUaid : string -> bool;
  GenUUID4 : string;
  HandleCommand : PushCommand -> Z * JsMap;
  Socket_Write_result : string -> option error;
  Ack_result : string -> JsMap -> option error;
  RegisterAppID_result : string -> string -> Z -> option error;
  DeleteAppID_result : string -> string -> bool -> option error;
  GetUpdates_result : string -> Z -> option JsMap * option error
}.

(** ** Control flow: state, early return, panic *)

Inductive Flow (A : Type) : Type :=
| Next (a : A)
| Return (err : option error)
| Panic.
Arguments Next {A} a.
Arguments Return {A} err.
Arguments Panic {A}.

Definition M (A : Type) : Type := State -> Flow A * State.

Definition ret {A} (a : A) : M A := fun st => (Next a, st).

Definition bind {A B} (c : M A) (k : A -> M B) : M B :=
  fun st =>
    match c st with
    | (Next a, st') => k a st'
    | (Return e, st') => (Return e, st')
    | (Panic, st') => (Panic, st')
    end.

Notation "x <- c1 ;; c2" := (bind c1 (fun x => c2))
  (at level 100, c1 at next level, right associativity).
Notation "c1 ;; c2" := (bind c1 (fun _ => c2))
  (at level 100, right associativity).

(** [return err] in the middle of a function body. *)
Definition return_ {A} (err : option error) : M A := fun st => (Return err, st).

Definition panic {A} : M A := fun st => (Panic, st).

(** [if c { return err }] *)
Definition return_if (c : bool) (err : option error) : M unit :=
  if c then return_ err else ret tt.

Definition when (c : bool) (body : M unit) : M unit :=
  if c then body else ret tt.

(** A function call: the callee's [return] ends the callee only. *)
Definition call (body : M (option error)) : M (option error) :=
  fun st =>
    match body st with
    | (Return e, st') => (Next e, st')
    | r => r
    end.

(** [defer func() { if r := recover(); r != nil { ...; err = InvalidDataError } }()] *)
Definition recover (body : M (option error)) : M (option error) :=
  fun st =>
    match body st with
    | (Next e, st') => (Next e, st')
    | (Return e, st') => (Next e, st')
    | (Panic, st') => (Next (Some InvalidDataError), st')
    end.

(** [defer f()]: [f] runs when the body is left, by return or by panic. *)
Definition defer {A} (f : State -> State) (body : M A) : M A :=
  fun st => let '(r, st') := body st in (r, f st').

Definition get_Uaid : M string := fun st => (Next (Uaid (sock st)), st).

Definition set_Uaid (u : string) : M unit :=
  fun st =>
    (Next tt, {| self := self st;
                 sock := {| Uaid := u; Born := Born (sock st) |};
                 buffer := buffer st;
                 trace := trace st |}).

Definition get_self : M Worker := fun st => (Next (self st), st).

Definition set_self (w : Worker) : M unit :=
  fun st =>
    (Next tt, {| self := w; sock := sock st; buffer := buffer st; trace := trace st |}).

Definition with_stopped (b : bool) (w : Worker) : Worker :=
  {| app := app w; state := state w; stopped := b; maxChannels := maxChannels w;
     lastPing := lastPing w; pingInt := pingInt w; helloTimeout := helloTimeout w |}.

Definition with_state (s : Z) (w : Worker) : Worker :=
  {| app := app w; state := s; stopped := stopped w; maxChannels := maxChannels w;
     lastPing := lastPing w; pingInt := pingInt w; helloTimeout := helloTimeout w |}.

Definition set_stopped (b : bool) : M unit :=
  w <- get_self ;; set_self (with_stopped b w).

Definition set_state (s : Z) : M unit :=
  w <- get_self ;; set_self (with_state s w).

Definition get_buffer : M JsMap := fun st => (Next (buffer st), st).

Definition set_buffer (m : JsMap) : M unit :=
  fun st =>
    (Next tt, {| self := self st; sock := sock st; buffer := m; trace := trace st |}).

Definition record (e : Effect) (st : State) : State :=
  {| self := self st; sock := sock st; buffer := buffer st;
     trace := trace st ++ [e] |}.

Definition emit (e : Effect) : M unit := fun st => (Next tt, record e st).

(** Type assertions: [v.(string)], [v.([]interface{})],
    [v.([]map[string]interface{})], [v.(int64)], [v.(JsMap)]. *)
Definition as_string (v : JsVal) : M string :=
  match v with JString s => ret s | _ => panic end.

Definition as_array (v : JsVal) : M (list JsVal) :=
  match v with JArray l => ret l | _ => panic end.

Definition as_maps (v : JsVal) : M (list (option JsMap)) :=
  match v with JMaps l => ret l | _ => panic end.

Definition as_int (v : JsVal) : M Z :=
  match v with JInt n => ret n | _ => panic end.

Fixpoint for_each {A} (l : list A) (body : A -> M unit) : M unit :=
  match l with
  | [] => ret tt
  | x :: rest => body x ;; for_each rest body
  end.

(** ** NewWorker *)

Definition NewWorker (a : Application) (now : Z) : Worker :=
  {| app := a;
     state := INACTIVE;
     stopped := false;
     lastPing := now;
     pingInt := Seconds_int (clientMinPing a);
     maxChannels := storage_maxChannels a;
     helloTimeout := clientHelloTimeout a |}.

(** ** handleError

    [message["status"], message["error"] = ErrToStatus(err)], then the map is
    sent.  The map is the caller's: the updated map is the result. *)
Definition handleError (message : JsMap) (err : error) : M JsMap :=
  let '(status, text) := ErrToStatus (Some err) in
  let message' := <["error" := JString text]> (<["status" := JInt status]> message) in
  emit (JSON_Send message') ;;
  ret message'.

(** ** Flush *)

Definition notification : string := "notification".

Definition crafted_update (channel : string) (version : Z) : JsMap :=
  {[ "updates" :=
       JMaps [Some (<["version" := JInt version]>
                      (<["channelID" := JString channel]> ∅))] ]}.

(** The body of the loop over the pending updates: a nil map is skipped;
    for an update pushed by the server ([channel] is set) the version is
    read as an [int64] and the metric [updates.sent] is counted. *)
Definition count_sent (channel : string) (update : option JsMap) : M unit :=
  match update with
  | None => ret tt
  | Some update =>
      if negb (String.eqb channel EmptyString) then
        _ <- as_int (index update "version") ;;
        emit (metrics_Increment "updates.sent")
      else ret tt
  end.

Definition Flush (env : Env) (lastAccessed : Z) (channel : string) (version : Z)
  : M (option error) :=
  call (defer (record (metrics_Timer "client.flush")) (
    uaid <- get_Uaid ;;
    if String.eqb uaid EmptyString then
      set_stopped true ;;
      ret None
    else
      updates <-
        (if String.eqb channel EmptyString then
           emit (Storage_GetUpdates uaid lastAccessed) ;;
           match GetUpdates_result env uaid lastAccessed with
           | (_, Some err) =>
               _ <- handleError {[ "messageType" := JString notification ]} err ;;
               return_ (Some err)
           | (updates, None) => ret updates
           end
         else ret (Some (crafted_update channel version))) ;;
      match updates with
      | None => ret None
      | Some updates =>
          items <- as_maps (index updates "updates") ;;
          for_each items (count_sent channel) ;;
          emit (JSON_Send (<["messageType" := JString notification]> updates)) ;;
          ret None
      end)).

(** ** Hello *)

Definition quoted (s : string) : string := (dquote ++ s ++ dquote)%string.

(** The reply frame of [Hello], as the bytes handed to [Socket.Write]. *)
Definition hello_reply (messageType : string) (status : Z) (uaid : string) : string :=
  ("{" ++ quoted "messageType" ++ ":" ++ quoted messageType
   ++ "," ++ quoted "status" ++ ":" ++ pretty status
   ++ "," ++ quoted "uaid" ++ ":" ++ quoted uaid ++ "}")%string.

(** [if _, ok := data["uaid"]; !ok { data["uaid"] = "" }] *)
Definition default_uaid (data : JsMap) : JsMap :=
  match data !! "uaid" with
  | None => <["uaid" := JString EmptyString]> data
  | Some _ => data
  end.

(** The block [if len(sock.Uaid) == 0 { ... }]: the suggested UAID is
    stored, checked for length, and the reasons for a reset are collected.
    Its value is [forceReset]. *)
Definition adopt_uaid (env : Env) (data : JsMap) (suggestedUAID : string) : M bool :=
  set_Uaid suggestedUAID ;;
  return_if (UAID_MAX_LEN <? String.length suggestedUAID)%nat
            (Some InvalidDataError) ;;
  let forceReset := (String.length suggestedUAID =? 0)%nat in
  let forceReset :=
    if ClientExists env suggestedUAID then true else forceReset in
  channelIDs <- as_array (index data "channelIDs") ;;
  w <- get_self ;;
  let num := Z.of_nat (List.length channelIDs) in
  if 0 <? num then
    let forceReset := if maxChannels w <? num then true else forceReset in
    let forceReset :=
      if negb (IsKnownUaid env suggestedUAID) then true else forceReset in
    ret forceReset
  else ret forceReset.

(** The block [if forceReset { ... }]. *)
Definition reset_uaid (env : Env) : M unit :=
  uaid <- get_Uaid ;;
  when (0 <? String.length uaid)%nat (emit (Storage_PurgeUAID uaid)) ;;
  emit GenUUID4_call ;;
  set_Uaid (GenUUID4 env).

Definition hello_command (env : Env) (data : JsMap) (uaid : string) : PushCommand :=
  {| Command := HELLO env;
     Arguments := <["worker" := JWorkerRef]>
                    (<["uaid" := JString uaid]>
                       (<["chids" := index data "channelIDs"]>
                          (<["connect" := index data "connect"]> ∅))) |}.

(** The rest of [Hello]: the server is told, the reply is written, the
    session becomes ACTIVE and the backlog is flushed. *)
Definition greet (env : Env) (data : JsMap) : M (option error) :=
  uaid <- get_Uaid ;;
  let cmd := hello_command env data uaid in
  emit (Server_HandleCommand cmd) ;;
  let '(raw_result, args) := HandleCommand env cmd in
  messageType <- as_string (index data "messageType") ;;
  let msg := hello_reply messageType raw_result uaid in
  emit (Socket_Write msg) ;;
  let err := Socket_Write_result env msg in
  emit (metrics_Increment "updates.client.hello") ;;
  set_state ACTIVE ;;
  match err with
  | None => Flush env 0 EmptyString 0
  | Some e => ret (Some e)
  end.

Definition Hello (env : Env) : M (option error) :=
  recover (
    data <- get_buffer ;;
    let data := default_uaid data in
    set_buffer data ;;
    suggestedUAID <- as_string (index data "uaid") ;;
    return_if (is_nil (index data "channelIDs")) (Some MissingDataError) ;;
    sockUaid <- get_Uaid ;;
    return_if ((0 <? String.length sockUaid)%nat
               && (0 <? String.length suggestedUAID)%nat
               && negb (String.eqb sockUaid suggestedUAID))
              (Some InvalidChannelError) ;;
    return_if (not_nil (workerFilter_Find (ToLower suggestedUAID)))
              (Some InvalidChannelError) ;;
    forceReset <-
      (if (String.length sockUaid =? 0)%nat then adopt_uaid env data suggestedUAID
       else ret false) ;;
    when forceReset (reset_uaid env) ;;
    greet env data).

(** ** Ack *)

Definition Ack (env : Env) : M (option error) :=
  recover (
    uaid <- get_Uaid ;;
    return_if (String.eqb uaid EmptyString) (Some InvalidCommandError) ;;
    data <- get_buffer ;;
    return_if (is_nil (index data "updates")) (Some MissingDataError) ;;
    emit (Storage_Ack uaid data) ;;
    match Ack_result env uaid data with
    | None => Flush env 0 EmptyString 0
    | Some err =>
        emit (metrics_Increment "updates.client.ack") ;;
        ret (Some err)
    end).

(** ** Register *)

Definition Register (env : Env) : M (option error) :=
  recover (
    uaid <- get_Uaid ;;
    return_if (String.eqb uaid EmptyString) (Some InvalidCommandError) ;;
    data <- get_buffer ;;
    return_if (is_nil (index data "channelID")) (Some InvalidDataError) ;;
    appid <- as_string (index data "channelID") ;;
    return_if (CHID_MAX_LEN <? String.length appid)%nat (Some InvalidDataError) ;;
    return_if (not_nil (workerFilter_Find (ToLower appid)))
              (Some InvalidDataError) ;;
    emit (Storage_RegisterAppID uaid appid 0) ;;
    match RegisterAppID_result env uaid appid 0 with
    | Some err => ret (Some err)
    | None =>
        let cmd := {| Command := REGIS env; Arguments := data |} in
        emit (Server_HandleCommand cmd) ;;
        let '(raw_result, args) := HandleCommand env cmd in
        endpoint <- as_string (index args "push.endpoint") ;;
        let reply : JsMap :=
          <["messageType" := index data "messageType"]>
            (<["uaid" := JString uaid]>
               (<["status" := JInt 200]>
                  (<["channelID" := index data "channelID"]>
                     (<["pushEndpoint" := JString endpoint]> ∅)))) in
        emit (JSON_Send reply) ;;
        emit (metrics_Increment "updates.client.register") ;;
        ret None
    end).

(** ** Unregister *)

Definition unregister_reply (data : JsMap) (appid : string) : JsMap :=
  <["messageType" := index data "messageType"]>
    (<["status" := JInt 200]>
       (<["channelID" := JString appid]> ∅)).

Definition Unregister (env : Env) : M (option error) :=
  recover (
    uaid <- get_Uaid ;;
    return_if (String.eqb uaid EmptyString) (Some InvalidCommandError) ;;
    data <- get_buffer ;;
    return_if (is_nil (index data "channelID")) (Some MissingDataError) ;;
    appid <- as_string (index data "channelID") ;;
    emit (Storage_DeleteAppID uaid appid false) ;;
    let _ := DeleteAppID_result env uaid appid false in
    emit (JSON_Send (unregister_reply data appid)) ;;
    emit (metrics_Increment "updates.client.unregister") ;;
    ret None).

(** ** Ping *)

Definition long_pong (data : JsMap) : JsMap :=
  <["messageType" := index data "messageType"]> (<["status" := JInt 200]> ∅).

Definition Ping (env : Env) : M (option error) :=
  call (
    w <- get_self ;;
    if (0 <? pingInt w)
       && (Seconds_int (Time_Sub (lastPing w) (time_Now env)) <? pingInt w) then
      set_stopped true ;;
      emit (metrics_Increment "updates.client.too_many_pings") ;;
      return_ (Some TooManyPingsError)
    else
      data <- get_buffer ;;
      (if pushLongPongs (app w) then emit (JSON_Send (long_pong data))
       else emit (Message_Send "{}")) ;;
      emit (metrics_Increment "updates.client.ping") ;;
      ret None).

(** ** Purge *)

Definition Purge (env : Env) : M (option error) :=
  call (
    emit (JSON_Send ∅) ;;
    ret None).

(** ** The read loop *)

(** What [websocket.Message.Receive] hands to one pass of the loop: an
    error, or the raw bytes together with what [json.Unmarshal] makes of
    them: [ReceiveRaw raw parsed] when it fills the map ([parsed] is [None]
    when it returns an error), [ReceiveNull raw] when the text is the JSON
    value null, for which it sets the map to nil and returns no error. *)
Inductive Received : Type :=
| ReceiveError (err : error)
| ReceiveRaw (raw : string) (parsed : option JsMap)
| ReceiveNull (raw : string).

Definition ping_frame : JsMap := {[ "messageType" := JString "ping" ]}.

(** The [switch strings.ToLower(messageType)] of the loop. *)
Definition dispatch (env : Env) (messageType : string) : M (option error) :=
  if String.eqb messageType "hello" then Hello env
  else if String.eqb messageType "ack" then Ack env
  else if String.eqb messageType "register" then Register env
  else if String.eqb messageType "unregister" then Unregister env
  else if String.eqb messageType "ping" then Ping env
  else if String.eqb messageType "purge" then Purge env
  else ret (Some UnknownCommandError).

(** The tail of a pass: [if err != nil { handleError; stopped = true }]. *)
Definition after_command (err : option error) : M unit :=
  match err with
  | None => ret tt
  | Some e =>
      message <- get_buffer ;;
      message' <- handleError message e ;;
      set_buffer message' ;;
      set_stopped true
  end.

(** A pass from [if buffer["messageType"] == "ping"] on, [frame] being the
    map the first half of the pass has put into [buffer]. *)
Definition sniffer_frame (env : Env) (frame : JsMap) : M unit :=
  set_buffer frame ;;
  if is_string (index frame "messageType") "ping" then
    err <- Ping env ;;
    after_command err
  else
    match frame !! "messageType" with
    | None =>
        _ <- handleError ∅ UnknownCommandError ;;
        set_stopped true
    | Some mt =>
        let messageType :=
          match mt with JString s => s | _ => EmptyString end in
        set_buffer (<["messageType" := JString (ToLower messageType)]> frame) ;;
        err <- dispatch env (ToLower messageType) ;;
        after_command err
    end.

(** One pass of the loop of [sniffer], from the result of [Receive] on.
    For the nil map that the text null leaves in [buffer], [len(buffer)] is
    0 and the assignment [buffer["messageType"] = "ping"] panics. *)
Definition sniffer_pass (env : Env) (r : Received) : M unit :=
  set_buffer ∅ ;;
  match r with
  | ReceiveError _ => set_stopped true
  | ReceiveRaw raw parsed =>
      if (String.length raw <=? 0)%nat then ret tt
      else
        let decoded : option JsMap :=
          if String.eqb raw "{}" then Some ping_frame
          else match parsed with
               | None => None
               | Some m => if (size m =? 0)%nat then Some ping_frame else Some m
               end in
        match decoded with
        | None => set_stopped true
        | Some frame => sniffer_frame env frame
        end
  | ReceiveNull raw =>
      if (String.length raw <=? 0)%nat then ret tt
      else if String.eqb raw "{}" then sniffer_frame env ping_frame
      else panic
  end.

Definition is_close (e : Effect) : bool :=
  match e with Socket_Close => true | _ => false end.

Definition socket_closed (st : State) : bool := existsb is_close (trace st).

(** The frames written to the client, oldest first. *)
Definition is_frame (e : Effect) : bool :=
  match e with
  | JSON_Send _ | Message_Send _ | Socket_Write _ => true
  | _ => false
  end.

Definition frames_sent (st : State) : list Effect := List.filter is_frame (trace st).

(** ** Run *)

(** The function handed to [time.AfterFunc(self.helloTimeout, ...)]. *)
Definition helloTimeoutFunc (st : State) : State :=
  if String.eqb (Uaid (sock st)) EmptyString then record Socket_Close st else st.

(** What happens to a connection, in order: a result of [Receive] with the
    answers of the environment during its pass, or the firing of the hello
    timer (taken between two passes). *)
Inductive Event : Type :=
| Receive (env : Env) (r : Received)
| HelloTimeout.

Definition closed_error : error := OtherError "use of closed network connection".

(** The loop of [sniffer]: it ends when [stopped] is seen at the top of a
    pass, or by a panic that no handler recovered; a receive on a closed
    socket fails.  When the events run out the loop is left waiting. *)
Fixpoint sniffer (events : list Event) : M bool :=
  fun st =>
    if stopped (self st) then (Next true, st)
    else
      match events with
      | [] => (Next false, st)
      | HelloTimeout :: rest => sniffer rest (helloTimeoutFunc st)
      | Receive env r :: rest =>
          let r' := if socket_closed st then ReceiveError closed_error else r in
          match sniffer_pass env r' st with
          | (Next _, st') => sniffer rest st'
          | (Return e, st') => (Return e, st')
          | (Panic, st') => (Panic, st')
          end
      end.

(** [Run]: the loop, then [sock.Socket.Close()]; when the loop panics the
    deferred function recovers and closes the socket instead.  A connection
    still waiting for input is left as it is. *)
Definition Run (events : list Event) (st : State) : State :=
  match sniffer events st with
  | (Next false, st') => st'
  | (_, st') => record Socket_Close st'
  end.

(** ** The words of the specification about the reset

    The four reasons for a forced reset, as the specification lists them:
    the suggested UAID is empty; a live session owns it; the frame names
    more channels than [maxChannels]; the storage does not know the UAID
    while the frame names channels. *)
Definition reset_needed (env : Env) (w : Worker) (suggestedUAID : string)
    (channelIDs : list JsVal) : bool :=
  (String.length suggestedUAID =? 0)%nat
  || ClientExists env suggestedUAID
  || (maxChannels w <? Z.of_nat (List.length channelIDs))
  || (negb (IsKnownUaid env suggestedUAID) && (0 <? List.length channelIDs)%nat).

(** What a reset does before the reply: the purge of the old UAID, when
    there is one, then the draw of a new one. *)
Definition reset_effects (old : string) : list Effect :=
  (if (0 <? String.length old)%nat then [Storage_PurgeUAID old] else [])
  ++ [GenUUID4_call].

(** The effects [Flush] can have. *)
Definition is_flush_effect (e : Effect) : bool :=
  match e with
  | JSON_Send _ | Storage_GetUpdates _ _ | metrics_Timer _ | metrics_Increment _ => true
  | _ => false
  end.

(** The session after [sock.Uaid = u]. *)
Definition adopt (u : string) (st : State) : State :=
  {| self := self st;
     sock := {| Uaid := u; Born := Born (sock st) |};
     buffer := buffer st;
     trace := trace st |}.

Definition with_buffer (m : JsMap) (st : State) : State :=
  {| self := self st; sock := sock st; buffer := m; trace := trace st |}.

(** The session after the block [if forceReset { ... }]. *)
Definition reset (env : Env) (st : State) : State :=
  {| self := self st;
     sock := {| Uaid := GenUUID4 env; Born := Born (sock st) |};
     buffer := buffer st;
     trace := trace st ++ reset_effects (Uaid (sock st)) |}.

(** The session after [Hello] has told the server and written its reply. *)
Definition greeted (env : Env) (data : JsMap) (messageType : string) (st : State) : State :=
  let uaid := Uaid (sock st) in
  let cmd := hello_command env data uaid in
  {| self := with_state ACTIVE (self st);
     sock := sock st;
     buffer := buffer st;
     trace := trace st ++
       [Server_HandleCommand cmd;
        Socket_Write (hello_reply messageType (fst (HandleCommand env cmd)) uaid);
        metrics_Increment "updates.client.hello"] |}.

(** The session after a refused ping. *)
Definition refused_ping (st : State) : State :=
  {| self := with_stopped true (self st);
     sock := sock st;
     buffer := buffer st;
     trace := trace st ++ [metrics_Increment "updates.client.too_many_pings"] |}.

(** The session after an unregister of [appid] was answered. *)
Definition unregistered (appid : string) (st : State) : State :=
  {| self := self st;
     sock := sock st;
     buffer := buffer st;
     trace := trace st ++
       [Storage_DeleteAppID (Uaid (sock st)) appid false;
        JSON_Send (unregister_reply (buffer st) appid);
        metrics_Increment "updates.client.unregister"] |}.

(** [appends P st st']: from [st] to [st'] the socket record is untouched
    and the trace only grew, by effects that satisfy [P]. *)
Definition appends (P : Effect -> bool) (st st' : State) : Prop :=
  sock st' = sock st
  /\ exists more, trace st' = trace st ++ more /\ Forall (fun e => P e = true) more.

Definition keeps {A} (P : Effect -> bool) (c : M A) : Prop :=
  forall st, appends P st (snd (c st)).

(** [preserves R c]: every run of [c] takes a state to an [R]-related one,
    however the run ends. *)
Definition preserves {A} (R : State -> State -> Prop) (c : M A) : Prop :=
  forall st, R st (snd (c st)).

(** The socket record and the protocol state are left as they were. *)
Definition steady (st st' : State) : Prop :=
  sock st' = sock st /\ state (self st') = state (self st).

(** A running session is INACTIVE without a UAID or ACTIVE with one. *)
Definition session_inv (st : State) : Prop :=
  stopped (self st) = false ->
  (state (self st) = INACTIVE /\ Uaid (sock st) = EmptyString)
  \/ (state (self st) = ACTIVE /\ Uaid (sock st) <> EmptyString).

(** [loud c]: when [c] leaves its function early, it is with an error. *)
Definition loud {A} (c : M A) : Prop := forall st st', c st <> (Return None, st').

(** A channelID that [Register] lets through: a string of at most 100
    bytes, hexadecimal digits and hyphens only. *)
Definition acceptable_channelID (v : JsVal) : bool :=
  match v with
  | JString appid =>
      (String.length appid <=? CHID_MAX_LEN)%nat && forall_bytes filter_class appid
  | _ => false
  end.

(** The reply of [Register]. *)
Definition register_reply (data : JsMap) (uaid endpoint : string) : JsMap :=
  <["messageType" := index data "messageType"]>
    (<["uaid" := JString uaid]>
       (<["status" := JInt 200]>
          (<["channelID" := index data "channelID"]>
             (<["pushEndpoint" := JString endpoint]> ∅)))).

(** [st] with the effects [es] appended to its trace. *)
Definition after (es : list Effect) (st : State) : State :=
  {| self := self st; sock := sock st; buffer := buffer st; trace := trace st ++ es |}.

(** [st] with [stopped] set. *)
Definition halted (st : State) : State :=
  {| self := with_stopped true (self st); sock := sock st; buffer := buffer st;
     trace := trace st |}.

(** The error frame [handleError] sends for [message] and [err]. *)
Definition error_frame (message : JsMap) (err : error) : JsMap :=
  <["error" := JString (snd (ErrToStatus (Some err)))]>
    (<["status" := JInt (fst (ErrToStatus (Some err)))]> message).

(** The reply of [Ping]. *)
Definition pong (st : State) : Effect :=
  if pushLongPongs (app (self st)) then JSON_Send (long_pong (buffer st))
  else Message_Send "{}".

(** The commands of the [switch] of the loop. *)
Definition commands : list string :=
  ["hello"; "ack"; "register"; "unregister"; "ping"; "purge"].

(** The name the loop reads in a messageType field: the empty string for a
    value that is no string. *)
Definition messageType_of (v : JsVal) : string :=
  match v with JString s => s | _ => EmptyString end.

(** Every effect but the closing of the socket. *)
Definition not_close (e : Effect) : bool := negb (is_close e).

(** A connection as the socket handler creates it. *)
Definition new_session (a : Application) (now : Z) : State :=
  {| self := NewWorker a now;
     sock := {| Uaid := EmptyString; Born := now |};
     buffer := ∅;
     trace := [] |}.

End simplepush.

(* ===================================================================== *)
(** * A deployment to run the handlers on *)
(* ===================================================================== *)

Module deployment.
Import errors simplepush.

(** The process around a worker whose storage is the no-op backend: no UAID
    is known, writes succeed, nothing is pending. *)
Definition noop_env : Env :=
  {| HELLO := 1;
     REGIS := 2;
     time_Now := 10 * Second;
     ClientExists := fun _ => false;
     IsKnownUaid := NoStore.Exists;
     GenUUID4 := "0f8fad5bd9cb469fa16570867728950e";
     HandleCommand := fun _ => (200, {[ "push.endpoint" := JString "http://push/update/k" ]});
     Socket_Write_result := fun _ => None;
     Ack_result := fun _ _ => None;
     RegisterAppID_result := fun _ _ _ => None;
     DeleteAppID_result := fun _ _ _ => None;
     GetUpdates_result := fun _ _ => (None, None) |}.

(** The same process with a storage whose deletes fail. *)
Definition failing_delete_env : Env :=
  {| HELLO := HELLO noop_env;
     REGIS := REGIS noop_env;
     time_Now := time_Now noop_env;
     ClientExists := ClientExists noop_env;
     IsKnownUaid := IsKnownUaid noop_env;
     GenUUID4 := GenUUID4 noop_env;
     HandleCommand := HandleCommand noop_env;
     Socket_Write_result := Socket_Write_result noop_env;
     Ack_result := Ack_result noop_env;
     RegisterAppID_result := RegisterAppID_result noop_env;
     DeleteAppID_result := fun _ _ _ => Some (OtherError "storage unavailable");
     GetUpdates_result := GetUpdates_result noop_env |}.

(** The same process with a storage that fails on every call. *)
Definition failing_storage_env : Env :=
  {| HELLO := HELLO noop_env;
     REGIS := REGIS noop_env;
     time_Now := time_Now noop_env;
     ClientExists := ClientExists noop_env;
     IsKnownUaid := IsKnownUaid noop_env;
     GenUUID4 := GenUUID4 noop_env;
     HandleCommand := HandleCommand noop_env;
     Socket_Write_result := Socket_Write_result noop_env;
     Ack_result := fun _ _ => Some (OtherError "storage unavailable");
     RegisterAppID_result := fun _ _ _ => Some (OtherError "storage unavailable");
     DeleteAppID_result := fun _ _ _ => Some (OtherError "storage unavailable");
     GetUpdates_result := fun _ _ => (None, Some (OtherError "storage unavailable")) |}.

(** One update pending: channel d00d at version 7. *)
Definition pending_updates : JsMap :=
  {[ "updates" := JMaps [Some (list_to_map [("channelID", JString "d00d");
                                            ("version", JInt 7)])] ]}.

(** The same process with a storage that holds [pending_updates]. *)
Definition pending_env : Env :=
  {| HELLO := HELLO noop_env;
     REGIS := REGIS noop_env;
     time_Now := time_Now noop_env;
     ClientExists := ClientExists noop_env;
     IsKnownUaid := fun _ => true;
     GenUUID4 := GenUUID4 noop_env;
     HandleCommand := HandleCommand noop_env;
     Socket_Write_result := Socket_Write_result noop_env;
     Ack_result := Ack_result noop_env;
     RegisterAppID_result := RegisterAppID_result noop_env;
     DeleteAppID_result := DeleteAppID_result noop_env;
     GetUpdates_result := fun _ _ => (Some pending_updates, None) |}.

(** [client.min_ping_interval] of half a second. *)
Definition half_second : Application :=
  {| clientMinPing := 500000000;
     clientHelloTimeout := 30 * Second;
     pushLongPongs := true;
     storage_maxChannels := 200 |}.

(** A metadata service that cannot be reached. *)
Definition unreachable_client : Client :=
  fun _ => inr (OtherError "dial tcp 169.254.169.254:80: i/o timeout").

(** [client.min_ping_interval = 5], [db.max_channels = 200]. *)
Definition rate_limited : Application :=
  {| clientMinPing := 5 * Second;
     clientHelloTimeout := 30 * Second;
     pushLongPongs := false;
     storage_maxChannels := 200 |}.

(** No ping rate limit. *)
Definition unlimited : Application :=
  {| clientMinPing := 0;
     clientHelloTimeout := 30 * Second;
     pushLongPongs := false;
     storage_maxChannels := 200 |}.

(** [db.max_channels = -1]. *)
Definition negative_bound : Application :=
  {| clientMinPing := 0;
     clientHelloTimeout := 30 * Second;
     pushLongPongs := false;
     storage_maxChannels := -1 |}.

(** U+212A KELVIN SIGN and U+0130 LATIN CAPITAL LETTER I WITH DOT ABOVE in
    UTF-8. *)
Definition kelvin_sign : string :=
  String (ascii_of_nat 226) (String (ascii_of_nat 132) (String (ascii_of_nat 170) EmptyString)).

Definition dotted_I : string :=
  String (ascii_of_nat 196) (String (ascii_of_nat 176) EmptyString).

Definition frame (fields : list (string * JsVal)) : JsMap := list_to_map fields.

Definition hello_frame (uaid : string) (channelIDs : list JsVal) : JsMap :=
  frame [("messageType", JString "hello"); ("uaid", JString uaid);
         ("channelIDs", JArray channelIDs)].

(** A frame as [Receive] delivers it.  Of the raw text the loop reads only
    its length and whether it is the literal [{}]: a placeholder stands for
    the JSON text of [m]. *)
Definition received (m : JsMap) : Received := ReceiveRaw "{...}" (Some m).

(** A session that owns the UAID [u]. *)
Definition session_of (a : Application) (u : string) : State :=
  adopt u (new_session a 0).

(** 109 characters, all hexadecimal. *)
Definition overlong_uaid : string :=
  "aaaaaaaaaaaaaaaaaaaaaaaaaaaaaaaaaaaaaaaaaaaaaaaaaaaaaaaaaaaaaaaaaaaaaaaaaaaaaaaaaaaaaaaaaaaaaaaaaaaaaaaaaaaaa".

(** A metadata service answering 200 with a host name, and one answering 404. *)
Definition ec2_client : Client :=
  fun _ => inl {| StatusCode := 200; Body := ReadOk "ec2-1-2-3-4.compute.amazonaws.com" |}.

Definition not_ec2_client : Client :=
  fun _ => inl {| StatusCode := 404; Body := ReadOk "not found" |}.

End deployment.

(* ===================================================================== *)
(** * Properties *)
(* ===================================================================== *)

(** ** errors.go *)

Section ErrorsFacts.
Import errors deployment.

Lemma unavailable_status (e : error) :
  In e unavailable_errors -> ErrToStatus (Some e) = (503, "Service Unavailable").
Proof.
  unfold unavailable_errors; simpl.
  intros [<- | [<- | [<- | [<- | []]]]]; reflexivity.
Qed.

Lemma invalid_command_status (e : error) :
  In e invalid_command_errors -> ErrToStatus (Some e) = (401, "Invalid Command").
Proof.
  unfold invalid_command_errors; simpl.
  intros [<- | [<- | [<- | [<- | [<- | [<- | []]]]]]]; reflexivity.
Qed.

Lemma unexpected_status (e : error) :
  ~ In e unavailable_errors -> ~ In e invalid_command_errors ->
  ErrToStatus (Some e) = (500, "An unexpected error occurred").
Proof.
  unfold unavailable_errors, invalid_command_errors; simpl.
  intros Hu Hi.
  destruct e; try reflexivity; exfalso; tauto.
Qed.

(** C5.  [ErrToStatus] yields 503 for ChannelExistsError, NoDataToStoreError,
    InvalidChannelError and NoRecordWarning; 401 for MissingDataError,
    NoChannelError, InvalidCommandError, InvalidDataError,
    UnknownCommandError and TooManyPingsError; 500 for every other non-nil
    error; and 200 for the nil error. *)
Theorem ErrToStatus_table (err : option error) :
  (err = None -> fst (ErrToStatus err) = 200)
  /\ (forall e, err = Some e -> In e unavailable_errors ->
        fst (ErrToStatus err) = 503)
  /\ (forall e, err = Some e -> In e invalid_command_errors ->
        fst (ErrToStatus err) = 401)
  /\ (forall e, err = Some e ->
        ~ In e unavailable_errors -> ~ In e invalid_command_errors ->
        fst (ErrToStatus err) = 500).
Proof.
  repeat split.
  - intros ->. reflexivity.
  - intros e -> He. now rewrite (unavailable_status e He).
  - intros e -> He. now rewrite (invalid_command_status e He).
  - intros e -> Hu Hi. now rewrite (unexpected_status e Hu Hi).
Qed.

(** The table at one error of each row. *)
Lemma ErrToStatus_table_witness :
  fst (ErrToStatus None) = 200
  /\ fst (ErrToStatus (Some NoRecordWarning)) = 503
  /\ fst (ErrToStatus (Some TooManyPingsError)) = 401
  /\ fst (ErrToStatus (Some (OtherError "disk full"))) = 500
  /\ fst (ErrToStatus (Some ServerError)) = 500.
Proof.
  split; [| split; [| split; [| split]]].
  - apply (proj1 (ErrToStatus_table None)). reflexivity.
  - apply (proj1 (proj2 (ErrToStatus_table (Some NoRecordWarning))) NoRecordWarning).
    + reflexivity.
    + simpl. tauto.
  - apply (proj1 (proj2 (proj2 (ErrToStatus_table (Some TooManyPingsError))))
             TooManyPingsError).
    + reflexivity.
    + simpl. tauto.
  - apply (proj2 (proj2 (proj2 (ErrToStatus_table (Some (OtherError "disk full")))))
             (OtherError "disk full")).
    + reflexivity.
    + simpl. intuition discriminate.
    + simpl. intuition discriminate.
  - apply (proj2 (proj2 (proj2 (ErrToStatus_table (Some ServerError)))) ServerError).
    + reflexivity.
    + simpl. intuition discriminate.
    + simpl. intuition discriminate.
Defined.

(** The request goes to the metadata address. *)
Lemma aws_request_url :
  Method aws_request = "GET"
  /\ URL_String (Url aws_request)
     = "http://169.254.169.254/latest/meta-data/public-hostname".
Proof. split; reflexivity. Qed.

Lemma hostname_returned (client_Do : Client) (host : string) :
  GetAWSPublicHostname client_Do = (host, None)
  <-> exists resp, client_Do aws_request = inl resp
                   /\ is_2xx (StatusCode resp) /\ Body resp = ReadOk host.
Proof.
  unfold GetAWSPublicHostname, is_2xx. split.
  - destruct (client_Do aws_request) as [resp | err]; [| discriminate].
    destruct (StatusCode resp <? 200) eqn:Hlo; [discriminate |].
    destruct (StatusCode resp >=? 300) eqn:Hhi; [discriminate |].
    simpl. destruct (Body resp) as [b | err] eqn:Hb; [| discriminate].
    intros [= ->]. exists resp. repeat split; try lia. exact Hb.
  - intros (resp & -> & [Hlo Hhi] & ->).
    replace (StatusCode resp <? 200) with false by lia.
    replace (StatusCode resp >=? 300) with false by lia.
    reflexivity.
Qed.

Lemma hostname_refused (client_Do : Client) :
  (exists err, client_Do aws_request = inr err)
  \/ (exists resp, client_Do aws_request = inl resp /\ ~ is_2xx (StatusCode resp)) ->
  exists err, GetAWSPublicHostname client_Do = (EmptyString, Some err).
Proof.
  unfold GetAWSPublicHostname, is_2xx.
  intros [(err & ->) | (resp & -> & Hbad)].
  - eauto.
  - destruct (StatusCode resp <? 200) eqn:Hlo; simpl; [eauto |].
    destruct (StatusCode resp >=? 300) eqn:Hhi; simpl; [eauto |].
    exfalso; apply Hbad; lia.
Qed.

(** C8.  [GetAWSPublicHostname] issues a GET of
    http://169.254.169.254/latest/meta-data/public-hostname and returns the
    body as the hostname (with a nil error) exactly when the call completes
    with a status in the 2xx range and the body can be read; on a transport
    error or a status outside 2xx it returns an error and no hostname. *)
Theorem GetAWSPublicHostname_result (client_Do : Client) :
  URL_String (Url aws_request)
    = "http://169.254.169.254/latest/meta-data/public-hostname"
  /\ (forall host,
        GetAWSPublicHostname client_Do = (host, None)
        <-> exists resp, client_Do aws_request = inl resp
                         /\ is_2xx (StatusCode resp) /\ Body resp = ReadOk host)
  /\ ((exists err, client_Do aws_request = inr err)
      \/ (exists resp, client_Do aws_request = inl resp
                       /\ ~ is_2xx (StatusCode resp)) ->
      exists err, GetAWSPublicHostname client_Do = (EmptyString, Some err)).
Proof.
  split; [reflexivity |]. split.
  - intros host. apply hostname_returned.
  - apply hostname_refused.
Qed.

Lemma GetAWSPublicHostname_result_witness :
  GetAWSPublicHostname ec2_client = ("ec2-1-2-3-4.compute.amazonaws.com", None)
  /\ exists err, GetAWSPublicHostname not_ec2_client = (EmptyString, Some err).
Proof.
  split.
  - apply (proj1 (proj2 (GetAWSPublicHostname_result ec2_client))).
    eexists. split; [reflexivity |]. split; [unfold is_2xx; simpl; lia | reflexivity].
  - apply (proj2 (proj2 (GetAWSPublicHostname_result not_ec2_client))).
    right. eexists. split; [reflexivity |]. unfold is_2xx; simpl; lia.
Defined.

End ErrorsFacts.

(** ** no_store.go *)

Section NoStoreFacts.
Import bytes NoStore.

Lemma length_zero_empty (s : string) :
  (String.length s =? 0)%nat = true <-> s = EmptyString.
Proof.
  destruct s; simpl; split; intros H; try reflexivity; discriminate.
Qed.

Lemma IndexByte_append (a rest : string) (c : ascii) :
  IndexByte a c = None ->
  IndexByte (a ++ String c rest) c = Some (String.length a).
Proof.
  induction a as [| d a IH]; simpl.
  - intros _. now rewrite Ascii.eqb_refl.
  - destruct (Ascii.eqb d c); [discriminate |].
    destruct (IndexByte a c); [discriminate |].
    intros _. now rewrite IH.
Qed.

Lemma take_bytes_append (a b : string) :
  take_bytes (String.length a) (a ++ b) = a.
Proof.
  induction a as [| d a IH]; simpl.
  - now destruct b.
  - now rewrite IH.
Qed.

Lemma drop_bytes_append (a b : string) (c : ascii) :
  drop_bytes (S (String.length a)) (a ++ String c b) = b.
Proof.
  induction a as [| d a IH]; simpl.
  - now destruct b.
  - exact IH.
Qed.

Lemma SplitN_two (s : string) (sep : ascii) :
  SplitN s sep 2 =
  match IndexByte s sep with
  | None => [s]
  | Some m => [take_bytes m s; drop_bytes (S m) s]
  end.
Proof. reflexivity. Qed.

Lemma SplitN_key (suaid schid : string) :
  IndexByte suaid "." = None ->
  SplitN (suaid ++ "." ++ schid) "." 2 = [suaid; schid].
Proof.
  intros Hdot. rewrite SplitN_two.
  change ("." ++ schid)%string with (String "." schid).
  rewrite (IndexByte_append suaid schid "." Hdot).
  now rewrite take_bytes_append, drop_bytes_append.
Qed.

Lemma IDsToKey_refuses (suaid schid : string) :
  snd (IDsToKey suaid schid) = false <-> suaid = EmptyString \/ schid = EmptyString.
Proof.
  unfold IDsToKey. rewrite <- !length_zero_empty.
  destruct (String.length suaid =? 0)%nat, (String.length schid =? 0)%nat;
    simpl; intuition discriminate.
Qed.

(** C9.  [IDsToKey] answers ok=false exactly when the UAID or the channel
    ID is empty; and for a non-empty UAID without a dot and a non-empty
    channel ID, [KeyToIDs] gives back the two IDs of the key with ok=true. *)
Theorem KeyToIDs_IDsToKey (suaid schid : string) :
  (snd (IDsToKey suaid schid) = false
   <-> suaid = EmptyString \/ schid = EmptyString)
  /\ (suaid <> EmptyString -> schid <> EmptyString ->
      IndexByte suaid "." = None ->
      KeyToIDs (fst (IDsToKey suaid schid)) = (suaid, schid, true)).
Proof.
  split; [apply IDsToKey_refuses |].
  intros Hu Hc Hdot.
  unfold IDsToKey.
  destruct (String.length suaid =? 0)%nat eqn:Eu.
  { apply length_zero_empty in Eu. contradiction. }
  destruct (String.length schid =? 0)%nat eqn:Ec.
  { apply length_zero_empty in Ec. contradiction. }
  cbn [orb fst]. unfold KeyToIDs.
  now rewrite (SplitN_key suaid schid Hdot).
Qed.

Lemma KeyToIDs_IDsToKey_witness :
  KeyToIDs (fst (IDsToKey "e281b9498a924443b0c85465ba439a76" "abc.123"))
  = ("e281b9498a924443b0c85465ba439a76", "abc.123", true).
Proof.
  apply (proj2 (KeyToIDs_IDsToKey "e281b9498a924443b0c85465ba439a76" "abc.123"));
    [discriminate | discriminate | reflexivity].
Defined.

(** A dot inside the UAID moves the cut: the hypothesis on [suaid] is needed. *)
Example KeyToIDs_dotted_uaid :
  KeyToIDs (fst (IDsToKey "a.b" "c")) = ("a", "b.c", true).
Proof. reflexivity. Qed.

End NoStoreFacts.

(** ** The id package *)

Section IdFacts.
Import bytes id.

(** Splits a conjunction of boolean checks into its parts. *)
Ltac split_checks :=
  repeat match goal with
         | H : (_ && _) = true |- _ =>
             apply andb_prop in H; let H1 := fresh "Hc" in destruct H as [H1 H]
         end.

Ltac use_checks :=
  repeat match goal with
         | H : is_hex ?c = true |- _ => rewrite H; clear H
         end.

Lemma is_hyphen_eq (c : ascii) : is_hyphen c = true -> c = "-"%char.
Proof. unfold is_hyphen. apply Ascii.eqb_eq. Qed.

Lemma Valid_plain (s : string) : plain_form s -> Valid s = true.
Proof.
  intros [Hlen Hhex]. unfold Valid. now rewrite Hlen.
Qed.

Lemma Valid_hyphenated (s : string) : hyphenated_form s -> Valid s = true.
Proof.
  intros (a & b & c & d & e & -> & [La Ha] & [Lb Hb] & [Lc Hc'] & [Ld Hd] & [Le He]).
  do 9 (destruct a as [| ? a]; try discriminate La).
  do 5 (destruct b as [| ? b]; try discriminate Lb).
  do 5 (destruct c as [| ? c]; try discriminate Lc).
  do 5 (destruct d as [| ? d]; try discriminate Ld).
  do 13 (destruct e as [| ? e]; try discriminate Le).
  cbn [forall_bytes] in Ha, Hb, Hc', Hd, He.
  split_checks.
  unfold Valid.
  lazy [String.append String.length hyphenated_from hyphen_position Nat.eqb orb].
  use_checks. reflexivity.
Qed.

Lemma Valid_shape (s : string) : Valid s = true -> plain_form s \/ hyphenated_form s.
Proof.
  unfold Valid. intros H.
  do 32 (destruct s as [| ? s]; [discriminate H |]).
  destruct s as [| ? s].
  { left. split; [reflexivity | exact H]. }
  do 3 (destruct s as [| ? s]; [discriminate H |]).
  destruct s as [| ? s]; [| destruct s; discriminate H].
  right.
  cbn [String.length hyphenated_from hyphen_position Nat.eqb orb] in H.
  split_checks.
  repeat match goal with
         | Hy : is_hyphen ?c = true |- _ => apply is_hyphen_eq in Hy; subst c
         end.
  unfold hyphenated_form, hex_string.
  eexists (String _ (String _ (String _ (String _ (String _ (String _ (String _
            (String _ EmptyString)))))))).
  eexists (String _ (String _ (String _ (String _ EmptyString)))).
  eexists (String _ (String _ (String _ (String _ EmptyString)))).
  eexists (String _ (String _ (String _ (String _ EmptyString)))).
  eexists (String _ (String _ (String _ (String _ (String _ (String _ (String _
            (String _ (String _ (String _ (String _ (String _ EmptyString)))))))))))).
  split; [lazy [String.append]; reflexivity |].
  cbn [String.length forall_bytes].
  use_checks. repeat split.
Qed.

Lemma hex_digit_is_hex (b : byte) :
  is_hex (hex_digit (N.div (Byte.to_N b) 16)) = true
  /\ is_hex (hex_digit (N.modulo (Byte.to_N b) 16)) = true.
Proof. destruct b; split; reflexivity. Qed.

Lemma Encode_length (src : list byte) :
  String.length (Encode src) = (2 * List.length src)%nat.
Proof.
  induction src as [| b src IH]; simpl; [reflexivity |].
  rewrite IH. lia.
Qed.

Lemma Encode_hex (src : list byte) : forall_bytes is_hex (Encode src) = true.
Proof.
  induction src as [| b src IH]; [reflexivity |].
  destruct (hex_digit_is_hex b) as [Hhi Hlo].
  cbn [Encode forall_bytes]. now rewrite Hhi, Hlo, IH.
Qed.

Lemma Generate_valid (entropy : list byte) (uaid : string) :
  Generate entropy = Some uaid -> String.length uaid = 32%nat /\ Valid uaid = true.
Proof.
  unfold Generate.
  destruct (List.length entropy =? 16)%nat eqn:Hlen; [| discriminate].
  apply Nat.eqb_eq in Hlen. intros [= <-].
  assert (Hl : String.length (Encode entropy) = 32%nat).
  { rewrite Encode_length, Hlen. reflexivity. }
  split; [exact Hl |].
  apply Valid_plain. split; [exact Hl | apply Encode_hex].
Qed.

(** The model agrees with the package's test table and with its fixtures. *)
Lemma validTests_pass : Forall (fun t => Valid (fst t) = snd t) validTests.
Proof. repeat constructor. Qed.

Lemma Encode_decodedId : Encode decodedId = encodedId.
Proof. reflexivity. Qed.

(** C7.  [Valid(s)] holds exactly when [s] is 32 hexadecimal characters or
    the hyphenated 8-4-4-4-12 form of 36 characters; and every string that
    [Generate] returns has length 32 and is valid ([Generate] does return
    one whenever the random source delivers its 16 bytes). *)
Theorem Valid_and_Generate (s : string) (entropy : list byte) (uaid : string) :
  (Valid s = true <-> plain_form s \/ hyphenated_form s)
  /\ (Generate entropy = Some uaid ->
      String.length uaid = 32%nat /\ Valid uaid = true)
  /\ (List.length entropy = 16%nat -> exists u, Generate entropy = Some u).
Proof.
  split; [| split].
  - split; [apply Valid_shape |].
    intros [H | H]; [now apply Valid_plain | now apply Valid_hyphenated].
  - apply Generate_valid.
  - intros Hlen. unfold Generate. rewrite Hlen. simpl. eauto.
Qed.

Lemma Valid_and_Generate_witness :
  String.length encodedId = 32%nat /\ Valid encodedId = true.
Proof.
  apply (proj1 (proj2 (Valid_and_Generate hyphenatedId decodedId encodedId))).
  reflexivity.
Defined.

End IdFacts.

(** ** The library under [strings.ToLower] *)

Section LibraryFacts.
Import bytes utf8 strings.

(** *** Bytes and bit operations *)

Lemma byte_val_to_byte (x : Z) : 0 <= x < 256 -> byte_val (to_byte x) = x.
Proof.
  intros Hx. unfold byte_val, to_byte.
  rewrite N_ascii_embedding by lia. lia.
Qed.

(** Bits that do not meet add up. *)
Lemma land_disjoint (k a b : Z) :
  0 <= k -> a mod 2 ^ k = 0 -> 0 <= b < 2 ^ k -> Z.land a b = 0.
Proof.
  intros Hk Ha Hb. apply Z.bits_inj'. intros n Hn.
  rewrite Z.land_spec, Z.bits_0.
  destruct (Z.lt_ge_cases n k) as [Hlt | Hge].
  - assert (Hbit : Z.testbit a n = false).
    { rewrite <- (Z.mod_pow2_bits_low a k n) by lia. rewrite Ha. apply Z.bits_0. }
    now rewrite Hbit.
  - assert (Hbit : Z.testbit b n = false).
    { destruct (Z.eq_dec b 0) as [-> | Hnz]; [apply Z.bits_0 |].
      apply Z.bits_above_log2; [lia |].
      apply Z.log2_lt_pow2; [lia |].
      apply Z.lt_le_trans with (2 ^ k); [lia |].
      apply Z.pow_le_mono_r; lia. }
    rewrite Hbit. apply andb_false_r.
Qed.

Lemma lor_disjoint (k a b : Z) :
  0 <= k -> a mod 2 ^ k = 0 -> 0 <= b < 2 ^ k -> Z.lor a b = a + b.
Proof.
  intros Hk Ha Hb. pose proof (Z.add_lor_land a b) as H.
  rewrite (land_disjoint k a b Hk Ha Hb) in H. lia.
Qed.

Lemma land_mask (a k : Z) : 0 <= k -> Z.land a (2 ^ k - 1) = a mod 2 ^ k.
Proof.
  intros Hk. rewrite <- Z.land_ones by exact Hk.
  f_equal. rewrite Z.ones_equiv. lia.
Qed.

Ltac arith := Z.div_mod_to_equations; lia.

Lemma land_maskx a : Z.land a maskx = a mod 64.
Proof. apply (land_mask a 6). lia. Qed.
Lemma land_mask2 a : Z.land a mask2 = a mod 32.
Proof. apply (land_mask a 5). lia. Qed.
Lemma land_mask3 a : Z.land a mask3 = a mod 16.
Proof. apply (land_mask a 4). lia. Qed.
Lemma land_mask4 a : Z.land a mask4 = a mod 8.
Proof. apply (land_mask a 3). lia. Qed.

Lemma shiftr_6 a : Z.shiftr a 6 = a / 64.
Proof. now rewrite Z.shiftr_div_pow2 by lia. Qed.
Lemma shiftr_12 a : Z.shiftr a 12 = a / 4096.
Proof. now rewrite Z.shiftr_div_pow2 by lia. Qed.
Lemma shiftr_18 a : Z.shiftr a 18 = a / 262144.
Proof. now rewrite Z.shiftr_div_pow2 by lia. Qed.
Lemma shiftl_6 a : Z.shiftl a 6 = a * 64.
Proof. now rewrite Z.shiftl_mul_pow2 by lia. Qed.
Lemma shiftl_12 a : Z.shiftl a 12 = a * 4096.
Proof. now rewrite Z.shiftl_mul_pow2 by lia. Qed.
Lemma shiftl_18 a : Z.shiftl a 18 = a * 262144.
Proof. now rewrite Z.shiftl_mul_pow2 by lia. Qed.

(** A continuation byte [tx | x&maskx] and the leading bytes. *)
Lemma cont_byte x : byte_val (to_byte (Z.lor tx (Z.land x maskx))) = 128 + x mod 64.
Proof.
  rewrite land_maskx. unfold tx.
  rewrite (lor_disjoint 6 128 (x mod 64)) by (try lia; arith).
  apply byte_val_to_byte. arith.
Qed.

Lemma lead_byte2 x : 0 <= x < 32 -> byte_val (to_byte (Z.lor t2 x)) = 192 + x.
Proof.
  intros Hx. unfold t2. rewrite (lor_disjoint 5 192 x) by (try lia; arith).
  apply byte_val_to_byte. lia.
Qed.

Lemma lead_byte3 x : 0 <= x < 16 -> byte_val (to_byte (Z.lor t3 x)) = 224 + x.
Proof.
  intros Hx. unfold t3. rewrite (lor_disjoint 4 224 x) by (try lia; arith).
  apply byte_val_to_byte. lia.
Qed.

Lemma lead_byte4 x : 0 <= x < 8 -> byte_val (to_byte (Z.lor t4 x)) = 240 + x.
Proof.
  intros Hx. unfold t4. rewrite (lor_disjoint 3 240 x) by (try lia; arith).
  apply byte_val_to_byte. lia.
Qed.

(** The value the decoder puts together. *)
Lemma decoded2 s0 s1 :
  Z.lor (Z.shiftl (Z.land s0 mask2) 6) (Z.land s1 maskx) = s0 mod 32 * 64 + s1 mod 64.
Proof.
  rewrite land_mask2, land_maskx, shiftl_6.
  apply (lor_disjoint 6); [lia | arith | arith].
Qed.

Lemma decoded3 s0 s1 s2 :
  Z.lor (Z.lor (Z.shiftl (Z.land s0 mask3) 12) (Z.shiftl (Z.land s1 maskx) 6))
        (Z.land s2 maskx)
  = s0 mod 16 * 4096 + s1 mod 64 * 64 + s2 mod 64.
Proof.
  rewrite land_mask3, !land_maskx, shiftl_6, shiftl_12.
  rewrite (lor_disjoint 12 (s0 mod 16 * 4096) (s1 mod 64 * 64)) by (try lia; arith).
  apply (lor_disjoint 6); [lia | arith | arith].
Qed.

Lemma decoded4 s0 s1 s2 s3 :
  Z.lor (Z.lor (Z.lor (Z.shiftl (Z.land s0 mask4) 18) (Z.shiftl (Z.land s1 maskx) 12))
               (Z.shiftl (Z.land s2 maskx) 6))
        (Z.land s3 maskx)
  = s0 mod 8 * 262144 + s1 mod 64 * 4096 + s2 mod 64 * 64 + s3 mod 64.
Proof.
  rewrite land_mask4, !land_maskx, shiftl_6, shiftl_12, shiftl_18.
  rewrite (lor_disjoint 18 (s0 mod 8 * 262144) (s1 mod 64 * 4096)) by (try lia; arith).
  rewrite (lor_disjoint 12 _ (s2 mod 64 * 64)) by (try lia; arith).
  apply (lor_disjoint 6); [lia | arith | arith].
Qed.

(** *** Decoding what was encoded *)

Ltac split_tests :=
  repeat match goal with
         | |- context [?a <? ?b] => destruct (Z.ltb_spec a b)
         | |- context [?a <=? ?b] => destruct (Z.leb_spec a b)
         | |- context [?a =? ?b] => destruct (Z.eqb_spec a b)
         end.

Lemma first_cases (b : Z) :
  first b =
    if b <? 128 then as_
    else if b <? 194 then xx
    else if b <? 224 then seq_ 2 128 191
    else if b =? 224 then seq_ 3 160 191
    else if b <? 237 then seq_ 3 128 191
    else if b =? 237 then seq_ 3 128 159
    else if b <? 240 then seq_ 3 128 191
    else if b =? 240 then seq_ 4 144 191
    else if b <? 244 then seq_ 4 128 191
    else if b =? 244 then seq_ 4 128 143
    else xx.
Proof. reflexivity. Qed.

Lemma decode_1 c rest :
  byte_val c < 128 -> DecodeRuneInString (String c rest) = (byte_val c, 1%nat).
Proof.
  intros H. cbn [DecodeRuneInString]. rewrite first_cases.
  destruct (Z.ltb_spec (byte_val c) 128); [reflexivity | lia].
Qed.

Lemma decode_2 c0 c1 rest lo hi :
  first (byte_val c0) = seq_ 2 lo hi ->
  lo <= byte_val c1 <= hi ->
  DecodeRuneInString (String c0 (String c1 rest))
  = (byte_val c0 mod 32 * 64 + byte_val c1 mod 64, 2%nat).
Proof.
  intros Hf H1. cbn [DecodeRuneInString]. rewrite Hf.
  cbn [String.length Nat.ltb Nat.leb at_ String.get].
  replace (byte_val c1 <? lo) with false by lia.
  replace (hi <? byte_val c1) with false by lia.
  cbn [orb]. now rewrite decoded2.
Qed.

Lemma decode_3 c0 c1 c2 rest lo hi :
  first (byte_val c0) = seq_ 3 lo hi ->
  lo <= byte_val c1 <= hi ->
  128 <= byte_val c2 <= 191 ->
  DecodeRuneInString (String c0 (String c1 (String c2 rest)))
  = (byte_val c0 mod 16 * 4096 + byte_val c1 mod 64 * 64 + byte_val c2 mod 64, 3%nat).
Proof.
  intros Hf H1 H2. cbn [DecodeRuneInString]. rewrite Hf.
  cbn [String.length Nat.ltb Nat.leb at_ String.get].
  replace (byte_val c1 <? lo) with false by lia.
  replace (hi <? byte_val c1) with false by lia.
  unfold locb, hicb.
  replace (byte_val c2 <? 128) with false by lia.
  replace (191 <? byte_val c2) with false by lia.
  cbn [orb]. now rewrite decoded3.
Qed.

Lemma decode_4 c0 c1 c2 c3 rest lo hi :
  first (byte_val c0) = seq_ 4 lo hi ->
  lo <= byte_val c1 <= hi ->
  128 <= byte_val c2 <= 191 ->
  128 <= byte_val c3 <= 191 ->
  DecodeRuneInString (String c0 (String c1 (String c2 (String c3 rest))))
  = (byte_val c0 mod 8 * 262144 + byte_val c1 mod 64 * 4096
     + byte_val c2 mod 64 * 64 + byte_val c3 mod 64, 4%nat).
Proof.
  intros Hf H1 H2 H3. cbn [DecodeRuneInString]. rewrite Hf.
  cbn [String.length Nat.ltb Nat.leb at_ String.get].
  replace (byte_val c1 <? lo) with false by lia.
  replace (hi <? byte_val c1) with false by lia.
  unfold locb, hicb.
  replace (byte_val c2 <? 128) with false by lia.
  replace (191 <? byte_val c2) with false by lia.
  replace (byte_val c3 <? 128) with false by lia.
  replace (191 <? byte_val c3) with false by lia.
  cbn [orb]. now rewrite decoded4.
Qed.

(** The second byte an encoding may have after its leading byte. *)
Lemma first_of_lead (b s1 : Z) :
  194 <= b <= 244 ->
  128 <= s1 <= 191 ->
  (b = 224 -> 160 <= s1) -> (b = 237 -> s1 <= 159) ->
  (b = 240 -> 144 <= s1) -> (b = 244 -> s1 <= 143) ->
  exists sz lo hi,
    first b = seq_ sz lo hi /\ lo <= s1 <= hi
    /\ sz = (if b <? 224 then 2%nat else if b <? 240 then 3%nat else 4%nat).
Proof.
  intros Hb Hs H224 H237 H240 H244. rewrite first_cases.
  split_tests; try lia; do 3 eexists; (split; [reflexivity | split; [lia | reflexivity]]).
Qed.

Lemma encode3_decode (r : Z) (rest : string) :
  2048 <= r <= 65535 -> ~ (55296 <= r <= 57343) ->
  DecodeRuneInString (encode3 r ++ rest) = (r, 3%nat).
Proof.
  intros Hr Hs. unfold encode3. lazy [String.append].
  rewrite shiftr_12, shiftr_6.
  set (c0 := to_byte (Z.lor t3 (r / 4096))).
  set (c1 := to_byte (Z.lor tx (Z.land (r / 64) maskx))).
  set (c2 := to_byte (Z.lor tx (Z.land r maskx))).
  assert (H0 : byte_val c0 = 224 + r / 4096) by (apply lead_byte3; arith).
  assert (H1 : byte_val c1 = 128 + (r / 64) mod 64) by apply cont_byte.
  assert (H2 : byte_val c2 = 128 + r mod 64) by apply cont_byte.
  destruct (first_of_lead (byte_val c0) (byte_val c1)) as (sz & lo & hi & Hf & Hlo & Hsz);
    try (rewrite ?H0, ?H1; arith).
  replace (byte_val c0 <? 224) with false in Hsz by (rewrite H0; arith).
  replace (byte_val c0 <? 240) with true in Hsz by (rewrite H0; arith).
  subst sz. rewrite (decode_3 c0 c1 c2 rest lo hi Hf Hlo) by (rewrite H2; arith).
  f_equal. rewrite H0, H1, H2. arith.
Qed.

Lemma encode3_RuneError (rest : string) :
  DecodeRuneInString (encode3 RuneError ++ rest) = (RuneError, String.length (encode3 RuneError)).
Proof. reflexivity. Qed.

(** Decoding an encoded rune gives the rune back, or [RuneError] when the
    rune was no Unicode scalar, and consumes the bytes of the encoding. *)
Lemma DecodeRune_EncodeRune (r : Z) (rest : string) :
  DecodeRuneInString (EncodeRune r ++ rest)
  = (if ValidRune r then r else RuneError, String.length (EncodeRune r)).
Proof.
  unfold EncodeRune, ValidRune, rune1Max, rune2Max, rune3Max, MaxRune,
    surrogateMin, surrogateMax.
  destruct (Z.leb_spec 0 r) as [H0 | H0]; cbn [andb orb];
    [| replace (r <? 0) with true by lia; cbn [orb];
       replace (57343 <? r) with false by lia; apply encode3_RuneError].
  destruct (Z.leb_spec r 127) as [H1 | H1].
  - replace (r <? 55296) with true by lia. cbn [andb orb].
    lazy [String.append String.length].
    rewrite decode_1 by (rewrite byte_val_to_byte; lia).
    now rewrite byte_val_to_byte by lia.
  - destruct (Z.leb_spec r 2047) as [H2 | H2].
    + replace (r <? 55296) with true by lia. cbn [andb orb].
      lazy [String.append String.length].
      rewrite shiftr_6.
      set (c0 := to_byte (Z.lor t2 (r / 64))).
      set (c1 := to_byte (Z.lor tx (Z.land r maskx))).
      assert (Hc0 : byte_val c0 = 192 + r / 64) by (apply lead_byte2; arith).
      assert (Hc1 : byte_val c1 = 128 + r mod 64) by apply cont_byte.
      destruct (first_of_lead (byte_val c0) (byte_val c1)) as (sz & lo & hi & Hf & Hlo & Hsz);
        try (rewrite ?Hc0, ?Hc1; arith).
      replace (byte_val c0 <? 224) with true in Hsz by (rewrite Hc0; arith).
      subst sz. rewrite (decode_2 c0 c1 rest lo hi Hf Hlo).
      f_equal. rewrite Hc0, Hc1. arith.
    + replace (r <? 0) with false by lia. cbn [orb].
      destruct (Z.ltb_spec 1114111 r) as [H3 | H3]; cbn [orb].
      * replace (r <=? 1114111) with false by lia.
        replace (r <? 55296) with false by lia. rewrite andb_false_r.
        apply encode3_RuneError.
      * replace (r <=? 1114111) with true by lia.
        destruct (Z.leb_spec 55296 r) as [H4 | H4];
          destruct (Z.leb_spec r 57343) as [H5 | H5]; cbn [andb orb].
        -- replace (r <? 55296) with false by lia.
           replace (57343 <? r) with false by lia. apply encode3_RuneError.
        -- replace (r <? 55296) with false by lia.
           replace (57343 <? r) with true by lia. cbn [andb orb].
           destruct (Z.leb_spec r 65535) as [H6 | H6].
           ++ rewrite encode3_decode by lia. reflexivity.
           ++ lazy [String.append String.length].
              rewrite shiftr_18, shiftr_12, shiftr_6.
              set (c0 := to_byte (Z.lor t4 (r / 262144))).
              set (c1 := to_byte (Z.lor tx (Z.land (r / 4096) maskx))).
              set (c2 := to_byte (Z.lor tx (Z.land (r / 64) maskx))).
              set (c3 := to_byte (Z.lor tx (Z.land r maskx))).
              assert (Hc0 : byte_val c0 = 240 + r / 262144) by (apply lead_byte4; arith).
              assert (Hc1 : byte_val c1 = 128 + (r / 4096) mod 64) by apply cont_byte.
              assert (Hc2 : byte_val c2 = 128 + (r / 64) mod 64) by apply cont_byte.
              assert (Hc3 : byte_val c3 = 128 + r mod 64) by apply cont_byte.
              destruct (first_of_lead (byte_val c0) (byte_val c1))
                as (sz & lo & hi & Hf & Hlo & Hsz);
                try (rewrite ?Hc0, ?Hc1; arith).
              replace (byte_val c0 <? 224) with false in Hsz by (rewrite Hc0; arith).
              replace (byte_val c0 <? 240) with false in Hsz by (rewrite Hc0; arith).
              subst sz.
              rewrite (decode_4 c0 c1 c2 c3 rest lo hi Hf Hlo)
                by (rewrite ?Hc2, ?Hc3; arith).
              f_equal. rewrite Hc0, Hc1, Hc2, Hc3. arith.
        -- replace (r <? 55296) with true by lia. cbn [orb].
           replace (r <=? 65535) with true by lia.
           rewrite encode3_decode by lia. reflexivity.
        -- lia.
Qed.

(** *** The case table *)

Lemma in_zseq (c lo : Z) (n : nat) : lo <= c < lo + Z.of_nat n -> In c (unicode.zseq lo n).
Proof.
  revert lo. induction n as [| n IH]; intros lo H; [lia |].
  cbn [unicode.zseq]. destruct (Z.eq_dec lo c) as [-> | Hne]; [now left | right].
  apply IH. lia.
Qed.

Lemma to_lower_cases (caseRange : list unicode.CaseRange) (r : Z) :
  unicode.to_lower r caseRange = r \/ In r (unicode.points caseRange).
Proof.
  induction caseRange as [| cr rest IH]; [now left |].
  cbn [unicode.to_lower unicode.points flat_map].
  destruct (Z.leb_spec (unicode.Lo cr) r) as [Hlo | Hlo];
    destruct (Z.leb_spec r (unicode.Hi cr)) as [Hhi | Hhi]; cbn [andb];
    try (destruct IH as [IH | IH]; [now left | right; apply in_or_app; now right]).
  right. apply in_or_app. left. apply in_zseq. lia.
Qed.

(** Every rune of a range of the table has the checked property. *)
Lemma CaseRanges_lowered : forallb unicode.lowered (unicode.points unicode.CaseRanges) = true.
Proof. vm_compute. reflexivity. Qed.

Lemma ToLower_lowered (r : Z) : 127 < r -> unicode.lowered r = true.
Proof.
  intros Hr.
  destruct (to_lower_cases unicode.CaseRanges r) as [Hsame | Hin].
  - assert (Hl : unicode.ToLower r = r).
    { unfold unicode.ToLower, unicode.MaxASCII.
      replace (r <=? 127) with false by lia. exact Hsame. }
    unfold unicode.lowered. rewrite !Hl, Z.eqb_refl.
    replace (128 <=? r) with true by lia. reflexivity.
  - pose proof CaseRanges_lowered as Hall. rewrite forallb_forall in Hall.
    now apply Hall.
Qed.

Lemma unicode_ToLower_ascii (r : Z) :
  r <= 127 -> unicode.ToLower r = if (65 <=? r) && (r <=? 90) then r + 32 else r.
Proof.
  intros Hr. unfold unicode.ToLower, unicode.MaxASCII.
  now replace (r <=? 127) with true by lia.
Qed.

(** A lower-case form is its own lower-case form. *)
Lemma unicode_ToLower_idem (r : Z) :
  unicode.ToLower (unicode.ToLower r) = unicode.ToLower r.
Proof.
  destruct (Z.le_gt_cases r 127) as [Hr | Hr].
  - rewrite (unicode_ToLower_ascii r Hr).
    destruct (Z.leb_spec 65 r); destruct (Z.leb_spec r 90); cbn [andb];
      rewrite unicode_ToLower_ascii by lia;
      split_tests; cbn [andb]; lia.
  - pose proof (ToLower_lowered r ltac:(lia)) as H. unfold unicode.lowered in H.
    apply andb_prop in H as [H _]. now apply Z.eqb_eq.
Qed.

(** Only U+0130 and U+212A lower-case into the ASCII range. *)
Lemma unicode_ToLower_nonascii (r : Z) :
  127 < r ->
  128 <= unicode.ToLower r \/ unicode.ToLower r = 105 \/ unicode.ToLower r = 107.
Proof.
  intros Hr. pose proof (ToLower_lowered r Hr) as H. unfold unicode.lowered in H.
  apply andb_prop in H as [_ H]. apply orb_prop in H as [H | H].
  - apply orb_prop in H as [H | H]; [left; lia | right; left; lia].
  - right; right; lia.
Qed.

(** *** [strings.ToLower] *)

Lemma range_from_skip (a t : string) :
  range_from (String.length a) (a ++ t) = range_from 0 t.
Proof. induction a as [| c a IH]; [reflexivity | exact IH]. Qed.

Lemma EncodeRune_nonempty (r : Z) : exists b a, EncodeRune r = String b a.
Proof.
  unfold EncodeRune, encode3.
  repeat match goal with
         | |- context [if ?c then _ else _] => destruct c
         end; eauto.
Qed.

Lemma range_EncodeRune (r : Z) (t : string) :
  range (EncodeRune r ++ t) = (if ValidRune r then r else RuneError) :: range t.
Proof.
  pose proof (DecodeRune_EncodeRune r t) as Hd.
  destruct (EncodeRune_nonempty r) as (b & a & He). rewrite He in *.
  unfold range. change (String b a ++ t)%string with (String b (a ++ t)) in *.
  cbn [range_from]. rewrite Hd. cbn [String.length Nat.sub].
  rewrite Nat.sub_0_r. now rewrite range_from_skip.
Qed.

Lemma EncodeRune_invalid (r : Z) :
  0 <= r -> ValidRune r = false -> EncodeRune r = EncodeRune RuneError.
Proof.
  unfold ValidRune, EncodeRune, surrogateMin, surrogateMax, MaxRune, rune1Max, rune2Max,
    rune3Max.
  intros H0 Hv.
  destruct (Z.leb_spec 0 r); [| lia].
  destruct (Z.ltb_spec r 55296); [discriminate Hv |].
  cbn [andb orb] in Hv. 
  replace (r <=? 127) with false by lia. replace (r <=? 2047) with false by lia.
  replace (r <? 0) with false by lia. replace (55296 <=? r) with true by lia.
  cbn [andb orb].
  destruct (Z.ltb_spec 57343 r); cbn [andb] in Hv.
  - replace (1114111 <? r) with true by lia. reflexivity.
  - replace (r <=? 57343) with true by lia. rewrite orb_true_r. reflexivity.
Qed.

Lemma map_runes_twice (l : list Z) :
  map_runes unicode.ToLower (range (map_runes unicode.ToLower l))
  = map_runes unicode.ToLower l.
Proof.
  induction l as [| c l IH]; [reflexivity |].
  cbn [map_runes]. cbv zeta.
  destruct (Z.leb_spec 0 (unicode.ToLower c)) as [Hr | Hr]; [| exact IH].
  rewrite range_EncodeRune. cbn [map_runes]. cbv zeta. rewrite IH.
  destruct (ValidRune (unicode.ToLower c)) eqn:Hv.
  - rewrite unicode_ToLower_idem.
    now replace (0 <=? unicode.ToLower c) with true by lia.
  - change (unicode.ToLower RuneError) with RuneError.
    change (0 <=? RuneError) with true. cbv iota.
    now rewrite (EncodeRune_invalid _ Hr Hv).
Qed.

(** Lower-casing twice is lower-casing once. *)
Lemma ToLower_idem (s : string) : ToLower (ToLower s) = ToLower s.
Proof. unfold ToLower, Map. apply map_runes_twice. Qed.

(** On ASCII text [ToLower] works byte by byte. *)
Lemma lower_ascii_byte (c : ascii) :
  byte_val c < 128 ->
  0 <= unicode.ToLower (byte_val c)
  /\ EncodeRune (unicode.ToLower (byte_val c)) = String (lower_byte c) EmptyString.
Proof.
  destruct c as [[] [] [] [] [] [] [] []]; intros H;
    first [ vm_compute in H; discriminate H
          | split; [vm_compute; discriminate | reflexivity] ].
Qed.

Lemma ToLower_ascii_head (c : ascii) (rest : string) :
  byte_val c < 128 -> ToLower (String c rest) = String (lower_byte c) (ToLower rest).
Proof.
  intros Hc. unfold ToLower, Map, range. cbn [range_from].
  rewrite (decode_1 c rest Hc). cbn [Nat.sub map_runes]. cbv zeta.
  destruct (lower_ascii_byte c Hc) as [H0 He]. rewrite He.
  now replace (0 <=? unicode.ToLower (byte_val c)) with true by lia.
Qed.

Lemma first_as (b : Z) : first b = as_ -> b < 128.
Proof. rewrite first_cases. split_tests; intros Heq; try discriminate Heq; lia. Qed.

Lemma first_seq (b : Z) (sz : nat) (lo hi : Z) :
  first b = seq_ sz lo hi ->
  128 <= lo /\ hi <= 191
  /\ ((sz = 2%nat /\ 2 <= b mod 32)
      \/ (sz = 3%nat /\ (1 <= b mod 16 \/ 160 <= lo))
      \/ (sz = 4%nat /\ (1 <= b mod 8 \/ 144 <= lo))).
Proof.
  rewrite first_cases.
  split_tests; intros Heq; try discriminate Heq; injection Heq as <- <- <-;
    (split; [lia | split; [lia |]]);
    first [ left; split; [reflexivity | arith]
          | right; left; split; [reflexivity | first [right; lia | left; arith]]
          | right; right; split; [reflexivity | first [right; lia | left; arith]] ].
Qed.

Lemma decode_nonascii (c : ascii) (rest : string) :
  128 <= byte_val c -> 128 <= fst (DecodeRuneInString (String c rest)).
Proof.
  intros Hc. cbn [DecodeRuneInString].
  assert (Herr : 128 <= fst (RuneError, 1%nat)) by (cbn; unfold RuneError; lia).
  destruct (first (byte_val c)) as [| | sz lo hi] eqn:Hf.
  - apply first_as in Hf. lia.
  - exact Herr.
  - destruct (first_seq _ _ _ _ Hf) as (Hlo & Hhi & Hsz).
    destruct (_ <? _)%nat; [exact Herr |].
    set (s1 := at_ (String c rest) 1).
    destruct (Z.ltb_spec s1 lo); [exact Herr |].
    destruct (Z.ltb_spec hi s1); [exact Herr |]. cbn [orb].
    destruct Hsz as [[-> H2] | [[-> H3] | [-> H4]]]; cbn [Nat.leb].
    + rewrite decoded2. cbn [fst]. arith.
    + destruct (_ || _); [exact Herr |]. rewrite decoded3. cbn [fst]. arith.
    + destruct (_ || _); [exact Herr |]. destruct (_ || _); [exact Herr |].
      rewrite decoded4. cbn [fst]. arith.
Qed.

(** The first byte of an encoded rune that lies above the ASCII range, or
    is one of the letters i and k. *)
Lemma EncodeRune_head (y : Z) :
  128 <= y \/ y = 105 \/ y = 107 ->
  exists b t, EncodeRune y = String b t
              /\ (128 <= byte_val b \/ byte_val b = 105 \/ byte_val b = 107).
Proof.
  intros [Hy | [-> | ->]];
    [| do 2 eexists; split; [reflexivity | right; left; reflexivity]
     | do 2 eexists; split; [reflexivity | right; right; reflexivity]].
  assert (H3 : forall r, 2048 <= r <= 65535 ->
                 exists b t, encode3 r = String b t
                             /\ (128 <= byte_val b \/ byte_val b = 105 \/ byte_val b = 107)).
  { intros r Hr. unfold encode3. do 2 eexists. split; [reflexivity | left].
    rewrite shiftr_12, lead_byte3 by arith. arith. }
  unfold EncodeRune, rune1Max, rune2Max, rune3Max, MaxRune, surrogateMin, surrogateMax.
  replace (0 <=? y) with true by lia. replace (y <=? 127) with false by lia.
  replace (y <? 0) with false by lia. cbn [andb orb].
  destruct (Z.leb_spec y 2047).
  - do 2 eexists. split; [reflexivity | left].
    rewrite shiftr_6, lead_byte2 by arith. arith.
  - destruct ((1114111 <? y) || (55296 <=? y) && (y <=? 57343)) eqn:E.
    + apply H3. unfold RuneError. lia.
    + apply orb_false_elim in E as [E1 E2]. apply Z.ltb_ge in E1.
      destruct (Z.leb_spec y 65535); [apply H3; lia |].
      do 2 eexists. split; [reflexivity | left].
      rewrite shiftr_18, lead_byte4 by arith. arith.
Qed.

(** A byte above the ASCII range never lower-cases into a hexadecimal digit
    or a hyphen: what [ToLower] puts in its place starts with a byte above
    the ASCII range, or is the letter i or k. *)
Lemma ToLower_nonascii_head (c : ascii) (rest : string) :
  128 <= byte_val c ->
  exists b t, ToLower (String c rest) = String b t
              /\ (128 <= byte_val b \/ byte_val b = 105 \/ byte_val b = 107).
Proof.
  intros Hc. unfold ToLower, Map, range. cbn [range_from].
  pose proof (decode_nonascii c rest Hc) as Hd.
  destruct (DecodeRuneInString (String c rest)) as [r w]. cbn [fst] in Hd.
  cbn [map_runes]. cbv zeta.
  pose proof (unicode_ToLower_nonascii r ltac:(lia)) as Hy.
  destruct (EncodeRune_head _ Hy) as (b & t & He & Hb).
  replace (0 <=? unicode.ToLower r) with true by lia.
  rewrite He. exists b. eexists. split; [reflexivity | exact Hb].
Qed.

(** What [ToLower] makes of text the worker compares: ASCII letters of
    either case, and the two letters from beyond the ASCII range that
    lower-case into it. *)
Example ToLower_examples :
  ToLower "HeLLo" = "hello"
  /\ ToLower ("AC" ++ deployment.kelvin_sign) = "ack"
  /\ ToLower ("P" ++ deployment.dotted_I ++ "NG") = "ping".
Proof. repeat split. Qed.

End LibraryFacts.

(** ** worker.go *)

Import bytes strings errors simplepush deployment.

(** Unfolds the control-flow combinators on a state given by its fields. *)
Ltac run :=
  cbv [bind ret return_ return_if when panic
       get_Uaid set_Uaid get_buffer set_buffer get_self set_self
       set_stopped set_state emit record
       as_string as_array as_maps as_int with_stopped with_state
       self sock buffer trace Uaid Born].

Ltac same_trace :=
  intros st; split; [reflexivity |];
  exists []; split; [cbn; now rewrite app_nil_r | constructor].

Section Keeps.
Variable P : Effect -> bool.

Lemma appends_refl st : appends P st st.
Proof. split; [reflexivity |]. exists []. split; [now rewrite app_nil_r | constructor]. Qed.

Lemma appends_trans st1 st2 st3 :
  appends P st1 st2 -> appends P st2 st3 -> appends P st1 st3.
Proof.
  intros (Hs & m & Ht & Hm) (Hs' & m' & Ht' & Hm').
  split; [congruence |].
  exists (m ++ m'). split.
  - rewrite Ht', Ht. now rewrite app_assoc.
  - apply Forall_app. now split.
Qed.

Lemma keeps_ret {A} (a : A) : keeps P (ret a).
Proof. intros st. apply appends_refl. Qed.

Lemma keeps_return {A} e : keeps P (@return_ A e).
Proof. intros st. apply appends_refl. Qed.

Lemma keeps_panic {A} : keeps P (@panic A).
Proof. intros st. apply appends_refl. Qed.

Lemma keeps_bind {A B} (c : M A) (k : A -> M B) :
  keeps P c -> (forall a, keeps P (k a)) -> keeps P (bind c k).
Proof.
  intros Hc Hk st. unfold bind. specialize (Hc st).
  destruct (c st) as [[a | e |] st1]; cbn [snd] in *; try exact Hc.
  eapply appends_trans; [exact Hc | apply Hk].
Qed.

Lemma keeps_emit e : P e = true -> keeps P (emit e).
Proof.
  intros He st. split; [reflexivity |]. exists [e]. split; [reflexivity | now constructor].
Qed.

Lemma keeps_get_Uaid : keeps P get_Uaid.
Proof. same_trace. Qed.

Lemma keeps_get_buffer : keeps P get_buffer.
Proof. same_trace. Qed.

Lemma keeps_set_buffer m : keeps P (set_buffer m).
Proof. same_trace. Qed.

Lemma keeps_get_self : keeps P get_self.
Proof. same_trace. Qed.

Lemma keeps_set_self w : keeps P (set_self w).
Proof. same_trace. Qed.

Lemma keeps_set_stopped b : keeps P (set_stopped b).
Proof. same_trace. Qed.

Lemma keeps_set_state s : keeps P (set_state s).
Proof. same_trace. Qed.

Lemma keeps_return_if c e : keeps P (return_if c e).
Proof. destruct c; [apply keeps_return | apply keeps_ret]. Qed.

Lemma keeps_when c body : keeps P body -> keeps P (when c body).
Proof. destruct c; [trivial | intros _; apply keeps_ret]. Qed.

Lemma keeps_as_string v : keeps P (as_string v).
Proof. destruct v; first [apply keeps_ret | apply keeps_panic]. Qed.

Lemma keeps_as_array v : keeps P (as_array v).
Proof. destruct v; first [apply keeps_ret | apply keeps_panic]. Qed.

Lemma keeps_as_maps v : keeps P (as_maps v).
Proof. destruct v; first [apply keeps_ret | apply keeps_panic]. Qed.

Lemma keeps_as_int v : keeps P (as_int v).
Proof. destruct v; first [apply keeps_ret | apply keeps_panic]. Qed.

Lemma keeps_call c : keeps P c -> keeps P (call c).
Proof.
  intros Hc st. unfold call. specialize (Hc st).
  now destruct (c st) as [[a | e |] st1].
Qed.

Lemma keeps_recover c : keeps P c -> keeps P (recover c).
Proof.
  intros Hc st. unfold recover. specialize (Hc st).
  now destruct (c st) as [[a | e |] st1].
Qed.

Lemma keeps_defer {A} e (c : M A) : P e = true -> keeps P c -> keeps P (defer (record e) c).
Proof.
  intros He Hc st. unfold defer. specialize (Hc st).
  destruct (c st) as [r st1]. cbn [snd] in *.
  eapply appends_trans; [exact Hc |]. apply (keeps_emit e He st1).
Qed.

Lemma keeps_for_each {A} (l : list A) (body : A -> M unit) :
  (forall a, keeps P (body a)) -> keeps P (for_each l body).
Proof.
  intros Hb. induction l as [| a l IH]; cbn [for_each].
  - apply keeps_ret.
  - apply keeps_bind; [apply Hb | intros _; exact IH].
Qed.

Lemma keeps_handleError message err :
  P (JSON_Send (<["error" := JString (snd (ErrToStatus (Some err)))]>
                  (<["status" := JInt (fst (ErrToStatus (Some err)))]> message))) = true ->
  keeps P (handleError message err).
Proof.
  unfold handleError. destruct (ErrToStatus (Some err)) as [status text]. cbn [fst snd].
  intros HP. apply keeps_bind; [now apply keeps_emit | intros _; apply keeps_ret].
Qed.

End Keeps.

Ltac keeps_tac :=
  repeat first
    [ apply keeps_ret | apply keeps_return | apply keeps_panic
    | apply keeps_get_Uaid | apply keeps_get_buffer | apply keeps_set_buffer
    | apply keeps_get_self | apply keeps_set_self | apply keeps_set_stopped
    | apply keeps_set_state | apply keeps_return_if
    | apply keeps_as_string | apply keeps_as_array | apply keeps_as_maps
    | apply keeps_as_int
    | apply keeps_emit; reflexivity
    | apply keeps_handleError; reflexivity
    | apply keeps_when
    | apply keeps_call | apply keeps_recover
    | apply keeps_defer; [reflexivity |]
    | apply keeps_for_each; intros ?
    | apply keeps_bind; [| intros ?]
    | match goal with
      | |- keeps _ (if ?c then _ else _) => destruct c
      | |- keeps _ (match ?x with _ => _ end) => destruct x
      | |- keeps _ (let '(_, _) := ?x in _) => destruct x
      end ].

Lemma count_sent_keeps channel update : keeps is_flush_effect (count_sent channel update).
Proof. unfold count_sent. keeps_tac. Qed.

Lemma Flush_keeps env lastAccessed channel version :
  keeps is_flush_effect (Flush env lastAccessed channel version).
Proof. unfold Flush. keeps_tac. apply count_sent_keeps. Qed.

(* ---------- Hello ---------- *)

Lemma index_default_uaid (data : JsMap) (k : string) :
  k <> "uaid" -> index (default_uaid data) k = index data k.
Proof.
  intros Hk. unfold default_uaid, index.
  destruct (data !! "uaid"); [reflexivity |].
  now rewrite lookup_insert_ne by congruence.
Qed.


Lemma nat_ltb_false (n m : nat) : (m <= n)%nat -> (n <? m)%nat = false.
Proof. intros H. apply Nat.ltb_ge. exact H. Qed.

Lemma adopt_uaid_overlong env data suggested st :
  (UAID_MAX_LEN < String.length suggested)%nat ->
  adopt_uaid env data suggested st = (Return (Some InvalidDataError), adopt suggested st).
Proof.
  destruct st as [w [u born] buf tr].
  intros Hl. unfold adopt_uaid, adopt. run.
  replace (UAID_MAX_LEN <? String.length suggested)%nat with true
    by (symmetry; now apply Nat.ltb_lt).
  reflexivity.
Qed.

Lemma adopt_uaid_run env data suggested channelIDs st :
  (String.length suggested <= UAID_MAX_LEN)%nat ->
  index data "channelIDs" = JArray channelIDs ->
  adopt_uaid env data suggested st
  = (Next ((String.length suggested =? 0)%nat
           || ClientExists env suggested
           || ((0 <? Z.of_nat (List.length channelIDs))
               && ((maxChannels (self st) <? Z.of_nat (List.length channelIDs))
                   || negb (IsKnownUaid env suggested)))),
     adopt suggested st).
Proof.
  destruct st as [w [u born] buf tr]. cbn [self].
  intros Hl Hc. unfold adopt_uaid, adopt. run.
  rewrite (nat_ltb_false _ _ Hl), Hc. cbv iota beta.
  destruct (0 <? Z.of_nat (List.length channelIDs));
    destruct (String.length suggested =? 0)%nat, (ClientExists env suggested),
      (maxChannels w <? Z.of_nat (List.length channelIDs)),
      (IsKnownUaid env suggested); reflexivity.
Qed.

Lemma reset_uaid_run env st : reset_uaid env st = (Next tt, reset env st).
Proof.
  destruct st as [w [u born] buf tr].
  unfold reset_uaid, reset, reset_effects. run.
  destruct (0 <? String.length u)%nat; rewrite <- ?app_assoc; reflexivity.
Qed.

Lemma greet_run env data messageType st :
  index data "messageType" = JString messageType ->
  greet env data st =
    match Socket_Write_result env
            (hello_reply messageType
               (fst (HandleCommand env (hello_command env data (Uaid (sock st)))))
               (Uaid (sock st))) with
    | None => Flush env 0 EmptyString 0 (greeted env data messageType st)
    | Some e => (Next (Some e), greeted env data messageType st)
    end.
Proof.
  destruct st as [w [u born] buf tr].
  intros Hm. unfold greet, greeted. run.
  destruct (HandleCommand env _) as [raw args] eqn:Hh.
  rewrite Hm. run. rewrite <- !app_assoc. cbn [app].
  destruct (Socket_Write_result env _); reflexivity.
Qed.

Lemma Hello_passes_checks (env : Env) (w : Worker) (born : Z) (buf : JsMap)
    (tr : list Effect) (suggested : string) :
  index (default_uaid buf) "uaid" = JString suggested ->
  is_nil (index buf "channelIDs") = false ->
  workerFilter_Find (ToLower suggested) = None ->
  let st1 := {| self := w; sock := {| Uaid := EmptyString; Born := born |};
                buffer := default_uaid buf; trace := tr |} in
  Hello env {| self := w; sock := {| Uaid := EmptyString; Born := born |};
               buffer := buf; trace := tr |}
  = recover (forceReset <- adopt_uaid env (default_uaid buf) suggested ;;
             when forceReset (reset_uaid env) ;;
             greet env (default_uaid buf)) st1.
Proof.
  intros Hi Hc Hf st1. unfold Hello, recover. run.
  rewrite Hi, (index_default_uaid buf "channelIDs"), Hc, Hf by discriminate.
  reflexivity.
Qed.



Lemma Hello_after_adoption (env : Env) (data : JsMap) (messageType : string)
    (forceReset : bool) (st : State) :
  index data "messageType" = JString messageType ->
  let st1 := if forceReset then reset env st else st in
  exists err st' more,
    recover (when forceReset (reset_uaid env) ;; greet env data) st = (Next err, st')
    /\ sock st' = sock st1
    /\ trace st' = trace (greeted env data messageType st1) ++ more
    /\ Forall (fun e => is_flush_effect e = true) more.
Proof.
  intros Hm st1.
  assert (Hrun : (when forceReset (reset_uaid env) ;; greet env data) st
                 = greet env data st1).
  { unfold bind, when, st1. destruct forceReset.
    - now rewrite reset_uaid_run.
    - reflexivity. }
  unfold recover. rewrite Hrun, (greet_run env data messageType st1 Hm).
  destruct (Socket_Write_result env _) as [e |].
  - exists (Some e), (greeted env data messageType st1), [].
    repeat split; [now rewrite app_nil_r | constructor].
  - pose proof (Flush_keeps env 0 EmptyString 0 (greeted env data messageType st1)) as Hk.
    destruct (Flush env 0 EmptyString 0 (greeted env data messageType st1))
      as [[e | e |] st3]; cbn [snd] in Hk;
      destruct Hk as (Hs & more & Ht & Hmore);
      [exists e | exists e | exists (Some InvalidDataError)];
      exists st3, more; repeat split; trivial.
Qed.

Lemma append_assoc (a b c : string) : ((a ++ b) ++ c = a ++ b ++ c)%string.
Proof.
  induction a as [| x a IH]; [reflexivity |].
  change (String x ((a ++ b) ++ c) = String x (a ++ b ++ c))%string. now rewrite IH.
Qed.

Lemma hello_reply_text (messageType : string) (status : Z) (uaid : string) :
  let q := String (ascii_of_nat 34) EmptyString in
  hello_reply messageType status uaid
  = ("{" ++ q ++ "messageType" ++ q ++ ":" ++ q ++ messageType ++ q
     ++ "," ++ q ++ "status" ++ q ++ ":" ++ pretty status
     ++ "," ++ q ++ "uaid" ++ q ++ ":" ++ q ++ uaid ++ q ++ "}")%string.
Proof.
  cbv zeta. unfold hello_reply, quoted, dquote.
  now rewrite !append_assoc.
Qed.

(** C1 (amended).  A hello frame on a session without a UAID, whose uaid
    passes the character filter and whose channelIDs is an array.  The
    suggested UAID is stored in the session; when it is longer than 100
    bytes the frame is refused with InvalidDataError.  Otherwise the reset
    is forced exactly when the suggested UAID is empty, or a live session
    owns it, or the frame names at least one channel and either names more
    than [maxChannels] or the storage does not know the UAID.  On a reset
    the suggested UAID, if not empty, is purged from the storage, the
    session takes the UAID that [GenUUID4] returns, and the reply carries
    that UAID; without a reset nothing is purged or drawn and the reply
    carries the suggested UAID.  The reply is the text
    [{"messageType":"...","status":...,"uaid":"..."}]. *)
Theorem Hello_forceReset (env : Env) (st : State) (suggested messageType : string)
    (channelIDs : list JsVal) :
  Uaid (sock st) = EmptyString ->
  index (default_uaid (buffer st)) "uaid" = JString suggested ->
  index (buffer st) "channelIDs" = JArray channelIDs ->
  index (buffer st) "messageType" = JString messageType ->
  workerFilter_Find (ToLower suggested) = None ->
  let adopted := adopt suggested (with_buffer (default_uaid (buffer st)) st) in
  let num := Z.of_nat (List.length channelIDs) in
  let forceReset :=
    (String.length suggested =? 0)%nat
    || ClientExists env suggested
    || ((0 <? num)
        && ((maxChannels (self st) <? num) || negb (IsKnownUaid env suggested))) in
  let uaid := if forceReset then GenUUID4 env else suggested in
  let cmd := hello_command env (default_uaid (buffer st)) uaid in
  let q := String (ascii_of_nat 34) EmptyString in
  let reply :=
    ("{" ++ q ++ "messageType" ++ q ++ ":" ++ q ++ messageType ++ q
     ++ "," ++ q ++ "status" ++ q ++ ":" ++ pretty (fst (HandleCommand env cmd))
     ++ "," ++ q ++ "uaid" ++ q ++ ":" ++ q ++ uaid ++ q ++ "}")%string in
  ((UAID_MAX_LEN < String.length suggested)%nat ->
   Hello env st = (Next (Some InvalidDataError), adopted))
  /\ ((String.length suggested <= UAID_MAX_LEN)%nat ->
      exists err st' more,
        Hello env st = (Next err, st')
        /\ Uaid (sock st') = uaid
        /\ trace st' =
             trace st
             ++ (if forceReset
                 then (if (0 <? String.length suggested)%nat
                       then [Storage_PurgeUAID suggested] else [])
                      ++ [GenUUID4_call]
                 else [])
             ++ [Server_HandleCommand cmd; Socket_Write reply;
                 metrics_Increment "updates.client.hello"]
             ++ more
        /\ Forall (fun e => is_flush_effect e = true) more).
Proof.
  intros Hu Hi Hc Hm Hf adopted num forceReset uaid cmd q reply.
  destruct st as [w [u born] buf tr]. cbn [sock Uaid buffer self trace] in *. subst u.
  assert (Hc' : index (default_uaid buf) "channelIDs" = JArray channelIDs)
    by (now rewrite index_default_uaid by discriminate).
  assert (Hm' : index (default_uaid buf) "messageType" = JString messageType)
    by (now rewrite index_default_uaid by discriminate).
  rewrite (Hello_passes_checks env w born buf tr suggested Hi);
    [| now rewrite Hc | exact Hf].
  set (st1 := {| self := w; sock := {| Uaid := EmptyString; Born := born |};
                 buffer := default_uaid buf; trace := tr |}).
  split.
  - intros Hl. unfold recover, bind.
    now rewrite (adopt_uaid_overlong env (default_uaid buf) suggested st1 Hl).
  - intros Hl.
    pose proof (adopt_uaid_run env (default_uaid buf) suggested channelIDs st1 Hl Hc')
      as Ha.
    change (_ || _ || _) with forceReset in Ha.
    destruct (Hello_after_adoption env (default_uaid buf) messageType forceReset
                (adopt suggested st1) Hm')
      as (err & st' & more & Hrun & Hsock & Htrace & Hmore).
    exists err, st', more.
    assert (Hrun' :
      recover (forceReset0 <- adopt_uaid env (default_uaid buf) suggested ;;
               when forceReset0 (reset_uaid env) ;;
               greet env (default_uaid buf)) st1 = (Next err, st')).
    { unfold recover, bind at 1. rewrite Ha. exact Hrun. }
    split; [exact Hrun' |].
    unfold reply, uaid, cmd. rewrite <- hello_reply_text. clear Hrun Hrun' Ha.
    destruct forceReset;
      cbn [adopt reset greeted sock Uaid trace self buffer] in Hsock, Htrace;
      rewrite Hsock, Htrace; cbn [Uaid]; repeat split; trivial;
      unfold reset_effects, st1; cbn [trace]; rewrite <- ?app_assoc; reflexivity.
Qed.

(** A first contact that names a channel: the storage does not know the
    UAID, so the reset is forced and the session takes the drawn UAID.  A
    first contact with a UAID of 109 bytes: the frame is refused. *)
Lemma Hello_forceReset_witness :
  (exists err st',
     Hello noop_env (with_buffer (hello_frame "abc" [JString "d00d"])
                       (new_session rate_limited 0)) = (Next err, st')
     /\ Uaid (sock st') = GenUUID4 noop_env)
  /\ fst (Hello noop_env (with_buffer (hello_frame overlong_uaid [])
                            (new_session rate_limited 0)))
     = Next (Some InvalidDataError).
Proof.
  split.
  - destruct (Hello_forceReset noop_env
                (with_buffer (hello_frame "abc" [JString "d00d"])
                   (new_session rate_limited 0))
                "abc" "hello" [JString "d00d"]
                eq_refl eq_refl eq_refl eq_refl eq_refl)
      as [_ H].
    destruct H as (err & st' & more & H1 & H2 & _);
      [unfold UAID_MAX_LEN; cbn; lia |].
    exists err, st'. split; [exact H1 | exact H2].
  - destruct (Hello_forceReset noop_env
                (with_buffer (hello_frame overlong_uaid []) (new_session rate_limited 0))
                overlong_uaid "hello" []
                eq_refl eq_refl eq_refl eq_refl eq_refl)
      as [H _].
    rewrite H; [reflexivity | unfold UAID_MAX_LEN; vm_compute; lia].
Defined.

(** C1 as stated fails when [maxChannels] is negative: a frame that names
    no channel then names more channels than [maxChannels], but the count is
    compared only for a frame that names at least one, so no reset is
    forced: nothing is purged or drawn and the reply carries the suggested
    UAID. *)
Lemma Hello_negative_maxChannels :
  let st := with_buffer (hello_frame "abc" []) (new_session negative_bound 0) in
  (maxChannels (self st) <? Z.of_nat (List.length (@nil JsVal))) = true
  /\ reset_needed noop_env (self st) "abc" [] = true
  /\ fst (Hello noop_env st) = Next None
  /\ Uaid (sock (snd (Hello noop_env st))) = "abc"
  /\ trace (snd (Hello noop_env st))
     = [Server_HandleCommand (hello_command noop_env (hello_frame "abc" []) "abc");
        Socket_Write (hello_reply "hello" 200 "abc");
        metrics_Increment "updates.client.hello";
        Storage_GetUpdates "abc" 0;
        metrics_Timer "client.flush"].
Proof. repeat split. Qed.

(** *** Ping *)

Lemma Seconds_int_nonpos (d : Z) : d <= 0 -> Seconds_int d <= 0.
Proof.
  intros Hd. unfold Seconds_int, Second.
  pose proof (Z.quot_opp_l (- d) 1000000000 ltac:(lia)) as Hq.
  rewrite Z.opp_involutive in Hq. rewrite Hq.
  pose proof (Z.quot_pos (- d) 1000000000 ltac:(lia) ltac:(lia)). lia.
Qed.

(** C2 (as the code behaves).  With a positive [pingInt] and a clock that
    has not gone back behind [lastPing], every ping is refused: no reply is
    sent, [stopped] is set and TooManyPingsError is returned, however long
    ago the last ping was.  The handler subtracts the current time from
    [lastPing], which is never positive, and [lastPing] is never updated. *)
Theorem Ping_refuses_every_ping (env : Env) (st : State) :
  0 < pingInt (self st) ->
  lastPing (self st) <= time_Now env ->
  Ping env st = (Next (Some TooManyPingsError), refused_ping st)
  /\ frames_sent (refused_ping st) = frames_sent st
  /\ stopped (self (refused_ping st)) = true.
Proof.
  intros Hp Hnow. destruct st as [w [u born] buf tr]. cbn [self] in *.
  split; [| split; [| reflexivity]].
  - unfold Ping, call, refused_ping. run.
    replace (0 <? pingInt w) with true by lia.
    pose proof (Seconds_int_nonpos (Time_Sub (lastPing w) (time_Now env))
                  ltac:(unfold Time_Sub; lia)) as Hs.
    replace (Seconds_int (Time_Sub (lastPing w) (time_Now env)) <? pingInt w)
      with true by lia.
    reflexivity.
  - unfold frames_sent, refused_ping. cbn [trace].
    rewrite List.filter_app. cbn. now rewrite app_nil_r.
Qed.

(** A worker with [client.min_ping_interval = 5], created at time 0, pinged
    for the first time ten seconds later. *)
Lemma Ping_refuses_after_interval :
  Ping noop_env (with_buffer ping_frame (new_session rate_limited 0))
  = (Next (Some TooManyPingsError),
     refused_ping (with_buffer ping_frame (new_session rate_limited 0)))
  /\ time_Now noop_env - lastPing (self (new_session rate_limited 0)) = 10 * Second.
Proof.
  split; [| reflexivity].
  apply (Ping_refuses_every_ping noop_env
           (with_buffer ping_frame (new_session rate_limited 0)));
    [reflexivity | discriminate].
Defined.

(** *** Commands before hello *)

Lemma Ack_without_uaid (env : Env) (st : State) :
  Uaid (sock st) = EmptyString -> Ack env st = (Next (Some InvalidCommandError), st).
Proof.
  destruct st as [w [u born] buf tr]. cbn [sock Uaid]. intros ->. reflexivity.
Qed.

Lemma Register_without_uaid (env : Env) (st : State) :
  Uaid (sock st) = EmptyString -> Register env st = (Next (Some InvalidCommandError), st).
Proof.
  destruct st as [w [u born] buf tr]. cbn [sock Uaid]. intros ->. reflexivity.
Qed.

Lemma Unregister_without_uaid (env : Env) (st : State) :
  Uaid (sock st) = EmptyString -> Unregister env st = (Next (Some InvalidCommandError), st).
Proof.
  destruct st as [w [u born] buf tr]. cbn [sock Uaid]. intros ->. reflexivity.
Qed.

Lemma Ping_any_uaid (env : Env) (st : State) (u : string) :
  fst (Ping env st) <> Next (Some InvalidCommandError)
  /\ Ping env (adopt u st) = (fst (Ping env st), adopt u (snd (Ping env st))).
Proof.
  destruct st as [w [u0 born] buf tr]. unfold Ping, call, adopt. run.
  destruct (_ && _); [split; [discriminate | reflexivity] |].
  destruct (pushLongPongs (app w)); split; first [discriminate | reflexivity].
Qed.

Lemma Purge_any_uaid (env : Env) (st : State) (u : string) :
  fst (Purge env st) <> Next (Some InvalidCommandError)
  /\ Purge env (adopt u st) = (fst (Purge env st), adopt u (snd (Purge env st))).
Proof.
  destruct st as [w [u0 born] buf tr]. split; [discriminate | reflexivity].
Qed.

(** C3 (amended).  On a session whose UAID is still empty (no hello was
    accepted): an ack, register or unregister frame is answered with
    InvalidCommandError, whatever the frame holds, and nothing else happens;
    a ping or purge frame is never answered with InvalidCommandError: these
    two handlers do not read the session's UAID, so they return the same
    result and have the same effects as on a session that owns a UAID. *)
Theorem command_before_hello (env : Env) (st : State) (messageType : string) :
  Uaid (sock st) = EmptyString ->
  (In messageType ["ack"; "register"; "unregister"] ->
   dispatch env messageType st = (Next (Some InvalidCommandError), st))
  /\ (In messageType ["ping"; "purge"] ->
      fst (dispatch env messageType st) <> Next (Some InvalidCommandError)
      /\ forall u,
           dispatch env messageType (adopt u st)
           = (fst (dispatch env messageType st),
              adopt u (snd (dispatch env messageType st)))).
Proof.
  intros Hu. split.
  - intros [<- | [<- | [<- | []]]]; cbn [dispatch String.eqb Ascii.eqb Bool.eqb].
    + now apply Ack_without_uaid.
    + now apply Register_without_uaid.
    + now apply Unregister_without_uaid.
  - intros [<- | [<- | []]]; cbn [dispatch String.eqb Ascii.eqb Bool.eqb].
    + split; [apply (Ping_any_uaid env st EmptyString) | intros u; apply Ping_any_uaid].
    + split; [apply (Purge_any_uaid env st EmptyString) | intros u; apply Purge_any_uaid].
Qed.

Lemma command_before_hello_witness :
  dispatch noop_env "register"
    (with_buffer (frame [("messageType", JString "register"); ("channelID", JString "d00d")])
       (new_session rate_limited 0))
  = (Next (Some InvalidCommandError),
     with_buffer (frame [("messageType", JString "register"); ("channelID", JString "d00d")])
       (new_session rate_limited 0))
  /\ fst (dispatch noop_env "purge" (new_session rate_limited 0))
     <> Next (Some InvalidCommandError).
Proof.
  split.
  - apply (proj1 (command_before_hello noop_env
                    (with_buffer (frame [("messageType", JString "register");
                                         ("channelID", JString "d00d")])
                       (new_session rate_limited 0)) "register" eq_refl)).
    simpl. tauto.
  - apply (proj2 (command_before_hello noop_env (new_session rate_limited 0) "purge"
                    eq_refl)).
    simpl. tauto.
Defined.

(** C3 as stated fails: a purge frame, and a ping on a worker without a rate
    limit, are answered before any hello, with a reply frame and a nil error. *)
Lemma purge_and_ping_before_hello :
  Uaid (sock (new_session unlimited 0)) = EmptyString
  /\ dispatch noop_env "purge" (with_buffer (frame [("messageType", JString "purge")])
                                  (new_session unlimited 0))
     = (Next None,
        record (JSON_Send ∅)
          (with_buffer (frame [("messageType", JString "purge")]) (new_session unlimited 0)))
  /\ fst (dispatch noop_env "ping" (with_buffer ping_frame (new_session unlimited 0)))
     = Next None
  /\ frames_sent (snd (dispatch noop_env "ping"
                         (with_buffer ping_frame (new_session unlimited 0))))
     = [Message_Send "{}"].
Proof. repeat split. Qed.

(** *** Unregister *)

Lemma eqb_nonempty (u : string) : u <> EmptyString -> (u =? EmptyString)%string = false.
Proof. intros Hu. now apply String.eqb_neq. Qed.

(** C4 (amended).  An unregister frame on a session that has a UAID: when
    the channelID field is missing (or null) the handler returns
    MissingDataError and sends nothing; when it is a string the handler asks
    the storage to delete the channel, sends the reply with status 200 and
    returns nil, whatever the storage answers; when it is present but is no
    string the handler recovers from the failed type assertion and returns
    InvalidDataError, and has neither asked the storage nor sent a reply. *)
Theorem Unregister_replies (env : Env) (st : State) :
  Uaid (sock st) <> EmptyString ->
  (is_nil (index (buffer st) "channelID") = true ->
   Unregister env st = (Next (Some MissingDataError), st))
  /\ (forall appid, index (buffer st) "channelID" = JString appid ->
      Unregister env st = (Next None, unregistered appid st)
      /\ index (unregister_reply (buffer st) appid) "status" = JInt 200)
  /\ (is_nil (index (buffer st) "channelID") = false ->
      (forall appid, index (buffer st) "channelID" <> JString appid) ->
      Unregister env st = (Next (Some InvalidDataError), st)).
Proof.
  intros Hu. destruct st as [w [u born] buf tr]. cbn [sock Uaid buffer] in *.
  apply eqb_nonempty in Hu.
  split; [| split].
  - intros Hnil. unfold Unregister, recover. run. now rewrite Hu, Hnil.
  - intros appid Hc. split; [| reflexivity].
    unfold Unregister, recover, unregistered. run. rewrite Hu, Hc.
    cbv [is_nil]. cbn [sock Uaid buffer trace self].
    rewrite <- !app_assoc. reflexivity.
  - intros Hnn Hns. unfold Unregister, recover. run. rewrite Hu.
    destruct (index buf "channelID") as [| | | | appid | | | |];
      try discriminate Hnn; try reflexivity.
    now destruct (Hns appid).
Qed.

(** The storage fails to delete, the client is told 200 all the same; a
    frame without a channelID and one whose channelID is a list are refused. *)
Lemma Unregister_replies_witness :
  DeleteAppID_result failing_delete_env "abc" "d00d" false
    = Some (OtherError "storage unavailable")
  /\ Unregister failing_delete_env
       (with_buffer (frame [("messageType", JString "unregister");
                            ("channelID", JString "d00d")])
          (session_of unlimited "abc"))
     = (Next None,
        unregistered "d00d"
          (with_buffer (frame [("messageType", JString "unregister");
                               ("channelID", JString "d00d")])
             (session_of unlimited "abc")))
  /\ fst (Unregister noop_env
            (with_buffer (frame [("messageType", JString "unregister")])
               (session_of unlimited "abc")))
     = Next (Some MissingDataError)
  /\ fst (Unregister noop_env
            (with_buffer (frame [("messageType", JString "unregister");
                                 ("channelID", JArray [JString "d00d"])])
               (session_of unlimited "abc")))
     = Next (Some InvalidDataError).
Proof.
  split; [reflexivity |]. split; [| split].
  - apply (proj1 (proj2 (Unregister_replies failing_delete_env
                           (with_buffer (frame [("messageType", JString "unregister");
                                                ("channelID", JString "d00d")])
                              (session_of unlimited "abc"))
                           ltac:(discriminate))) "d00d").
    reflexivity.
  - rewrite (proj1 (Unregister_replies noop_env
                      (with_buffer (frame [("messageType", JString "unregister")])
                         (session_of unlimited "abc"))
                      ltac:(discriminate)));
      reflexivity.
  - rewrite (proj2 (proj2 (Unregister_replies noop_env
                             (with_buffer (frame [("messageType", JString "unregister");
                                                  ("channelID", JArray [JString "d00d"])])
                                (session_of unlimited "abc"))
                             ltac:(discriminate))));
      [reflexivity | reflexivity | intros appid; discriminate].
Defined.

(** C4 as stated fails: a channelID that is present but is a number gets no
    reply with status 200; the handler returns InvalidDataError and has sent
    nothing. *)
Lemma Unregister_numeric_channelID :
  index (frame [("messageType", JString "unregister"); ("channelID", JFloat64 5)])
        "channelID" = JFloat64 5
  /\ Unregister noop_env
       (with_buffer (frame [("messageType", JString "unregister");
                            ("channelID", JFloat64 5)])
          (session_of unlimited "abc"))
     = (Next (Some InvalidDataError),
        with_buffer (frame [("messageType", JString "unregister");
                            ("channelID", JFloat64 5)])
          (session_of unlimited "abc")).
Proof. split; reflexivity. Qed.

(** *** The hello timeout *)

Lemma frames_sent_record (e : Effect) (st : State) :
  frames_sent (record e st) = frames_sent st ++ (if is_frame e then [e] else []).
Proof.
  unfold frames_sent, record. cbn [trace]. rewrite List.filter_app. cbn [List.filter].
  now destruct (is_frame e).
Qed.

Lemma socket_closed_record_close (st : State) : socket_closed (record Socket_Close st) = true.
Proof.
  unfold socket_closed, record. cbn [trace]. rewrite existsb_app. cbn.
  apply orb_true_r.
Qed.

Lemma nonempty_size (m : JsMap) k v : m !! k = Some v -> (size m =? 0)%nat = false.
Proof.
  intros H. apply Nat.eqb_neq. intros Hz. apply map_size_empty_iff in Hz.
  subst m. now rewrite lookup_empty in H.
Qed.

Lemma pass_started_checks raw :
  raw <> EmptyString -> raw <> "{}" ->
  (String.length raw <=? 0)%nat = false /\ (raw =? "{}")%string = false.
Proof.
  intros H1 H2. split.
  - destruct raw; [contradiction | reflexivity].
  - now apply String.eqb_neq.
Qed.

(** Once the socket is closed, a session without a UAID writes no frame:
    the timer can only close again, and the next receive fails and stops
    the loop. *)
Lemma closed_sniffer_silent (events : list Event) (st : State) :
  socket_closed st = true -> Uaid (sock st) = EmptyString ->
  frames_sent (snd (sniffer events st)) = frames_sent st.
Proof.
  revert st. induction events as [| ev events IH]; intros st Hc Hu; cbn [sniffer].
  - now destruct (stopped (self st)).
  - destruct (stopped (self st)) eqn:Hs; [reflexivity |].
    destruct ev as [env r |].
    + rewrite Hc.
      change (sniffer_pass env (ReceiveError closed_error) st)
        with (Next tt, halted (with_buffer ∅ st)).
      destruct events; reflexivity.
    + unfold helloTimeoutFunc. rewrite Hu. cbn [String.eqb].
      rewrite IH; [| apply socket_closed_record_close | exact Hu].
      rewrite frames_sent_record. cbn [is_frame]. apply app_nil_r.
Qed.

(** A purge frame on a running session: the reply [{}] is written, nothing
    else changes but the frame's map. *)
Lemma purge_pass (env : Env) (raw : string) (m : JsMap) (st : State) :
  raw <> EmptyString -> raw <> "{}" ->
  m !! "messageType" = Some (JString "purge") ->
  sniffer_pass env (ReceiveRaw raw (Some m)) st
  = (Next tt, after [JSON_Send ∅] (with_buffer m st)).
Proof.
  intros Hr1 Hr2 Hm.
  destruct (pass_started_checks raw Hr1 Hr2) as [Hl Hq].
  destruct st as [w s buf tr].
  unfold sniffer_pass, sniffer_frame. cbv [bind set_buffer ret self sock buffer trace].
  rewrite Hl, Hq, (nonempty_size m _ _ Hm). unfold index. rewrite Hm.
  cbn [is_string String.eqb Ascii.eqb Bool.eqb].
  change (ToLower "purge") with "purge".
  rewrite (insert_id m "messageType" _ Hm). reflexivity.
Qed.

(** C6 (amended).  When the hello timer fires on a session whose UAID is
    still empty, the socket is closed.  The timer itself writes no frame,
    and none is written afterwards, whatever arrives.  Frames may have been
    written before: a purge frame that arrives before the deadline is
    answered, and the close follows the reply. *)
Theorem helloTimeout_closes (st : State) (rest : list Event) :
  Uaid (sock st) = EmptyString ->
  trace (helloTimeoutFunc st) = trace st ++ [Socket_Close]
  /\ socket_closed (helloTimeoutFunc st) = true
  /\ frames_sent (helloTimeoutFunc st) = frames_sent st
  /\ frames_sent (Run (HelloTimeout :: rest) st) = frames_sent st
  /\ (forall env raw m,
        stopped (self st) = false -> socket_closed st = false ->
        raw <> EmptyString -> raw <> "{}" ->
        m !! "messageType" = Some (JString "purge") ->
        trace (Run [Receive env (ReceiveRaw raw (Some m)); HelloTimeout] st)
        = trace st ++ [JSON_Send ∅; Socket_Close]).
Proof.
  intros Hu.
  assert (Ht : helloTimeoutFunc st = record Socket_Close st).
  { unfold helloTimeoutFunc. now rewrite Hu. }
  assert (Hf : frames_sent (record Socket_Close st) = frames_sent st).
  { rewrite frames_sent_record. cbn [is_frame]. apply app_nil_r. }
  rewrite Ht. split; [reflexivity |]. split; [apply socket_closed_record_close |].
  split; [exact Hf |]. split.
  - unfold Run. cbn [sniffer]. rewrite Ht.
    destruct (stopped (self st)) eqn:Hs; [exact Hf |].
    pose proof (closed_sniffer_silent rest (record Socket_Close st)
                  (socket_closed_record_close st) Hu) as Hsilent.
    destruct (sniffer rest (record Socket_Close st)) as [[[] | e |] st'];
      cbn [snd] in Hsilent;
      rewrite ?frames_sent_record; cbn [is_frame]; rewrite ?app_nil_r;
      now rewrite Hsilent.
  - intros env raw m Hs Hc Hr1 Hr2 Hm.
    unfold Run. cbn [sniffer]. rewrite Hs, Hc, (purge_pass env raw m st Hr1 Hr2 Hm).
    destruct st as [w [u born] buf tr]. cbn [self sock Uaid] in Hs, Hu. subst u.
    cbn [sniffer after with_buffer helloTimeoutFunc record self sock Uaid buffer trace
         String.eqb].
    rewrite Hs. unfold record, after, with_buffer. cbn [trace]. now rewrite <- app_assoc.
Qed.

Lemma helloTimeout_closes_witness :
  trace (helloTimeoutFunc (new_session rate_limited 0)) = [Socket_Close]
  /\ frames_sent (Run [HelloTimeout; Receive noop_env (received (hello_frame "" []))]
                    (new_session rate_limited 0)) = []
  /\ trace (Run [Receive noop_env (received (frame [("messageType", JString "purge");
                                                     ("uaid", JString "abc")]));
                  HelloTimeout]
              (new_session rate_limited 0))
     = [JSON_Send ∅; Socket_Close].
Proof.
  destruct (helloTimeout_closes (new_session rate_limited 0)
              [Receive noop_env (received (hello_frame "" []))])
    as (H1 & _ & _ & H4 & H5); [reflexivity |].
  split; [exact H1 |]. split; [exact H4 |].
  apply (H5 noop_env "{...}" (frame [("messageType", JString "purge");
                                     ("uaid", JString "abc")]));
    [reflexivity | reflexivity | discriminate | discriminate | reflexivity].
Defined.

(** C6 as stated fails: a purge frame sent before any hello is answered,
    so when the timer then closes the socket of the session, whose UAID is
    still empty, a reply frame has been sent before the close. *)
Lemma purge_before_helloTimeout :
  let st := Run [Receive noop_env (received (frame [("messageType", JString "purge")]));
                 HelloTimeout]
              (new_session rate_limited 0) in
  Uaid (sock st) = EmptyString
  /\ trace st = [JSON_Send ∅; Socket_Close]
  /\ frames_sent st = [JSON_Send ∅].
Proof. repeat split. Qed.

(* ===================================================================== *)
(** * Further properties of worker.go *)
(* ===================================================================== *)

(** ** What the handlers leave alone *)

Section Preserves.
Variable R : State -> State -> Prop.
Hypothesis R_refl : forall st, R st st.
Hypothesis R_trans : forall st1 st2 st3, R st1 st2 -> R st2 st3 -> R st1 st3.
Hypothesis R_record : forall e st, R st (record e st).
Hypothesis R_buffer : forall m st, R st (with_buffer m st).
Hypothesis R_stopped :
  forall b st, R st {| self := with_stopped b (self st); sock := sock st;
                       buffer := buffer st; trace := trace st |}.

Lemma preserves_ret {A} (a : A) : preserves R (ret a).
Proof. intros st. apply R_refl. Qed.

Lemma preserves_return {A} e : preserves R (@return_ A e).
Proof. intros st. apply R_refl. Qed.

Lemma preserves_panic {A} : preserves R (@panic A).
Proof. intros st. apply R_refl. Qed.

Lemma preserves_bind {A B} (c : M A) (k : A -> M B) :
  preserves R c -> (forall a, preserves R (k a)) -> preserves R (bind c k).
Proof.
  intros Hc Hk st. unfold bind. specialize (Hc st).
  destruct (c st) as [[a | e |] st1]; cbn [snd] in *; try exact Hc.
  eapply R_trans; [exact Hc | apply Hk].
Qed.

Lemma preserves_emit e : preserves R (emit e).
Proof. intros st. apply R_record. Qed.

Lemma preserves_get_Uaid : preserves R get_Uaid.
Proof. intros st. apply R_refl. Qed.

Lemma preserves_get_buffer : preserves R get_buffer.
Proof. intros st. apply R_refl. Qed.

Lemma preserves_get_self : preserves R get_self.
Proof. intros st. apply R_refl. Qed.

Lemma preserves_set_buffer m : preserves R (set_buffer m).
Proof. intros st. apply R_buffer. Qed.

Lemma preserves_set_stopped b : preserves R (set_stopped b).
Proof. intros st. apply R_stopped. Qed.

Lemma preserves_return_if c e : preserves R (return_if c e).
Proof. destruct c; [apply preserves_return | apply preserves_ret]. Qed.

Lemma preserves_when c body : preserves R body -> preserves R (when c body).
Proof. destruct c; [trivial | intros _; apply preserves_ret]. Qed.

Lemma preserves_as_string v : preserves R (as_string v).
Proof. destruct v; first [apply preserves_ret | apply preserves_panic]. Qed.

Lemma preserves_as_array v : preserves R (as_array v).
Proof. destruct v; first [apply preserves_ret | apply preserves_panic]. Qed.

Lemma preserves_as_maps v : preserves R (as_maps v).
Proof. destruct v; first [apply preserves_ret | apply preserves_panic]. Qed.

Lemma preserves_as_int v : preserves R (as_int v).
Proof. destruct v; first [apply preserves_ret | apply preserves_panic]. Qed.

Lemma preserves_call c : preserves R c -> preserves R (call c).
Proof.
  intros Hc st. unfold call. specialize (Hc st).
  now destruct (c st) as [[a | e |] st1].
Qed.

Lemma preserves_recover c : preserves R c -> preserves R (recover c).
Proof.
  intros Hc st. unfold recover. specialize (Hc st).
  now destruct (c st) as [[a | e |] st1].
Qed.

Lemma preserves_defer {A} e (c : M A) : preserves R c -> preserves R (defer (record e) c).
Proof.
  intros Hc st. unfold defer. specialize (Hc st).
  destruct (c st) as [r st1]. cbn [snd] in *.
  eapply R_trans; [exact Hc | apply R_record].
Qed.

Lemma preserves_for_each {A} (l : list A) (body : A -> M unit) :
  (forall a, preserves R (body a)) -> preserves R (for_each l body).
Proof.
  intros Hb. induction l as [| a l IH]; cbn [for_each].
  - apply preserves_ret.
  - apply preserves_bind; [apply Hb | intros _; exact IH].
Qed.

Lemma preserves_handleError message err : preserves R (handleError message err).
Proof.
  unfold handleError. destruct (ErrToStatus (Some err)) as [status text].
  apply preserves_bind; [apply preserves_emit | intros _; apply preserves_ret].
Qed.

Ltac preserves_tac :=
  repeat first
    [ apply preserves_ret | apply preserves_return | apply preserves_panic
    | apply preserves_get_Uaid | apply preserves_get_buffer | apply preserves_set_buffer
    | apply preserves_get_self | apply preserves_set_stopped
    | apply preserves_return_if
    | apply preserves_as_string | apply preserves_as_array | apply preserves_as_maps
    | apply preserves_as_int
    | apply preserves_emit
    | apply preserves_handleError
    | apply preserves_when
    | apply preserves_call | apply preserves_recover
    | apply preserves_defer
    | apply preserves_for_each; intros ?
    | apply preserves_bind; [| intros ?]
    | match goal with
      | |- preserves _ (if ?c then _ else _) => destruct c
      | |- preserves _ (match ?x with _ => _ end) => destruct x
      | |- preserves _ (let '(_, _) := ?x in _) => destruct x
      end ].

Lemma count_sent_preserves channel update : preserves R (count_sent channel update).
Proof. unfold count_sent. preserves_tac. Qed.

Lemma Flush_preserves env lastAccessed channel version :
  preserves R (Flush env lastAccessed channel version).
Proof. unfold Flush. preserves_tac. apply count_sent_preserves. Qed.

Lemma Ack_preserves env : preserves R (Ack env).
Proof. unfold Ack. preserves_tac; apply count_sent_preserves. Qed.

Lemma Register_preserves env : preserves R (Register env).
Proof. unfold Register. preserves_tac. Qed.

Lemma Unregister_preserves env : preserves R (Unregister env).
Proof. unfold Unregister. preserves_tac. Qed.

Lemma Ping_preserves env : preserves R (Ping env).
Proof. unfold Ping. preserves_tac. Qed.

Lemma Purge_preserves env : preserves R (Purge env).
Proof. unfold Purge. preserves_tac. Qed.

Lemma after_command_preserves err : preserves R (after_command err).
Proof. unfold after_command. preserves_tac. Qed.

End Preserves.

Lemma steady_refl st : steady st st.
Proof. now split. Qed.

Lemma steady_trans st1 st2 st3 : steady st1 st2 -> steady st2 st3 -> steady st1 st3.
Proof. intros [H1 H2] [H3 H4]. split; congruence. Qed.

Lemma steady_record e st : steady st (record e st).
Proof. now split. Qed.

Lemma steady_buffer m st : steady st (with_buffer m st).
Proof. now split. Qed.

Lemma steady_stopped b st :
  steady st {| self := with_stopped b (self st); sock := sock st;
               buffer := buffer st; trace := trace st |}.
Proof. now split. Qed.

Ltac steady_tac lem :=
  apply lem;
  solve [ exact steady_refl | exact steady_trans | exact steady_record
        | exact steady_buffer | exact steady_stopped ].

Lemma dispatch_steady env messageType :
  messageType <> "hello" -> preserves steady (dispatch env messageType).
Proof.
  intros Hm. unfold dispatch.
  destruct (String.eqb_spec messageType "hello") as [-> | _]; [contradiction |].
  repeat match goal with
         | |- preserves _ (if ?c then _ else _) => destruct c
         end.
  - steady_tac Ack_preserves.
  - steady_tac Register_preserves.
  - steady_tac Unregister_preserves.
  - steady_tac Ping_preserves.
  - steady_tac Purge_preserves.
  - intros st. apply steady_refl.
Qed.

Lemma inv_stopped st : stopped (self st) = true -> session_inv st.
Proof. intros H1 H2. congruence. Qed.

Lemma inv_steady st st' :
  stopped (self st) = false -> session_inv st -> steady st st' -> session_inv st'.
Proof.
  intros Hs Hi [H1 H2] _. rewrite H1, H2. now apply Hi.
Qed.

Lemma Flush_without_uaid env lastAccessed channel version st :
  Uaid (sock st) = EmptyString ->
  Flush env lastAccessed channel version st
  = (Next None,
     {| self := with_stopped true (self st); sock := sock st; buffer := buffer st;
        trace := trace st ++ [metrics_Timer "client.flush"] |}).
Proof.
  destruct st as [w [u born] buf tr]. cbn [sock Uaid]. intros ->. reflexivity.
Qed.

Lemma greet_accepts env data st err st' :
  recover (greet env data) st = (Next err, st') ->
  err = None ->
  state (self st') = ACTIVE
  /\ (stopped (self st') = false -> Uaid (sock st') <> EmptyString).
Proof.
  intros Hrun ->.
  destruct st as [w [u born] buf tr].
  unfold recover, greet in Hrun.
  cbv [bind ret get_Uaid emit record set_state get_self set_self with_state
       self sock buffer trace Uaid Born] in Hrun.
  destruct (HandleCommand env _) as [raw args].
  destruct (index data "messageType") as [| | | | mt | | | |];
    cbv [as_string panic ret] in Hrun; try discriminate Hrun.
  destruct (Socket_Write_result env (hello_reply mt raw u)) as [e |];
    [discriminate Hrun |].
  match type of Hrun with
  | context [Flush env 0 EmptyString 0 ?s] => set (st2 := s) in Hrun
  end.
  assert (Hsteady : preserves steady (Flush env 0 EmptyString 0))
    by steady_tac Flush_preserves.
  destruct (Hsteady st2) as [Hsock Hstate].
  pose proof (Flush_without_uaid env 0 EmptyString 0 st2) as Hempty.
  destruct (Flush env 0 EmptyString 0 st2) as [[e | e |] st3]; cbn [snd] in *;
    try discriminate Hrun; injection Hrun as He Hst; subst st';
    (split; [exact Hstate |]);
    intros Hns Hu; rewrite Hsock in Hu; specialize (Hempty Hu);
    injection Hempty as _ Hst3; rewrite Hst3 in Hns; discriminate Hns.
Qed.

Lemma loud_ret {A} (a : A) : loud (ret a).
Proof. intros st st'. discriminate. Qed.

Lemma loud_panic {A} : loud (@panic A).
Proof. intros st st'. discriminate. Qed.

Lemma loud_return {A} e : loud (@return_ A (Some e)).
Proof. intros st st'. discriminate. Qed.

Lemma loud_return_if c e : loud (return_if c (Some e)).
Proof. destruct c; [apply loud_return | apply loud_ret]. Qed.

Lemma loud_bind {A B} (c : M A) (k : A -> M B) :
  loud c -> (forall a, loud (k a)) -> loud (bind c k).
Proof.
  intros Hc Hk st st'. unfold bind. specialize (Hc st).
  destruct (c st) as [[a | [e |] |] st1]; try discriminate.
  - apply Hk.
  - intros H. injection H as <-. now apply (Hc st1).
Qed.

Lemma loud_when c body : loud body -> loud (when c body).
Proof. destruct c; [trivial | intros _; apply loud_ret]. Qed.

Lemma loud_as_string v : loud (as_string v).
Proof. destruct v; first [apply loud_ret | apply loud_panic]. Qed.

Lemma loud_as_array v : loud (as_array v).
Proof. destruct v; first [apply loud_ret | apply loud_panic]. Qed.

Ltac loud_tac :=
  repeat first
    [ apply loud_ret | apply loud_panic | apply loud_return | apply loud_return_if
    | apply loud_as_string | apply loud_as_array
    | apply loud_when
    | apply loud_bind; [| intros ?]
    | match goal with
      | |- loud (if ?c then _ else _) => destruct c
      end
    | progress cbv zeta
    | (intros ? ?;
       cbv [get_buffer set_buffer get_Uaid set_Uaid get_self set_self emit
            set_stopped set_state bind];
       discriminate) ].

Lemma adopt_uaid_loud env data suggested : loud (adopt_uaid env data suggested).
Proof. unfold adopt_uaid. loud_tac. Qed.

Lemma reset_uaid_loud env : loud (reset_uaid env).
Proof. unfold reset_uaid. loud_tac. Qed.

Lemma recover_bind_accepts {A} (c : M A) (k : A -> M (option error)) st st' :
  loud c ->
  recover (bind c k) st = (Next None, st') ->
  exists a st1, c st = (Next a, st1) /\ recover (k a) st1 = (Next None, st').
Proof.
  intros Hc. unfold recover, bind. specialize (Hc st).
  destruct (c st) as [[a | [e |] |] st1]; try discriminate.
  - intros H. now exists a, st1.
  - now destruct (Hc st1).
Qed.

Lemma Hello_accepts env st st' :
  Hello env st = (Next None, st') ->
  state (self st') = ACTIVE
  /\ (stopped (self st') = false -> Uaid (sock st') <> EmptyString).
Proof.
  intros Hrun. unfold Hello in Hrun.
  do 8 (apply recover_bind_accepts in Hrun;
          [destruct Hrun as (? & ? & _ & Hrun) | solve [loud_tac]]).
  apply recover_bind_accepts in Hrun.
  - destruct Hrun as (? & ? & _ & Hrun). now apply (greet_accepts _ _ _ None _ Hrun).
  - apply loud_when. apply reset_uaid_loud.
  Unshelve. all: try exact tt.
Qed.

Lemma after_command_stops e st :
  stopped (self (snd (after_command (Some e) st))) = true.
Proof.
  unfold after_command, handleError. destruct (ErrToStatus (Some e)) as [status text].
  destruct st as [w s buf tr]. reflexivity.
Qed.

Lemma recover_next c st : exists err st', recover c st = (Next err, st').
Proof. unfold recover. destruct (c st) as [[a | e |] st1]; eauto. Qed.

Lemma Hello_returns env st : exists err st', Hello env st = (Next err, st').
Proof. unfold Hello. apply recover_next. Qed.

(** The tail of a pass keeps the invariant, for Hello as for the others. *)
Lemma command_pass_inv env messageType st :
  stopped (self st) = false -> session_inv st ->
  session_inv (snd ((err <- dispatch env messageType ;; after_command err) st)).
Proof.
  intros Hs Hi.
  destruct (String.eqb_spec messageType "hello") as [-> | Hm].
  - change (dispatch env "hello") with (Hello env). unfold bind.
    destruct (Hello_returns env st) as (err & st' & Hrun). rewrite Hrun.
    destruct err as [e |].
    + apply inv_stopped, after_command_stops.
    + cbn [after_command ret snd]. destruct (Hello_accepts env st st' Hrun) as [Ha Hu].
      intros Hns. right. split; [exact Ha | now apply Hu].
  - apply (inv_steady st); trivial.
    assert (Hp : preserves steady (err <- dispatch env messageType ;; after_command err)).
    { apply preserves_bind; [exact steady_trans | now apply dispatch_steady |].
      intros err. steady_tac after_command_preserves. }
    apply Hp.
Qed.

Lemma handleError_then_stop message e st :
  stopped (self (snd ((_ <- handleError message e ;; set_stopped true) st))) = true.
Proof.
  unfold handleError. destruct (ErrToStatus (Some e)) as [status text].
  destruct st as [w s buf tr]. reflexivity.
Qed.

Lemma sniffer_frame_inv env frame st :
  stopped (self st) = false -> session_inv st ->
  session_inv (snd (sniffer_frame env frame (with_buffer ∅ st))).
Proof.
  intros Hs Hi. unfold sniffer_frame. unfold bind at 1. cbn [set_buffer].
  destruct (is_string (index frame "messageType") "ping").
  - change (Ping env) with (dispatch env "ping").
    apply command_pass_inv; [exact Hs | exact Hi].
  - destruct (frame !! "messageType") as [mt |].
    + unfold bind at 1. cbn [set_buffer].
      apply command_pass_inv; [exact Hs | exact Hi].
    + apply inv_stopped. apply handleError_then_stop.
Qed.

Lemma sniffer_pass_inv env r st :
  stopped (self st) = false -> session_inv st ->
  session_inv (snd (sniffer_pass env r st)).
Proof.
  intros Hs Hi. unfold sniffer_pass. unfold bind at 1. cbn [set_buffer].
  change {| self := self st; sock := sock st; buffer := ∅; trace := trace st |}
    with (with_buffer ∅ st).
  destruct r as [e | raw parsed | raw].
  - apply inv_stopped. reflexivity.
  - destruct (String.length raw <=? 0)%nat; [exact Hi |].
    match goal with
    | |- context [match ?d with Some _ => _ | None => set_stopped true end] =>
        destruct d as [frame |]
    end; [| apply inv_stopped; reflexivity].
    now apply sniffer_frame_inv.
  - destruct (String.length raw <=? 0)%nat; [exact Hi |].
    destruct (raw =? "{}")%string; [now apply sniffer_frame_inv | exact Hi].
Qed.

Lemma helloTimeoutFunc_steady st : steady st (helloTimeoutFunc st).
Proof.
  unfold helloTimeoutFunc. destruct (String.eqb _ _); [apply steady_record | apply steady_refl].
Qed.

Lemma sniffer_inv events st :
  session_inv st -> session_inv (snd (sniffer events st)).
Proof.
  revert st. induction events as [| ev events IH]; intros st Hi; cbn [sniffer].
  - now destruct (stopped (self st)).
  - destruct (stopped (self st)) eqn:Hs; [exact Hi |].
    destruct ev as [env r |].
    + pose proof (sniffer_pass_inv env
                    (if socket_closed st then ReceiveError closed_error else r)
                    st Hs Hi) as Hp.
      destruct (sniffer_pass env _ st) as [[[] | e |] st1]; cbn [snd] in *;
        [apply IH; exact Hp | exact Hp | exact Hp].
    + apply IH. apply (inv_steady st); trivial. apply helloTimeoutFunc_steady.
Qed.

Lemma new_session_inv a now : session_inv (new_session a now).
Proof. intros _. left. split; reflexivity. Qed.

(** X1.  While a session created by the socket handler is running (not
    stopped), whatever it has received and whenever the hello timer fired,
    the worker is either INACTIVE with an empty UAID or ACTIVE with a
    non-empty one: the guard [sock.Uaid == ""] of the command handlers is
    the test for "no hello accepted yet". *)
Theorem running_session_invariant (a : Application) (now : Z) (events : list Event) :
  let st := snd (sniffer events (new_session a now)) in
  stopped (self st) = false ->
  (state (self st) = INACTIVE /\ Uaid (sock st) = EmptyString)
  \/ (state (self st) = ACTIVE /\ Uaid (sock st) <> EmptyString).
Proof. intros st. apply (sniffer_inv events (new_session a now)), new_session_inv. Qed.

Lemma running_session_invariant_witness :
  let st := snd (sniffer [Receive noop_env (received (hello_frame "" []));
                          HelloTimeout;
                          Receive noop_env (received ping_frame)]
                   (new_session unlimited 0)) in
  (state (self st) = INACTIVE /\ Uaid (sock st) = EmptyString)
  \/ (state (self st) = ACTIVE /\ Uaid (sock st) <> EmptyString).
Proof.
  apply (running_session_invariant unlimited 0
           [Receive noop_env (received (hello_frame "" []));
            HelloTimeout;
            Receive noop_env (received ping_frame)]).
  reflexivity.
Defined.

(** ** Hello: the paths beside the reset *)

Lemma lower_class (c : ascii) : filter_class (lower_byte c) = filter_class c.
Proof. destruct c as [[] [] [] [] [] [] [] []]; reflexivity. Qed.

(** The bytes of the class are ASCII, and the letters i and k are not among
    them. *)
Lemma class_values (c : ascii) :
  filter_class c = true ->
  utf8.byte_val c < 128 /\ utf8.byte_val c <> 105 /\ utf8.byte_val c <> 107.
Proof.
  destruct c as [[] [] [] [] [] [] [] []]; intros H;
    first [ discriminate H
          | repeat split; first [reflexivity | intros E; discriminate E] ].
Qed.

Lemma outside_class (b : ascii) :
  128 <= utf8.byte_val b \/ utf8.byte_val b = 105 \/ utf8.byte_val b = 107 ->
  filter_class b = false.
Proof.
  intros H. destruct (filter_class b) eqn:E; [| reflexivity].
  apply class_values in E. lia.
Qed.

(** The filter finds nothing in the lower-cased text exactly when every
    byte of the text is a hexadecimal digit or a hyphen. *)
Lemma filter_accepts (s : string) :
  workerFilter_Find (ToLower s) = None <-> forall_bytes filter_class s = true.
Proof.
  induction s as [| c s IH]; [cbn; tauto |].
  cbn [forall_bytes].
  destruct (Z.lt_ge_cases (utf8.byte_val c) 128) as [Hc | Hc].
  - rewrite (ToLower_ascii_head c s Hc). cbn [workerFilter_Find].
    rewrite lower_class. destruct (filter_class c); cbn [andb].
    + exact IH.
    + split; discriminate.
  - destruct (ToLower_nonascii_head c s Hc) as (b & t & He & Hb).
    rewrite He. cbn [workerFilter_Find].
    rewrite (outside_class b Hb), (outside_class c (or_introl Hc)). cbn [andb].
    split; discriminate.
Qed.

Lemma filter_rejects (s : string) :
  forall_bytes filter_class s = false -> not_nil (workerFilter_Find (ToLower s)) = true.
Proof.
  intros H. destruct (workerFilter_Find (ToLower s)) eqn:E; [reflexivity |].
  apply filter_accepts in E. congruence.
Qed.

Ltac hello_start :=
  unfold Hello, recover, with_buffer;
  cbv [bind get_buffer set_buffer get_Uaid ret self sock buffer trace Uaid].

Lemma nonempty_length (s : string) : s <> EmptyString -> (0 <? String.length s)%nat = true.
Proof. destruct s; [contradiction | reflexivity]. Qed.

(** X2.  A hello frame without a channelIDs field (or with a null one) is
    answered with MissingDataError; the only change is the empty uaid put
    into the frame's map when the frame had none. *)
Theorem Hello_missing_channelIDs (env : Env) (st : State) (suggested : string) :
  index (default_uaid (buffer st)) "uaid" = JString suggested ->
  is_nil (index (buffer st) "channelIDs") = true ->
  Hello env st
  = (Next (Some MissingDataError), with_buffer (default_uaid (buffer st)) st).
Proof.
  destruct st as [w [u born] buf tr]. cbn [buffer]. intros Hi Hc.
  hello_start. rewrite Hi. cbv [as_string ret].
  now rewrite (index_default_uaid buf "channelIDs"), Hc by discriminate.
Qed.

Lemma Hello_missing_channelIDs_witness :
  Hello noop_env (with_buffer (frame [("messageType", JString "hello")])
                    (new_session unlimited 0))
  = (Next (Some MissingDataError),
     with_buffer (frame [("messageType", JString "hello"); ("uaid", JString "")])
       (new_session unlimited 0)).
Proof.
  apply (Hello_missing_channelIDs noop_env
           (with_buffer (frame [("messageType", JString "hello")])
              (new_session unlimited 0)) ""); reflexivity.
Defined.

(** X3.  A hello frame whose suggested UAID holds a byte that is no
    hexadecimal digit and no hyphen is answered with InvalidChannelError, on
    a session with or without a UAID; nothing is stored, sent or drawn. *)
Theorem Hello_invalid_character (env : Env) (st : State) (suggested : string) :
  index (default_uaid (buffer st)) "uaid" = JString suggested ->
  is_nil (index (buffer st) "channelIDs") = false ->
  forall_bytes filter_class suggested = false ->
  Hello env st
  = (Next (Some InvalidChannelError), with_buffer (default_uaid (buffer st)) st).
Proof.
  destruct st as [w [u born] buf tr]. cbn [buffer]. intros Hi Hc Hbad.
  hello_start. rewrite Hi. cbv [as_string ret].
  rewrite (index_default_uaid buf "channelIDs"), Hc by discriminate.
  cbv [return_if ret].
  destruct (_ && _ && _); [reflexivity |].
  now rewrite (filter_rejects suggested Hbad).
Qed.

Lemma Hello_invalid_character_witness :
  Hello noop_env (with_buffer (hello_frame "not-a-uaid" []) (new_session unlimited 0))
  = (Next (Some InvalidChannelError),
     with_buffer (hello_frame "not-a-uaid" []) (new_session unlimited 0)).
Proof.
  apply (Hello_invalid_character noop_env
           (with_buffer (hello_frame "not-a-uaid" []) (new_session unlimited 0))
           "not-a-uaid"); reflexivity.
Defined.

(** X4.  A session that has a UAID refuses a hello that suggests another
    non-empty UAID: InvalidChannelError, and the session keeps its UAID. *)
Theorem Hello_conflicting_uaid (env : Env) (st : State) (suggested : string) :
  index (default_uaid (buffer st)) "uaid" = JString suggested ->
  is_nil (index (buffer st) "channelIDs") = false ->
  Uaid (sock st) <> EmptyString ->
  suggested <> EmptyString ->
  suggested <> Uaid (sock st) ->
  Hello env st
  = (Next (Some InvalidChannelError), with_buffer (default_uaid (buffer st)) st).
Proof.
  destruct st as [w [u born] buf tr]. cbn [buffer sock Uaid]. intros Hi Hc Hu Hs Hne.
  hello_start. rewrite Hi. cbv [as_string ret].
  rewrite (index_default_uaid buf "channelIDs"), Hc by discriminate.
  cbv [return_if ret].
  rewrite (nonempty_length u Hu), (nonempty_length suggested Hs).
  assert (H3 : (u =? suggested)%string = false) by (apply String.eqb_neq; congruence).
  now rewrite H3.
Qed.

Lemma Hello_conflicting_uaid_witness :
  Hello noop_env (with_buffer (hello_frame "abc" []) (session_of unlimited "def"))
  = (Next (Some InvalidChannelError),
     with_buffer (hello_frame "abc" []) (session_of unlimited "def")).
Proof.
  apply (Hello_conflicting_uaid noop_env
           (with_buffer (hello_frame "abc" []) (session_of unlimited "def")) "abc");
    [reflexivity | reflexivity | discriminate | discriminate | discriminate].
Defined.



(** X6.  A uaid field that is not a string (a number, a null) makes the
    type assertion fail: [Hello] recovers and returns InvalidDataError, and
    nothing but the frame's map was touched. *)
Theorem Hello_uaid_not_string (env : Env) (st : State) :
  (forall s, index (default_uaid (buffer st)) "uaid" <> JString s) ->
  Hello env st
  = (Next (Some InvalidDataError), with_buffer (default_uaid (buffer st)) st).
Proof.
  destruct st as [w [u born] buf tr]. cbn [buffer]. intros Hs. hello_start.
  destruct (index (default_uaid buf) "uaid") as [| | | | s | | | |];
    try reflexivity. now destruct (Hs s).
Qed.

Lemma Hello_uaid_not_string_witness :
  Hello noop_env (with_buffer (frame [("messageType", JString "hello");
                                      ("uaid", JFloat64 7);
                                      ("channelIDs", JArray [])])
                    (new_session unlimited 0))
  = (Next (Some InvalidDataError),
     with_buffer (frame [("messageType", JString "hello");
                         ("uaid", JFloat64 7);
                         ("channelIDs", JArray [])])
       (new_session unlimited 0)).
Proof.
  apply (Hello_uaid_not_string noop_env
           (with_buffer (frame [("messageType", JString "hello");
                                ("uaid", JFloat64 7);
                                ("channelIDs", JArray [])])
              (new_session unlimited 0))).
  intros s. discriminate.
Defined.

(** X7.  On a session without a UAID, a hello frame whose channelIDs field
    is present but is no array (and whose suggested UAID passes the filter
    and the length check) is answered with InvalidDataError after the
    suggested UAID was stored: the session keeps it, as on the over-long
    path. *)
Theorem Hello_channelIDs_not_array (env : Env) (st : State) (suggested : string) :
  Uaid (sock st) = EmptyString ->
  index (default_uaid (buffer st)) "uaid" = JString suggested ->
  forall_bytes filter_class suggested = true ->
  (String.length suggested <= UAID_MAX_LEN)%nat ->
  is_nil (index (buffer st) "channelIDs") = false ->
  (forall l, index (buffer st) "channelIDs" <> JArray l) ->
  Hello env st
  = (Next (Some InvalidDataError),
     adopt suggested (with_buffer (default_uaid (buffer st)) st)).
Proof.
  destruct st as [w [u born] buf tr]. cbn [buffer sock Uaid].
  intros -> Hi Hok Hl Hc Harr.
  rewrite (Hello_passes_checks env w born buf tr suggested Hi Hc);
    [| now apply filter_accepts].
  unfold recover, bind at 1, adopt_uaid.
  cbv [bind set_Uaid get_self ret return_if self sock buffer trace Uaid Born].
  rewrite (nat_ltb_false _ _ Hl), (index_default_uaid buf "channelIDs") by discriminate.
  destruct (index buf "channelIDs") as [| | | | | l | | |]; try reflexivity.
  now destruct (Harr l).
Qed.

Lemma Hello_channelIDs_not_array_witness :
  Hello noop_env (with_buffer (frame [("messageType", JString "hello");
                                      ("uaid", JString "abc");
                                      ("channelIDs", JString "d00d")])
                    (new_session unlimited 0))
  = (Next (Some InvalidDataError),
     adopt "abc" (with_buffer (frame [("messageType", JString "hello");
                                      ("uaid", JString "abc");
                                      ("channelIDs", JString "d00d")])
                    (new_session unlimited 0))).
Proof.
  apply (Hello_channelIDs_not_array noop_env
           (with_buffer (frame [("messageType", JString "hello");
                                ("uaid", JString "abc");
                                ("channelIDs", JString "d00d")])
              (new_session unlimited 0)) "abc");
    [reflexivity | reflexivity | reflexivity | unfold UAID_MAX_LEN; cbn; lia
    | reflexivity | discriminate].
Defined.

(** ** handleError, Register, Flush and Ack *)

Ltac handler_start :=
  cbv [bind get_buffer set_buffer get_Uaid get_self set_self set_stopped emit record
       ret return_ return_if when after halted with_stopped
       self sock buffer trace Uaid Born].

Lemma handleError_run message err st :
  handleError message err st
  = (Next (error_frame message err), after [JSON_Send (error_frame message err)] st).
Proof.
  unfold handleError, error_frame. destruct (ErrToStatus (Some err)) as [status text].
  reflexivity.
Qed.

(** X8.  [handleError] sends the caller's map with two fields set: status
    and error, the pair [ErrToStatus] gives for the error; every other field
    of the map is sent as it was, and the status is never 200. *)
Theorem handleError_frame (message : JsMap) (err : error) (st : State) :
  let sent := error_frame message err in
  handleError message err st = (Next sent, after [JSON_Send sent] st)
  /\ index sent "status" = JInt (fst (ErrToStatus (Some err)))
  /\ index sent "error" = JString (snd (ErrToStatus (Some err)))
  /\ (forall k, k <> "status" -> k <> "error" -> index sent k = index message k)
  /\ fst (ErrToStatus (Some err)) <> 200.
Proof.
  cbv zeta. split; [apply handleError_run |]. unfold error_frame, index.
  repeat split.
  - rewrite lookup_insert_ne by discriminate. now rewrite lookup_insert_eq.
  - now rewrite lookup_insert_eq.
  - intros k Hs He. now rewrite !lookup_insert_ne by congruence.
  - destruct err; discriminate.
Qed.

Lemma handleError_frame_witness :
  index (error_frame (frame [("messageType", JString "register")]) NoRecordWarning)
        "messageType"
  = JString "register"
  /\ index (error_frame (frame [("messageType", JString "register")]) NoRecordWarning)
           "status"
     = JInt 503.
Proof.
  destruct (handleError_frame (frame [("messageType", JString "register")])
              NoRecordWarning (new_session unlimited 0))
    as (_ & Hstatus & _ & Hother & _).
  split.
  - rewrite (Hother "messageType"); [reflexivity | discriminate | discriminate].
  - exact Hstatus.
Defined.

(** X9.  On a session with a UAID, [Register] answers InvalidDataError, and
    neither stores nor sends anything, unless the channelID field is a string
    of at most 100 bytes made of hexadecimal digits and hyphens: a missing or
    null field, a value that is no string, an over-long or ill-formed string
    are all refused alike. *)
Theorem Register_rejects (env : Env) (st : State) :
  Uaid (sock st) <> EmptyString ->
  acceptable_channelID (index (buffer st) "channelID") = false ->
  Register env st = (Next (Some InvalidDataError), st).
Proof.
  destruct st as [w [u born] buf tr]. cbn [sock Uaid buffer]. intros Hu Hbad.
  apply eqb_nonempty in Hu. unfold Register, recover. handler_start. rewrite Hu.
  destruct (index buf "channelID") as [| | | | appid | | | |]; try reflexivity.
  cbv [is_nil as_string ret]. cbn [acceptable_channelID] in Hbad.
  destruct (CHID_MAX_LEN <? String.length appid)%nat eqn:Hlen; [reflexivity |].
  apply Nat.ltb_ge in Hlen. apply Nat.leb_le in Hlen. rewrite Hlen in Hbad.
  cbn [andb] in Hbad. now rewrite (filter_rejects appid Hbad).
Qed.

Lemma Register_rejects_witness :
  Register noop_env
    (with_buffer (frame [("messageType", JString "register");
                         ("channelID", JString "not_hex")])
       (session_of unlimited "abc"))
  = (Next (Some InvalidDataError),
     with_buffer (frame [("messageType", JString "register");
                         ("channelID", JString "not_hex")])
       (session_of unlimited "abc")).
Proof.
  apply (Register_rejects noop_env
           (with_buffer (frame [("messageType", JString "register");
                                ("channelID", JString "not_hex")])
              (session_of unlimited "abc")));
    [discriminate | reflexivity].
Defined.

Lemma acceptable_string appid :
  acceptable_channelID (JString appid) = true ->
  (CHID_MAX_LEN <? String.length appid)%nat = false
  /\ not_nil (workerFilter_Find (ToLower appid)) = false.
Proof.
  cbn [acceptable_channelID]. intros H. apply andb_prop in H as [Hl Hf].
  split.
  - apply Nat.ltb_ge. now apply Nat.leb_le.
  - apply filter_accepts in Hf. now rewrite Hf.
Qed.

(** X10.  When the storage refuses the registration, [Register] returns the
    storage's error: the server is not asked for an endpoint and no reply is
    written by the handler. *)
Theorem Register_storage_error (env : Env) (st : State) (appid : string) (e : error) :
  Uaid (sock st) <> EmptyString ->
  index (buffer st) "channelID" = JString appid ->
  acceptable_channelID (JString appid) = true ->
  RegisterAppID_result env (Uaid (sock st)) appid 0 = Some e ->
  Register env st
  = (Next (Some e), after [Storage_RegisterAppID (Uaid (sock st)) appid 0] st).
Proof.
  destruct st as [w [u born] buf tr]. cbn [sock Uaid buffer]. intros Hu Hc Hok He.
  apply eqb_nonempty in Hu. destruct (acceptable_string appid Hok) as [Hl Hf].
  unfold Register, recover. handler_start. rewrite Hu, Hc.
  cbv [is_nil as_string ret]. rewrite Hl, Hf, He. reflexivity.
Qed.

Lemma Register_storage_error_witness :
  Register failing_storage_env
    (with_buffer (frame [("messageType", JString "register");
                         ("channelID", JString "d00d")])
       (session_of unlimited "abc"))
  = (Next (Some (OtherError "storage unavailable")),
     after [Storage_RegisterAppID "abc" "d00d" 0]
       (with_buffer (frame [("messageType", JString "register");
                            ("channelID", JString "d00d")])
          (session_of unlimited "abc"))).
Proof.
  apply (Register_storage_error failing_storage_env
           (with_buffer (frame [("messageType", JString "register");
                                ("channelID", JString "d00d")])
              (session_of unlimited "abc")) "d00d" (OtherError "storage unavailable"));
    [discriminate | reflexivity | reflexivity | reflexivity].
Defined.

(** X11.  A register frame with an acceptable channelID, on a session with
    a UAID, when the storage accepts and the server returns an endpoint: the
    channel is stored at version 0, the server is asked, and the reply
    carries status 200, the session's UAID, the channelID and the endpoint;
    the handler returns nil. *)
Theorem Register_replies (env : Env) (st : State) (appid endpoint : string) :
  Uaid (sock st) <> EmptyString ->
  index (buffer st) "channelID" = JString appid ->
  acceptable_channelID (JString appid) = true ->
  RegisterAppID_result env (Uaid (sock st)) appid 0 = None ->
  let uaid := Uaid (sock st) in
  let cmd := {| Command := REGIS env; Arguments := buffer st |} in
  index (snd (HandleCommand env cmd)) "push.endpoint" = JString endpoint ->
  let reply := register_reply (buffer st) uaid endpoint in
  Register env st
  = (Next None,
     after [Storage_RegisterAppID uaid appid 0; Server_HandleCommand cmd;
            JSON_Send reply; metrics_Increment "updates.client.register"] st)
  /\ index reply "status" = JInt 200
  /\ index reply "uaid" = JString uaid
  /\ index reply "channelID" = JString appid
  /\ index reply "pushEndpoint" = JString endpoint.
Proof.
  destruct st as [w [u born] buf tr]. cbn [sock Uaid buffer].
  intros Hu Hc Hok Hs Hep.
  apply eqb_nonempty in Hu. destruct (acceptable_string appid Hok) as [Hl Hf].
  split; [| repeat split].
  - unfold Register, recover. handler_start. rewrite Hu, Hc.
    cbv [is_nil as_string ret]. rewrite Hl, Hf, Hs.
    destruct (HandleCommand env _) as [raw args]. cbn [snd] in Hep. rewrite Hep.
    unfold register_reply. rewrite Hc, <- !app_assoc. reflexivity.
  - unfold register_reply. now rewrite Hc.
Qed.

Lemma Register_replies_witness :
  Register noop_env
    (with_buffer (frame [("messageType", JString "register");
                         ("channelID", JString "d00d")])
       (session_of unlimited "abc"))
  = (Next None,
     after [Storage_RegisterAppID "abc" "d00d" 0;
            Server_HandleCommand
              {| Command := REGIS noop_env;
                 Arguments := frame [("messageType", JString "register");
                                     ("channelID", JString "d00d")] |};
            JSON_Send (register_reply
                         (frame [("messageType", JString "register");
                                 ("channelID", JString "d00d")])
                         "abc" "http://push/update/k");
            metrics_Increment "updates.client.register"]
       (with_buffer (frame [("messageType", JString "register");
                            ("channelID", JString "d00d")])
          (session_of unlimited "abc"))).
Proof.
  apply (proj1 (Register_replies noop_env
                  (with_buffer (frame [("messageType", JString "register");
                                       ("channelID", JString "d00d")])
                     (session_of unlimited "abc"))
                  "d00d" "http://push/update/k"
                  ltac:(discriminate) eq_refl eq_refl eq_refl eq_refl)).
Defined.

Ltac flush_start :=
  unfold Flush, call, defer;
  cbv [bind get_buffer set_buffer get_Uaid get_self set_self set_stopped emit record
       ret return_ return_if when after halted with_stopped
       self sock buffer trace Uaid Born].

(** X12.  [Flush] on a socket without a UAID stops the worker: [stopped]
    is set, nil is returned, and neither the storage is asked nor a frame
    written. *)
Theorem Flush_no_uaid (env : Env) (lastAccessed : Z) (channel : string) (version : Z)
    (st : State) :
  Uaid (sock st) = EmptyString ->
  Flush env lastAccessed channel version st
  = (Next None, after [metrics_Timer "client.flush"] (halted st))
  /\ frames_sent (after [metrics_Timer "client.flush"] (halted st)) = frames_sent st.
Proof.
  intros Hu. split.
  - now rewrite (Flush_without_uaid env lastAccessed channel version st Hu).
  - unfold frames_sent, after, halted. cbn [trace].
    rewrite List.filter_app. cbn. apply app_nil_r.
Qed.

Lemma Flush_no_uaid_witness :
  Flush pending_env 0 EmptyString 0 (new_session unlimited 0)
  = (Next None, after [metrics_Timer "client.flush"] (halted (new_session unlimited 0))).
Proof.
  apply (proj1 (Flush_no_uaid pending_env 0 EmptyString 0 (new_session unlimited 0)
                  eq_refl)).
Defined.

Lemma for_each_quiet (items : list (option JsMap)) (st : State) :
  for_each items (count_sent EmptyString) st = (Next tt, st).
Proof.
  induction items as [| [u |] items IH]; cbn [for_each]; trivial;
    unfold bind; cbn [count_sent String.eqb negb ret]; exact IH.
Qed.

(** X14.  When the storage fails to fetch the pending updates, [Flush]
    sends an error frame (messageType "notification" with the status and
    error text of the failure) and returns the storage's error. *)
Theorem Flush_storage_error (env : Env) (lastAccessed : Z) (st : State)
    (updates : option JsMap) (e : error) :
  Uaid (sock st) <> EmptyString ->
  GetUpdates_result env (Uaid (sock st)) lastAccessed = (updates, Some e) ->
  Flush env lastAccessed EmptyString 0 st
  = (Next (Some e),
     after [Storage_GetUpdates (Uaid (sock st)) lastAccessed;
            JSON_Send (error_frame {[ "messageType" := JString notification ]} e);
            metrics_Timer "client.flush"] st).
Proof.
  destruct st as [w [u born] buf tr]. cbn [sock Uaid]. intros Hu Hg.
  apply eqb_nonempty in Hu. flush_start. rewrite Hu. cbn [String.eqb].
  rewrite Hg, handleError_run. cbv [after record trace self sock buffer].
  rewrite <- !app_assoc. reflexivity.
Qed.

Lemma Flush_storage_error_witness :
  Flush failing_storage_env 0 EmptyString 0 (session_of unlimited "abc")
  = (Next (Some (OtherError "storage unavailable")),
     after [Storage_GetUpdates "abc" 0;
            JSON_Send (error_frame {[ "messageType" := JString notification ]}
                         (OtherError "storage unavailable"));
            metrics_Timer "client.flush"]
       (session_of unlimited "abc")).
Proof.
  apply (Flush_storage_error failing_storage_env 0 (session_of unlimited "abc")
           None (OtherError "storage unavailable"));
    [discriminate | reflexivity].
Defined.

Lemma Flush_fetch_none (env : Env) (lastAccessed : Z) (st : State) :
  Uaid (sock st) <> EmptyString ->
  GetUpdates_result env (Uaid (sock st)) lastAccessed = (None, None) ->
  Flush env lastAccessed EmptyString 0 st
  = (Next None,
     after [Storage_GetUpdates (Uaid (sock st)) lastAccessed;
            metrics_Timer "client.flush"] st).
Proof.
  destruct st as [w [u born] buf tr]. cbn [sock Uaid]. intros Hu Hg.
  apply eqb_nonempty in Hu. flush_start. rewrite Hu. cbn [String.eqb]. rewrite Hg.
  rewrite <- !app_assoc. reflexivity.
Qed.

Lemma Flush_fetch_some (env : Env) (lastAccessed : Z) (st : State)
    (updates : JsMap) (items : list (option JsMap)) :
  Uaid (sock st) <> EmptyString ->
  GetUpdates_result env (Uaid (sock st)) lastAccessed = (Some updates, None) ->
  index updates "updates" = JMaps items ->
  Flush env lastAccessed EmptyString 0 st
  = (Next None,
     after [Storage_GetUpdates (Uaid (sock st)) lastAccessed;
            JSON_Send (<["messageType" := JString notification]> updates);
            metrics_Timer "client.flush"] st).
Proof.
  destruct st as [w [u born] buf tr]. cbn [sock Uaid]. intros Hu Hg Hi.
  apply eqb_nonempty in Hu. flush_start. rewrite Hu. cbn [String.eqb].
  rewrite Hg, Hi. cbv [as_maps ret]. rewrite for_each_quiet.
  rewrite <- !app_assoc. reflexivity.
Qed.

(** X13.  [Flush] without a channel asks the storage for the pending
    updates of the session's UAID.  When the storage has none (a nil map)
    nothing is written; when it has a map of updates, that map is sent with
    messageType "notification", also when its list is empty, and the metric
    [updates.sent] is not counted on this path. *)
Theorem Flush_from_storage (env : Env) (lastAccessed : Z) (st : State) :
  Uaid (sock st) <> EmptyString ->
  (GetUpdates_result env (Uaid (sock st)) lastAccessed = (None, None) ->
   Flush env lastAccessed EmptyString 0 st
   = (Next None,
      after [Storage_GetUpdates (Uaid (sock st)) lastAccessed;
             metrics_Timer "client.flush"] st))
  /\ (forall updates items,
        GetUpdates_result env (Uaid (sock st)) lastAccessed = (Some updates, None) ->
        index updates "updates" = JMaps items ->
        Flush env lastAccessed EmptyString 0 st
        = (Next None,
           after [Storage_GetUpdates (Uaid (sock st)) lastAccessed;
                  JSON_Send (<["messageType" := JString notification]> updates);
                  metrics_Timer "client.flush"] st)).
Proof.
  intros Hu. split.
  - now apply Flush_fetch_none.
  - intros updates items. now apply Flush_fetch_some.
Qed.

Lemma Flush_from_storage_witness :
  Flush noop_env 0 EmptyString 0 (session_of unlimited "abc")
  = (Next None,
     after [Storage_GetUpdates "abc" 0; metrics_Timer "client.flush"]
       (session_of unlimited "abc"))
  /\ Flush pending_env 0 EmptyString 0 (session_of unlimited "abc")
     = (Next None,
        after [Storage_GetUpdates "abc" 0;
               JSON_Send (<["messageType" := JString notification]> pending_updates);
               metrics_Timer "client.flush"]
          (session_of unlimited "abc")).
Proof.
  split.
  - apply (proj1 (Flush_from_storage noop_env 0 (session_of unlimited "abc")
                    ltac:(discriminate))).
    reflexivity.
  - apply (proj2 (Flush_from_storage pending_env 0 (session_of unlimited "abc")
                    ltac:(discriminate)) pending_updates
                 [Some (list_to_map [("channelID", JString "d00d");
                                     ("version", JInt 7)])]);
      reflexivity.
Defined.



(** X16.  On a session with a UAID, [Ack] returns MissingDataError, and
    does nothing, when the frame has no updates field; and when the storage
    fails to record the acknowledgement it returns the storage's error
    without the follow-on flush: the storage is not asked for pending
    updates and no frame is written. *)
Theorem Ack_fails (env : Env) (st : State) :
  Uaid (sock st) <> EmptyString ->
  (is_nil (index (buffer st) "updates") = true ->
   Ack env st = (Next (Some MissingDataError), st))
  /\ (forall e,
        is_nil (index (buffer st) "updates") = false ->
        Ack_result env (Uaid (sock st)) (buffer st) = Some e ->
        Ack env st
        = (Next (Some e),
           after [Storage_Ack (Uaid (sock st)) (buffer st);
                  metrics_Increment "updates.client.ack"] st)).
Proof.
  destruct st as [w [u born] buf tr]. cbn [sock Uaid buffer]. intros Hu.
  apply eqb_nonempty in Hu. split.
  - intros Hn. unfold Ack, recover. handler_start. now rewrite Hu, Hn.
  - intros e Hn He. unfold Ack, recover. handler_start. rewrite Hu, Hn, He.
    rewrite <- !app_assoc. reflexivity.
Qed.

Lemma Ack_fails_witness :
  Ack failing_storage_env
    (with_buffer (frame [("messageType", JString "ack"); ("updates", JArray [])])
       (session_of unlimited "abc"))
  = (Next (Some (OtherError "storage unavailable")),
     after [Storage_Ack "abc"
              (frame [("messageType", JString "ack"); ("updates", JArray [])]);
            metrics_Increment "updates.client.ack"]
       (with_buffer (frame [("messageType", JString "ack"); ("updates", JArray [])])
          (session_of unlimited "abc"))).
Proof.
  apply (proj2 (Ack_fails failing_storage_env
                  (with_buffer (frame [("messageType", JString "ack");
                                       ("updates", JArray [])])
                     (session_of unlimited "abc"))
                  ltac:(discriminate)) (OtherError "storage unavailable"));
    reflexivity.
Defined.

(** X17.  When the storage records the acknowledgement, [Ack] goes on with
    a flush from the storage: nothing is written when no update is pending,
    and the pending updates are sent as a notification frame otherwise; the
    handler returns nil. *)
Theorem Ack_flushes (env : Env) (st : State) :
  Uaid (sock st) <> EmptyString ->
  is_nil (index (buffer st) "updates") = false ->
  Ack_result env (Uaid (sock st)) (buffer st) = None ->
  let acked := after [Storage_Ack (Uaid (sock st)) (buffer st)] st in
  (GetUpdates_result env (Uaid (sock st)) 0 = (None, None) ->
   Ack env st
   = (Next None,
      after [Storage_GetUpdates (Uaid (sock st)) 0; metrics_Timer "client.flush"] acked))
  /\ (forall updates items,
        GetUpdates_result env (Uaid (sock st)) 0 = (Some updates, None) ->
        index updates "updates" = JMaps items ->
        Ack env st
        = (Next None,
           after [Storage_GetUpdates (Uaid (sock st)) 0;
                  JSON_Send (<["messageType" := JString notification]> updates);
                  metrics_Timer "client.flush"] acked)).
Proof.
  intros Hu Hn Ha acked.
  assert (Hack : Ack env st = recover (Flush env 0 EmptyString 0) acked).
  { destruct st as [w [u born] buf tr]. cbn [sock Uaid buffer] in *.
    apply eqb_nonempty in Hu. unfold Ack, recover, acked. handler_start.
    now rewrite Hu, Hn, Ha. }
  assert (Hu' : Uaid (sock acked) <> EmptyString) by exact Hu.
  split.
  - intros Hg. rewrite Hack. unfold recover.
    now rewrite (Flush_fetch_none env 0 acked Hu' Hg).
  - intros updates items Hg Hi. rewrite Hack. unfold recover.
    now rewrite (Flush_fetch_some env 0 acked updates items Hu' Hg Hi).
Qed.

Lemma Ack_flushes_witness :
  Ack pending_env
    (with_buffer (frame [("messageType", JString "ack"); ("updates", JArray [])])
       (session_of unlimited "abc"))
  = (Next None,
     after [Storage_GetUpdates "abc" 0;
            JSON_Send (<["messageType" := JString notification]> pending_updates);
            metrics_Timer "client.flush"]
       (after [Storage_Ack "abc"
                 (frame [("messageType", JString "ack"); ("updates", JArray [])])]
          (with_buffer (frame [("messageType", JString "ack"); ("updates", JArray [])])
             (session_of unlimited "abc")))).
Proof.
  apply (proj2 (Ack_flushes pending_env
                  (with_buffer (frame [("messageType", JString "ack");
                                       ("updates", JArray [])])
                     (session_of unlimited "abc"))
                  ltac:(discriminate) eq_refl eq_refl)
           pending_updates
           [Some (list_to_map [("channelID", JString "d00d"); ("version", JInt 7)])]);
    reflexivity.
Defined.

(** ** Ping, the loop and Run *)

(** X18.  On a worker without a ping rate limit ([pingInt] not positive)
    every ping is answered and the handler returns nil: with long pongs the
    reply is a map holding the frame's messageType and status 200, without
    them it is the text [{}].  The session is not stopped and its UAID plays
    no part. *)
Theorem Ping_replies (env : Env) (st : State) :
  pingInt (self st) <= 0 ->
  Ping env st
  = (Next None, after [pong st; metrics_Increment "updates.client.ping"] st)
  /\ index (long_pong (buffer st)) "status" = JInt 200
  /\ index (long_pong (buffer st)) "messageType" = index (buffer st) "messageType".
Proof.
  destruct st as [w [u born] buf tr]. cbn [self buffer]. intros Hp.
  split; [| split; reflexivity].
  unfold Ping, call, pong. handler_start.
  replace (0 <? pingInt w) with false by lia. cbn [andb].
  destruct (pushLongPongs (app w)); handler_start; rewrite <- !app_assoc; reflexivity.
Qed.

Lemma Ping_replies_witness :
  Ping noop_env (with_buffer ping_frame (new_session unlimited 0))
  = (Next None,
     after [Message_Send "{}"; metrics_Increment "updates.client.ping"]
       (with_buffer ping_frame (new_session unlimited 0))).
Proof.
  apply (proj1 (Ping_replies noop_env (with_buffer ping_frame (new_session unlimited 0))
                  ltac:(discriminate))).
Defined.

Lemma Seconds_int_small (d : Z) : - Second < d < Second -> Seconds_int d = 0.
Proof.
  unfold Seconds_int, Second. intros [Hlo Hhi].
  destruct (Z.le_gt_cases 0 d) as [Hd | Hd].
  - apply Z.quot_small. lia.
  - pose proof (Z.quot_opp_l (- d) 1000000000 ltac:(lia)) as Hq.
    rewrite Z.opp_involutive in Hq. rewrite Hq.
    rewrite (Z.quot_small (- d) 1000000000) by lia. reflexivity.
Qed.

(** X19.  [NewWorker] keeps the whole seconds of [clientMinPing]: an
    interval shorter than one second gives [pingInt] 0, and a worker made
    with it never refuses a ping. *)
Theorem NewWorker_subsecond_interval (a : Application) (now : Z) (env : Env) (m : JsMap) :
  - Second < clientMinPing a < Second ->
  pingInt (NewWorker a now) = 0
  /\ fst (Ping env (with_buffer m (new_session a now))) = Next None.
Proof.
  intros Hd.
  assert (Hp : pingInt (NewWorker a now) = 0) by (apply (Seconds_int_small _ Hd)).
  split; [exact Hp |].
  assert (Hle : pingInt (self (with_buffer m (new_session a now))) <= 0).
  { cbn [with_buffer new_session self]. rewrite Hp. lia. }
  unfold Ping, call. cbv [bind get_self ret self with_buffer new_session].
  cbn [with_buffer new_session self] in Hle.
  replace (0 <? pingInt (NewWorker a now)) with false by lia. cbn [andb].
  cbv [bind get_buffer buffer]. destruct (pushLongPongs _); reflexivity.
Qed.

Lemma NewWorker_subsecond_interval_witness :
  pingInt (NewWorker half_second 0) = 0
  /\ fst (Ping noop_env (with_buffer ping_frame (new_session half_second 0))) = Next None.
Proof.
  apply (NewWorker_subsecond_interval half_second 0 noop_env ping_frame).
  split; reflexivity.
Defined.

(** X20.  When [Receive] fails on a running session, the loop stops and
    [Run] closes the socket: no frame is written, and whatever would have
    arrived afterwards is not handled. *)
Theorem Run_receive_error (env : Env) (e : error) (rest : list Event) (st : State) :
  stopped (self st) = false ->
  Run (Receive env (ReceiveError e) :: rest) st
  = after [Socket_Close] (halted (with_buffer ∅ st))
  /\ frames_sent (Run (Receive env (ReceiveError e) :: rest) st) = frames_sent st.
Proof.
  intros Hs.
  assert (Hrun : Run (Receive env (ReceiveError e) :: rest) st
                 = after [Socket_Close] (halted (with_buffer ∅ st))).
  { unfold Run. cbn [sniffer]. rewrite Hs.
    assert (Hp : forall r,
               sniffer_pass env (if socket_closed st then ReceiveError closed_error
                                 else ReceiveError r) st
               = (Next tt, halted (with_buffer ∅ st))).
    { intros r. destruct (socket_closed st); reflexivity. }
    rewrite Hp. destruct rest; reflexivity. }
  split; [exact Hrun |]. rewrite Hrun.
  unfold frames_sent, after, halted, with_buffer. cbn [trace].
  rewrite List.filter_app. cbn. apply app_nil_r.
Qed.

Lemma Run_receive_error_witness :
  Run [Receive noop_env (ReceiveError (OtherError "EOF"));
       Receive noop_env (received (hello_frame "" []))]
    (new_session unlimited 0)
  = after [Socket_Close] (halted (with_buffer ∅ (new_session unlimited 0))).
Proof.
  apply (proj1 (Run_receive_error noop_env (OtherError "EOF")
                  [Receive noop_env (received (hello_frame "" []))]
                  (new_session unlimited 0) eq_refl)).
Defined.

(** X21.  When the hello timer fires on a running session without a UAID,
    the receive that follows fails on the closed socket, whatever the client
    had sent: that frame is not handled, no frame is written, the loop stops
    and [Run] closes the socket once more. *)
Theorem Run_hello_timeout (env : Env) (r : Received) (rest : list Event) (st : State) :
  stopped (self st) = false ->
  Uaid (sock st) = EmptyString ->
  Run (HelloTimeout :: Receive env r :: rest) st
  = after [Socket_Close] (halted (with_buffer ∅ (after [Socket_Close] st)))
  /\ frames_sent (Run (HelloTimeout :: Receive env r :: rest) st) = frames_sent st.
Proof.
  intros Hs Hu.
  assert (Hrun : Run (HelloTimeout :: Receive env r :: rest) st
                 = after [Socket_Close] (halted (with_buffer ∅ (after [Socket_Close] st)))).
  { unfold Run. cbn [sniffer]. rewrite Hs. unfold helloTimeoutFunc. rewrite Hu.
    cbn [String.eqb]. cbn [record self]. rewrite Hs.
    change (record Socket_Close st) with (after [Socket_Close] st).
    assert (Hc : socket_closed (after [Socket_Close] st) = true).
    { unfold socket_closed, after. cbn [trace]. rewrite existsb_app. cbn.
      apply orb_true_r. }
    rewrite Hc.
    change (sniffer_pass env (ReceiveError closed_error) (after [Socket_Close] st))
      with (Next tt, halted (with_buffer ∅ (after [Socket_Close] st))).
    destruct rest; reflexivity. }
  split; [exact Hrun |]. rewrite Hrun.
  unfold frames_sent, after, halted, with_buffer. cbn [trace].
  rewrite !List.filter_app. cbn. now rewrite !app_nil_r.
Qed.

Lemma Run_hello_timeout_witness :
  frames_sent (Run [HelloTimeout; Receive noop_env (received (hello_frame "" []))]
                 (new_session unlimited 0)) = [].
Proof.
  apply (proj2 (Run_hello_timeout noop_env (received (hello_frame "" [])) []
                  (new_session unlimited 0) eq_refl eq_refl)).
Defined.

(** X22.  On a session that has a UAID the hello timer changes nothing:
    the run goes on as if the timer had not fired. *)
Theorem helloTimeout_spares (events : list Event) (st : State) :
  Uaid (sock st) <> EmptyString ->
  Run (HelloTimeout :: events) st = Run events st.
Proof.
  intros Hu. unfold Run. cbn [sniffer].
  unfold helloTimeoutFunc. rewrite (eqb_nonempty _ Hu).
  destruct (stopped (self st)) eqn:Hs; [| reflexivity].
  destruct events as [| ev events]; cbn [sniffer]; now rewrite Hs.
Qed.

Lemma helloTimeout_spares_witness :
  Run [HelloTimeout; Receive noop_env (received ping_frame)] (session_of unlimited "abc")
  = Run [Receive noop_env (received ping_frame)] (session_of unlimited "abc").
Proof.
  apply (helloTimeout_spares [Receive noop_env (received ping_frame)]
           (session_of unlimited "abc")).
  discriminate.
Defined.

Lemma dispatch_unknown env name :
  ~ In name commands -> dispatch env name = ret (Some UnknownCommandError).
Proof.
  intros Hn. unfold dispatch.
  repeat match goal with
         | |- (if (?a =? ?b)%string then _ else _) = _ =>
             destruct (String.eqb_spec a b) as [-> | _];
             [exfalso; apply Hn; simpl; tauto |]
         end.
  reflexivity.
Qed.

Lemma is_string_ping_lower v :
  ToLower (messageType_of v) <> "ping" -> is_string v "ping" = false.
Proof.
  destruct v; try reflexivity. cbn [messageType_of is_string].
  intros Hn. apply String.eqb_neq. intros ->. now apply Hn.
Qed.

Lemma error_frame_status m e :
  index (error_frame m e) "status" = JInt (fst (ErrToStatus (Some e))).
Proof.
  unfold error_frame, index.
  rewrite lookup_insert_ne by discriminate. now rewrite lookup_insert_eq.
Qed.

Lemma error_frame_error m e :
  index (error_frame m e) "error" = JString (snd (ErrToStatus (Some e))).
Proof. unfold error_frame, index. now rewrite lookup_insert_eq. Qed.

(** X23.  A frame whose messageType, lower-cased, is none of hello, ack,
    register, unregister, ping and purge (a value that is no string counts
    as the empty name) is answered with the frame itself, its messageType
    lower-cased, plus status 401 and error "Invalid Command"; the worker is
    stopped. *)
Theorem sniffer_unknown_command (env : Env) (raw : string) (frame : JsMap) (mt : JsVal)
    (st : State) :
  raw <> EmptyString -> raw <> "{}" ->
  frame !! "messageType" = Some mt ->
  ~ In (ToLower (messageType_of mt)) commands ->
  let named := <["messageType" := JString (ToLower (messageType_of mt))]> frame in
  let sent := error_frame named UnknownCommandError in
  sniffer_pass env (ReceiveRaw raw (Some frame)) st
  = (Next tt, halted (with_buffer sent (after [JSON_Send sent] st)))
  /\ index sent "status" = JInt 401
  /\ index sent "error" = JString "Invalid Command".
Proof.
  intros Hr1 Hr2 Hm Hn named sent.
  destruct (pass_started_checks raw Hr1 Hr2) as [Hl Hq].
  split; [| split; [apply error_frame_status | apply error_frame_error]].
  assert (Hp : is_string (index frame "messageType") "ping" = false).
  { unfold index. rewrite Hm. apply is_string_ping_lower.
    intros Heq. apply Hn. rewrite Heq. simpl. tauto. }
  destruct st as [w s buf tr].
  unfold sniffer_pass, sniffer_frame. cbv [bind set_buffer ret self sock buffer trace].
  rewrite Hl, Hq, (nonempty_size frame _ _ Hm), Hp, Hm.
  fold (messageType_of mt). rewrite (dispatch_unknown env _ Hn).
  cbv [ret after_command bind get_buffer buffer]. rewrite handleError_run.
  reflexivity.
Qed.

Lemma sniffer_unknown_command_witness :
  sniffer_pass noop_env (received (frame [("messageType", JString "Subscribe")]))
    (new_session unlimited 0)
  = (Next tt,
     halted
       (with_buffer
          (error_frame (frame [("messageType", JString "subscribe")]) UnknownCommandError)
          (after [JSON_Send (error_frame (frame [("messageType", JString "subscribe")])
                               UnknownCommandError)]
             (new_session unlimited 0)))).
Proof.
  apply (proj1 (sniffer_unknown_command noop_env "{...}"
                  (frame [("messageType", JString "Subscribe")])
                  (JString "Subscribe") (new_session unlimited 0)
                  ltac:(discriminate) ltac:(discriminate) eq_refl
                  ltac:(simpl; intuition discriminate))).
Defined.

(** X24.  A non-empty frame without a messageType field is answered with
    an error frame that holds status 401 and the error text only (the
    frame's fields are not echoed), and the worker is stopped. *)
Theorem sniffer_missing_messageType (env : Env) (raw : string) (frame : JsMap) (st : State) :
  raw <> EmptyString -> raw <> "{}" ->
  frame <> ∅ ->
  frame !! "messageType" = None ->
  let sent := error_frame ∅ UnknownCommandError in
  sniffer_pass env (ReceiveRaw raw (Some frame)) st
  = (Next tt, halted (with_buffer frame (after [JSON_Send sent] st)))
  /\ index sent "status" = JInt 401.
Proof.
  intros Hr1 Hr2 Hne Hm sent.
  destruct (pass_started_checks raw Hr1 Hr2) as [Hl Hq].
  split; [| apply error_frame_status].
  assert (Hs : (size frame =? 0)%nat = false).
  { apply Nat.eqb_neq. intros Hz. now apply map_size_empty_iff in Hz. }
  destruct st as [w s buf tr].
  unfold sniffer_pass, sniffer_frame. cbv [bind set_buffer ret self sock buffer trace].
  rewrite Hl, Hq, Hs. unfold index at 1. rewrite Hm. cbn [is_string].
  rewrite handleError_run. reflexivity.
Qed.

Lemma sniffer_missing_messageType_witness :
  sniffer_pass noop_env (received (frame [("uaid", JString "abc")]))
    (new_session unlimited 0)
  = (Next tt,
     halted (with_buffer (frame [("uaid", JString "abc")])
               (after [JSON_Send (error_frame ∅ UnknownCommandError)]
                  (new_session unlimited 0)))).
Proof.
  apply (proj1 (sniffer_missing_messageType noop_env "{...}"
                  (frame [("uaid", JString "abc")]) (new_session unlimited 0)
                  ltac:(discriminate) ltac:(discriminate)
                  ltac:(intros H; discriminate H) eq_refl)).
Defined.



(** X26.  The messageType is read without regard to case: a frame is
    handled exactly as the same frame with its messageType lower-cased.
    ([strings.ToLower] lower-cases every letter of Unicode, so the frame of
    the example, whose messageType ends with the Kelvin sign, is an ack.) *)
Theorem sniffer_case_insensitive (env : Env) (raw : string) (frame : JsMap)
    (name : string) (st : State) :
  raw <> EmptyString -> raw <> "{}" ->
  frame !! "messageType" = Some (JString name) ->
  sniffer_pass env (ReceiveRaw raw (Some frame)) st
  = sniffer_pass env
      (ReceiveRaw raw (Some (<["messageType" := JString (ToLower name)]> frame))) st.
Proof.
  intros Hr1 Hr2 Hm.
  destruct (pass_started_checks raw Hr1 Hr2) as [Hl Hq].
  set (frame' := <["messageType" := JString (ToLower name)]> frame).
  assert (Hm' : frame' !! "messageType" = Some (JString (ToLower name)))
    by apply lookup_insert_eq.
  destruct st as [w s buf tr].
  unfold sniffer_pass, sniffer_frame. cbv [bind set_buffer ret self sock buffer trace].
  rewrite Hl, Hq, (nonempty_size frame _ _ Hm), (nonempty_size frame' _ _ Hm').
  unfold index. rewrite Hm, Hm'. cbn [is_string].
  destruct (String.eqb_spec name "ping") as [-> | Hnp].
  - change (ToLower "ping") with "ping" in *.
    assert (Hid : frame' = frame) by (apply insert_id; exact Hm).
    rewrite Hid. reflexivity.
  - destruct (String.eqb_spec (ToLower name) "ping") as [Hlp | Hlp].
    + unfold frame'. rewrite Hlp. reflexivity.
    + rewrite ToLower_idem.
      assert (Hid : <["messageType" := JString (ToLower name)]> frame' = frame')
        by (apply insert_id; exact Hm').
      rewrite Hid. reflexivity.
Qed.

Lemma sniffer_case_insensitive_witness :
  ToLower ("AC" ++ kelvin_sign) = "ack"
  /\ sniffer_pass noop_env
       (received (frame [("messageType", JString ("AC" ++ kelvin_sign));
                         ("updates", JArray [])]))
       (session_of unlimited "abc")
     = sniffer_pass noop_env
         (received (<["messageType" := JString (ToLower ("AC" ++ kelvin_sign))]>
                      (frame [("messageType", JString ("AC" ++ kelvin_sign));
                              ("updates", JArray [])])))
         (session_of unlimited "abc").
Proof.
  split; [reflexivity |].
  apply (sniffer_case_insensitive noop_env "{...}"
           (frame [("messageType", JString ("AC" ++ kelvin_sign)); ("updates", JArray [])])
           ("AC" ++ kelvin_sign) (session_of unlimited "abc"));
    [discriminate | discriminate | reflexivity].
Defined.

(** X30.  A frame that is the JSON value null leaves the nil map in
    [buffer]: the pass panics on the assignment that would make it a ping,
    outside every handler.  [Run] recovers and closes the socket: no frame,
    not even an error frame, is written, [stopped] is not set, and whatever
    would have arrived afterwards is not handled. *)
Theorem Run_null_frame (env : Env) (raw : string) (rest : list Event) (st : State) :
  stopped (self st) = false ->
  socket_closed st = false ->
  raw <> EmptyString -> raw <> "{}" ->
  sniffer_pass env (ReceiveNull raw) st = (Panic, with_buffer ∅ st)
  /\ Run (Receive env (ReceiveNull raw) :: rest) st
     = after [Socket_Close] (with_buffer ∅ st)
  /\ frames_sent (Run (Receive env (ReceiveNull raw) :: rest) st) = frames_sent st
  /\ stopped (self (Run (Receive env (ReceiveNull raw) :: rest) st)) = false.
Proof.
  intros Hs Hc Hr1 Hr2.
  destruct (pass_started_checks raw Hr1 Hr2) as [Hl Hq].
  assert (Hp : sniffer_pass env (ReceiveNull raw) st = (Panic, with_buffer ∅ st)).
  { unfold sniffer_pass. cbv [bind set_buffer]. now rewrite Hl, Hq. }
  assert (Hrun : Run (Receive env (ReceiveNull raw) :: rest) st
                 = after [Socket_Close] (with_buffer ∅ st)).
  { unfold Run. cbn [sniffer]. now rewrite Hs, Hc, Hp. }
  split; [exact Hp |]. split; [exact Hrun |]. rewrite Hrun. split.
  - unfold frames_sent, after, with_buffer. cbn [trace].
    rewrite List.filter_app. cbn. apply app_nil_r.
  - exact Hs.
Qed.

Lemma Run_null_frame_witness :
  Run [Receive noop_env (ReceiveNull "null");
       Receive noop_env (received (hello_frame "" []))]
    (new_session unlimited 0)
  = after [Socket_Close] (with_buffer ∅ (new_session unlimited 0)).
Proof.
  apply (proj1 (proj2 (Run_null_frame noop_env "null"
                         [Receive noop_env (received (hello_frame "" []))]
                         (new_session unlimited 0)
                         eq_refl eq_refl ltac:(discriminate) ltac:(discriminate)))).
Defined.

Lemma appends_open st st' : appends not_close st st' -> socket_closed st' = socket_closed st.
Proof.
  intros (_ & more & Ht & Hm). unfold socket_closed. rewrite Ht, existsb_app.
  assert (Hno : existsb is_close more = false).
  { clear Ht. induction Hm as [| e more He _ IH]; [reflexivity |].
    cbn [existsb]. rewrite IH. unfold not_close in He.
    destruct (is_close e); [discriminate He | reflexivity]. }
  rewrite Hno. apply orb_false_r.
Qed.

Lemma dispatch_keeps_open env name :
  name <> "hello" -> keeps not_close (dispatch env name).
Proof.
  intros Hn. unfold dispatch.
  destruct (String.eqb_spec name "hello") as [-> | _]; [contradiction |].
  repeat match goal with
         | |- keeps _ (if ?c then _ else _) => destruct c
         end.
  - unfold Ack. keeps_tac. unfold count_sent. keeps_tac.
  - unfold Register. keeps_tac.
  - unfold Unregister. keeps_tac.
  - unfold Ping. keeps_tac.
  - unfold Purge. keeps_tac.
  - apply keeps_ret.
Qed.

(** X27.  No command other than hello changes the socket record (the UAID)
    or the protocol state of the worker, and none closes the socket, whatever
    the frame holds and whatever the storage and the server answer. *)
Theorem other_commands_keep_session (env : Env) (name : string) (st : State) :
  name <> "hello" ->
  let st' := snd (dispatch env name st) in
  sock st' = sock st
  /\ state (self st') = state (self st)
  /\ socket_closed st' = socket_closed st.
Proof.
  intros Hn st'.
  destruct (dispatch_steady env name Hn st) as [Hsock Hstate].
  repeat split; trivial.
  apply appends_open. apply (dispatch_keeps_open env name Hn st).
Qed.

Lemma other_commands_keep_session_witness :
  let st := with_buffer (frame [("messageType", JString "register");
                                ("channelID", JString "d00d")])
              (session_of unlimited "abc") in
  let st' := snd (dispatch failing_storage_env "register" st) in
  sock st' = sock st
  /\ state (self st') = state (self st)
  /\ socket_closed st' = socket_closed st.
Proof.
  apply (other_commands_keep_session failing_storage_env "register"
           (with_buffer (frame [("messageType", JString "register");
                                ("channelID", JString "d00d")])
              (session_of unlimited "abc"))).
  discriminate.
Defined.

(** ** no_store.go and errors.go *)

Section CodecFacts.
Import NoStore.

Lemma IndexByte_cut (s : string) (c : ascii) (m : nat) :
  IndexByte s c = Some m ->
  s = (take_bytes m s ++ String c (drop_bytes (S m) s))%string
  /\ IndexByte (take_bytes m s) c = None.
Proof.
  revert m. induction s as [| d s IH]; intros m; cbn [IndexByte]; [discriminate |].
  destruct (Ascii.eqb_spec d c) as [-> | Hdc].
  - intros [= <-]. split; reflexivity.
  - destruct (IndexByte s c) as [i |]; [| discriminate].
    intros [= <-]. destruct (IH i eq_refl) as [Hs Hn]. split.
    + change (String d s
              = String d (take_bytes i s ++ String c (drop_bytes (S i) s))%string).
      now rewrite <- Hs.
    + change (IndexByte (String d (take_bytes i s)) c = None).
      cbn [IndexByte].
      destruct (Ascii.eqb_spec d c) as [-> | _]; [contradiction |]. now rewrite Hn.
Qed.

(** X28.  [KeyToIDs] cuts a key at its first dot: a key without a dot
    gives ok=false and two empty IDs; when it gives ok=true the key is the
    UAID, a dot and the channel ID, and the UAID holds no dot; and when both
    IDs are non-empty [IDsToKey] builds the same key again. *)
Theorem KeyToIDs_cuts_at_first_dot (key : string) :
  (IndexByte key "." = None -> KeyToIDs key = (EmptyString, EmptyString, false))
  /\ (forall suaid schid,
        KeyToIDs key = (suaid, schid, true) ->
        key = (suaid ++ "." ++ schid)%string /\ IndexByte suaid "." = None)
  /\ (forall suaid schid,
        KeyToIDs key = (suaid, schid, true) ->
        suaid <> EmptyString -> schid <> EmptyString ->
        IDsToKey suaid schid = (key, true)).
Proof.
  assert (Hcut : forall suaid schid,
             KeyToIDs key = (suaid, schid, true) ->
             key = (suaid ++ "." ++ schid)%string /\ IndexByte suaid "." = None).
  { intros suaid schid. unfold KeyToIDs. rewrite SplitN_two.
    destruct (IndexByte key ".") as [m |] eqn:Hm; [| discriminate].
    intros [= <- <-]. exact (IndexByte_cut key "." m Hm). }
  split; [| split; [exact Hcut |]].
  - intros Hn. unfold KeyToIDs. rewrite SplitN_two, Hn. reflexivity.
  - intros suaid schid Hk Hu Hc. destruct (Hcut suaid schid Hk) as [-> _].
    unfold IDsToKey.
    destruct suaid; [contradiction |]. destruct schid; [contradiction |]. reflexivity.
Qed.

Lemma KeyToIDs_cuts_at_first_dot_witness :
  KeyToIDs "nodot" = (EmptyString, EmptyString, false)
  /\ IDsToKey "abc" "d.e" = ("abc.d.e", true).
Proof.
  split.
  - apply (proj1 (KeyToIDs_cuts_at_first_dot "nodot")). reflexivity.
  - apply (proj2 (proj2 (KeyToIDs_cuts_at_first_dot "abc.d.e")) "abc" "d.e");
      [reflexivity | discriminate | discriminate].
Defined.

(** X29.  The errors of [GetAWSPublicHostname]: a transport error is
    returned as it is; a status outside 2xx gives the error "Bad response
    from AWS hostname call: " followed by the status in decimal; a body that
    cannot be read gives the reader's error.  The hostname is empty in all
    three cases. *)
Theorem GetAWSPublicHostname_errors (client_Do : Client) :
  (forall err, client_Do aws_request = inr err ->
     GetAWSPublicHostname client_Do = (EmptyString, Some err))
  /\ (forall resp, client_Do aws_request = inl resp -> ~ is_2xx (StatusCode resp) ->
        GetAWSPublicHostname client_Do
        = (EmptyString,
           Some (OtherError ("Bad response from AWS hostname call: "
                             ++ pretty (StatusCode resp))%string)))
  /\ (forall resp err, client_Do aws_request = inl resp -> is_2xx (StatusCode resp) ->
        Body resp = ReadFailed err ->
        GetAWSPublicHostname client_Do = (EmptyString, Some err)).
Proof.
  unfold GetAWSPublicHostname, is_2xx. repeat split.
  - intros err ->. reflexivity.
  - intros resp -> Hbad.
    destruct (StatusCode resp <? 200) eqn:Hlo; [reflexivity |].
    destruct (StatusCode resp >=? 300) eqn:Hhi; [reflexivity |].
    exfalso. apply Hbad. lia.
  - intros resp err -> [Hlo Hhi] ->.
    replace (StatusCode resp <? 200) with false by lia.
    replace (StatusCode resp >=? 300) with false by lia.
    reflexivity.
Qed.

Lemma GetAWSPublicHostname_errors_witness :
  GetAWSPublicHostname not_ec2_client
  = (EmptyString, Some (OtherError "Bad response from AWS hostname call: 404"))
  /\ GetAWSPublicHostname unreachable_client
     = (EmptyString, Some (OtherError "dial tcp 169.254.169.254:80: i/o timeout")).
Proof.
  split.
  - apply (proj1 (proj2 (GetAWSPublicHostname_errors not_ec2_client))
             {| StatusCode := 404; Body := ReadOk "not found" |}).
    + reflexivity.
    + unfold is_2xx. simpl. lia.
  - apply (proj1 (GetAWSPublicHostname_errors unreachable_client)). reflexivity.
Defined.

End CodecFacts.
